(** * Query orchestration pipeline of the knowledge assistant

    A shallow embedding of the backend's core:
    - [cache_service.py]: cache-key derivation, cache admission, the
      fixed-window rate limiter (over a model of the Redis commands it issues);
    - [vector_store.py]: tenant partition naming and the isolation check of
      [search];
    - [llm_service.py]: the token chunker;
    - [main.py]: the query endpoint that composes them.

    Python [str] values are modelled as [string]: the bytes of the UTF-8
    encoding of the text, on which [.encode()] is the identity. A character
    of the text is one to four of these bytes, and the operations of the
    chunker that index a text ([rfind], slicing, [len]) count characters, as
    Python does. Python [int] is modelled as [Z]; Python [float] as IEEE-754
    binary64 through the Standard Library's [spec_float].

    The services are stateful: a computation of type [M A] reads and updates a
    [world] (the Redis store, the clock, and the trace of the calls made to
    Redis, Qdrant, OpenAI and the database) and may raise. The answers of the
    similarity index, of the embedding and completion models and of the
    tokenizer are not computed here: they are parameters ([services],
    [encode], [decode]). The clock counts whole seconds. Dicts with a fixed
    set of keys (payloads, answers) are records; a key read with [.get] is an
    [option]. *)

From Stdlib Require Import ZArith SpecFloat.
From Stdlib Require Ascii String.
Import (notations) Ascii.
From stdpp Require Import gmap strings list sorting pretty.

Local Open Scope Z_scope.

(** ** Python string primitives *)

Module Py.

(** [s.replace(c, '')] for a one-character [c]. *)
Fixpoint remove_char (c : Ascii.ascii) (s : string) : string :=
  match s with
  | EmptyString => EmptyString
  | String a s' =>
      if Ascii.eqb a c then remove_char c s' else String a (remove_char c s')
  end.

(** [s[:n]] for [n >= 0], on a text of one-byte (ASCII) characters, such as
    the UUID of a tenant; [str_slice_to] below is the slice of any text. *)
Fixpoint take (n : nat) (s : string) : string :=
  match n, s with
  | S n', String a s' => String a (take n' s')
  | _, _ => EmptyString
  end.

(** [sep.join(l)]. *)
Fixpoint join (sep : string) (l : list string) : string :=
  match l with
  | [] => ""
  | [x] => x
  | x :: l' => x +:+ sep +:+ join sep l'
  end.

(** [sorted(l)] on a list of [str]: the ascending lexicographic order of
    the characters' codes. *)
Definition sorted (l : list string) : list string := merge_sort String.le l.

Definition lower_char (a : Ascii.ascii) : Ascii.ascii :=
  let n := Ascii.N_of_ascii a in
  if ((65 <=? n) && (n <=? 90))%N then Ascii.ascii_of_N (n + 32) else a.

(** [s.lower()] (on the ASCII letters). *)
Fixpoint lower (s : string) : string :=
  match s with
  | EmptyString => EmptyString
  | String a s' => String (lower_char a) (lower s')
  end.

(** [kw in s]: substring test. *)
Fixpoint contains (kw s : string) : bool :=
  String.prefix kw s ||
  match s with
  | EmptyString => false
  | String _ s' => contains kw s'
  end.

(** [any(kw in s for kw in kws)]. *)
Definition any_in (kws : list string) (s : string) : bool :=
  existsb (fun kw => contains kw s) kws.

(** The number of bytes of the character whose first byte is [a]: in
    UTF-8, one for [0xxxxxxx], two for [110xxxxx], three for [1110xxxx] and
    four for [11110xxx]. *)
Definition char_width (a : Ascii.ascii) : nat :=
  let n := Ascii.N_of_ascii a in
  if (n <? 192)%N then 1
  else if (n <? 224)%N then 2
  else if (n <? 240)%N then 3
  else 4.

(** [len(s)]: the number of characters. The functions that walk a text
    carry [inside], the number of bytes still to come of the character being
    read. *)
Fixpoint len_from (s : string) (inside : nat) : Z :=
  match s with
  | EmptyString => 0
  | String a s' =>
      match inside with
      | S k => len_from s' k
      | O => 1 + len_from s' (char_width a - 1)
      end
  end.

Definition str_len (s : string) : Z := len_from s 0.

(** [s.rfind(c)] for a one-byte character [c]: the highest index of [c]
    among the characters of [s], or [-1]; [i] is the index of the next
    character. *)
Fixpoint rfind_from (c : Ascii.ascii) (s : string) (inside : nat) (i found : Z) : Z :=
  match s with
  | EmptyString => found
  | String a s' =>
      match inside with
      | S k => rfind_from c s' k i found
      | O =>
          rfind_from c s' (char_width a - 1) (i + 1)
            (if Ascii.eqb a c then i else found)
      end
  end.

Definition rfind (c : Ascii.ascii) (s : string) : Z := rfind_from c s 0 0 (-1).

(** The first [n] characters of [s]. *)
Fixpoint take_from (n : nat) (s : string) (inside : nat) : string :=
  match s with
  | EmptyString => EmptyString
  | String a s' =>
      match inside with
      | S k => String a (take_from n s' k)
      | O =>
          match n with
          | O => EmptyString
          | S n' => String a (take_from n' s' (char_width a - 1))
          end
      end
  end.

(** Normalisation of a slice bound against a sequence of length [n]:
    negative bounds count from the end, and the result is clamped to
    [0..n]. *)
Definition slice_bound (n k : Z) : Z :=
  if k <? 0 then Z.max 0 (k + n) else Z.min k n.

(** [l[a:b]]. *)
Definition slice {A} (l : list A) (a b : Z) : list A :=
  let n := Z.of_nat (length l) in
  let a' := slice_bound n a in
  let b' := slice_bound n b in
  firstn (Z.to_nat (b' - a')) (skipn (Z.to_nat a') l).

(** [s[:b]] on a string: its first [b] characters (all but the last [-b]
    for a negative [b]). *)
Definition str_slice_to (s : string) (b : Z) : string :=
  take_from (Z.to_nat (slice_bound (str_len s) b)) s 0.

(** [range(0, stop, step)] for [step <> 0]; Python raises [ValueError] for
    a zero step, which callers handle before calling this. *)
Definition range0 (stop step : Z) : list Z :=
  let count :=
    if 0 <? step then (if 0 <? stop then (stop - 1) / step + 1 else 0)
    else 0 (* start = 0 is never above a stop >= 0 *) in
  map (fun k => Z.of_nat k * step) (seq 0 (Z.to_nat count)).

End Py.

(** ** SHA-256 ([hashlib.sha256(...).hexdigest()]) *)

Module SHA256.

Definition w32 (x : Z) : Z := x mod 2 ^ 32.
Definition add32 (x y : Z) : Z := w32 (x + y).
Definition rotr (n x : Z) : Z :=
  w32 (Z.lor (Z.shiftr x n) (Z.shiftl x (32 - n))).
Definition shr (n x : Z) : Z := Z.shiftr x n.
Definition not32 (x : Z) : Z := 2 ^ 32 - 1 - x.

Definition Ch (x y z : Z) : Z := Z.lxor (Z.land x y) (Z.land (not32 x) z).
Definition Maj (x y z : Z) : Z :=
  Z.lxor (Z.lxor (Z.land x y) (Z.land x z)) (Z.land y z).
Definition bsig0 (x : Z) : Z := Z.lxor (Z.lxor (rotr 2 x) (rotr 13 x)) (rotr 22 x).
Definition bsig1 (x : Z) : Z := Z.lxor (Z.lxor (rotr 6 x) (rotr 11 x)) (rotr 25 x).
Definition ssig0 (x : Z) : Z := Z.lxor (Z.lxor (rotr 7 x) (rotr 18 x)) (shr 3 x).
Definition ssig1 (x : Z) : Z := Z.lxor (Z.lxor (rotr 17 x) (rotr 19 x)) (shr 10 x).

(** The first 64 primes. *)
Definition primes : list Z :=
  [2; 3; 5; 7; 11; 13; 17; 19; 23; 29; 31; 37; 41; 43; 47; 53; 59; 61; 67;
   71; 73; 79; 83; 89; 97; 101; 103; 107; 109; 113; 127; 131; 137; 139; 149;
   151; 157; 163; 167; 173; 179; 181; 191; 193; 197; 199; 211; 223; 227; 229;
   233; 239; 241; 251; 257; 263; 269; 271; 277; 281; 283; 293; 307; 311].

(** The integer cube root of [n], found bit by bit from bit [b - 1] down. *)
Fixpoint icbrt (b : nat) (n x : Z) : Z :=
  match b with
  | O => x
  | S b' =>
      let y := x + 2 ^ Z.of_nat b' in
      icbrt b' n (if y * y * y <=? n then y else x)
  end.

(** The first 32 bits of the fractional part of the cube root, and of the
    square root, of [p]. *)
Definition frac_cbrt32 (p : Z) : Z := w32 (icbrt 36 (p * 2 ^ 96) 0).
Definition frac_sqrt32 (p : Z) : Z := w32 (Z.sqrt (p * 2 ^ 64)).

(** The round constants. *)
Definition K : list Z := map frac_cbrt32 primes.

Definition bytes_of_string (s : string) : list Z :=
  map (fun a => Z.of_N (Ascii.N_of_ascii a)) (String.list_ascii_of_string s).

(** Big-endian bytes of [x], [n] of them. *)
Fixpoint be_bytes (n : nat) (x : Z) : list Z :=
  match n with
  | O => []
  | S n' => be_bytes n' (x / 256) ++ [x mod 256]
  end.

(** The message followed by [0x80], zeros up to 56 mod 64, and the bit
    length on 8 bytes. *)
Definition pad (msg : list Z) : list Z :=
  let len := Z.of_nat (length msg) in
  let zeros := Z.to_nat ((55 - len) mod 64) in
  msg ++ [0x80] ++ repeat 0 zeros ++ be_bytes 8 (8 * len).

Fixpoint words_of_bytes (bs : list Z) : list Z :=
  match bs with
  | b0 :: b1 :: b2 :: b3 :: bs' =>
      (((b0 * 256 + b1) * 256 + b2) * 256 + b3) :: words_of_bytes bs'
  | _ => []
  end.

(** Message schedule, most recent word first: [ws] holds
    [W(t-1), W(t-2), ...]. *)
Fixpoint extend (n : nat) (ws : list Z) : list Z :=
  match n with
  | O => ws
  | S n' =>
      let w := add32 (add32 (ssig1 (nth 1 ws 0)) (nth 6 ws 0))
                     (add32 (ssig0 (nth 14 ws 0)) (nth 15 ws 0)) in
      extend n' (w :: ws)
  end.

Definition schedule (block : list Z) : list Z :=
  rev (extend 48 (rev block)).

Definition state : Type := Z * Z * Z * Z * Z * Z * Z * Z.

Definition round (st : state) (kw : Z * Z) : state :=
  let '(a, b, c, d, e, f, g, h) := st in
  let '(k, w) := kw in
  let t1 := add32 (add32 (add32 h (bsig1 e)) (add32 (Ch e f g) k)) w in
  let t2 := add32 (bsig0 a) (Maj a b c) in
  (add32 t1 t2, a, b, c, add32 d t1, e, f, g).

Definition compress (st : state) (block : list Z) : state :=
  let '(a, b, c, d, e, f, g, h) := st in
  let '(a', b', c', d', e', f', g', h') :=
    fold_left round (combine K (schedule block)) st in
  (add32 a a', add32 b b', add32 c c', add32 d d',
   add32 e e', add32 f f', add32 g g', add32 h h').

Fixpoint blocks (n : nat) (ws : list Z) : list (list Z) :=
  match n with
  | O => []
  | S n' => firstn 16 ws :: blocks n' (skipn 16 ws)
  end.

(** The initial hash value, from the first 8 primes. *)
Definition init : state :=
  match map frac_sqrt32 (firstn 8 primes) with
  | [a; b; c; d; e; f; g; h] => (a, b, c, d, e, f, g, h)
  | _ => (0, 0, 0, 0, 0, 0, 0, 0)
  end.

Definition digest (msg : list Z) : list Z :=
  let ws := words_of_bytes (pad msg) in
  let '(a, b, c, d, e, f, g, h) :=
    fold_left compress (blocks (length ws / 16) ws) init in
  flat_map (be_bytes 4) [a; b; c; d; e; f; g; h].

Definition hex_digit (n : Z) : Ascii.ascii :=
  Ascii.ascii_of_N (Z.to_N (if n <? 10 then 48 + n else 87 + n)).

Definition hex_of_bytes (bs : list Z) : string :=
  String.string_of_list_ascii
    (flat_map (fun b => [hex_digit (b / 16); hex_digit (b mod 16)]) bs).

Definition hexdigest (s : string) : string :=
  hex_of_bytes (digest (bytes_of_string s)).

End SHA256.

Arguments SHA256.hexdigest : simpl never.


(** ** Python floats (binary64) *)

Module Float.

(** [float(n)], rounded to nearest even. *)
Definition of_int (n : Z) : spec_float := binary_normalize 53 1024 n 0 false.
Definition mul (x y : spec_float) : spec_float := SFmul 53 1024 x y.
Definition ltb (x y : spec_float) : bool := SFltb x y.

(** The literals [0.0] and [0.7]; the latter is the double
    [0x1.6666666666666p-1]. *)
Definition f0_0 : spec_float := S754_zero false.
Definition f0_7 : spec_float := S754_finite false 6305039478318694 (-53).

(** [n > f] for an [int] [n] and a [float] [f]: Python compares the two
    exactly, without rounding [n]. *)
Definition int_gtb (n : Z) (f : spec_float) : bool :=
  match f with
  | S754_zero _ => 0 <? n
  | S754_infinity s => s
  | S754_nan => false
  | S754_finite s m e =>
      let v := if s then Z.neg m else Z.pos m in
      if 0 <=? e then v * 2 ^ e <? n else v <? n * 2 ^ (- e)
  end.

End Float.

(** ** [config.py] *)

Record Settings := {
  chunk_size : Z;
  chunk_overlap : Z;
  top_k_chunks : Z;
  similarity_threshold : spec_float;
  queries_per_minute : Z;
  queries_per_hour : Z;
  cache_ttl_seconds : Z
}.

(** The defaults of [class Settings]. *)
Definition default_settings : Settings := {|
  chunk_size := 500;
  chunk_overlap := 50;
  top_k_chunks := 5;
  similarity_threshold := Float.f0_7;
  queries_per_minute := 10;
  queries_per_hour := 100;
  cache_ttl_seconds := 3600
|}.

(** ** Data *)

(** A source reference of an answer. *)
Record Source := {
  src_document_name : string;
  relevant_excerpt : string
}.

(** The value under a key of a parsed JSON object that may lack the key or
    hold [null] (Python's [None]) under it. *)
Inductive Nullable (A : Type) :=
  | Absent
  | Null
  | Value (a : A).
Arguments Absent {A}.
Arguments Null {A}.
Arguments Value {A} a.

(** [d.get(key)]: [None] for an absent key and for [null]. *)
Definition dict_get {A} (v : Nullable A) : option A :=
  match v with
  | Value a => Some a
  | Absent | Null => None
  end.

(** The answer document computed for a question: the dict parsed from the
    completion model's JSON reply, which is also what the cache holds. Its
    values have the types that [QueryResponse] declares: [confidence] is an
    [Optional[float]], so the key may be absent, hold [null] or hold a
    number, and [cache_response] tells the three apart. [answer] and
    [insufficient_context] are only read with [.get], as an [option]: [None]
    is an absent key (for [answer], also [null]). *)
Record Response := {
  answer : option string;
  sources : list Source;
  confidence : Nullable spec_float;
  insufficient_context : option bool
}.

(** The payload of an indexed fragment; [tenant_id] is read with
    [payload.get], so it may be absent. *)
Record Payload := {
  tenant_id : option string;
  document_id : string;
  document_name : string;
  chunk_text : string;
  chunk_index : Z;
  total_chunks : Z;
  token_count : Z
}.

(** A record returned by the similarity index. *)
Record ScoredPoint := {
  payload : Payload;
  score : spec_float
}.

(** A fragment as [search] returns it. *)
Record Fragment := {
  frag_document_id : string;
  frag_document_name : string;
  frag_chunk_text : string;
  frag_chunk_index : Z;
  frag_score : spec_float
}.

(** A chunk as [chunk_text] returns it. *)
Record Chunk := {
  text : string;
  index : Z;
  chunk_token_count : Z
}.

(** ** Exceptions, external calls and the state of a run *)

Inductive exn :=
  | SecurityException (msg : string)
  | HTTPException (status_code : Z) (detail : string)
  | ValueError (msg : string)
  | ResponseError (msg : string)
  | AttributeError (msg : string)
  | TypeError (msg : string).

Inductive result (A : Type) :=
  | Ok (a : A)
  | Raise (e : exn).
Arguments Ok {A} a.
Arguments Raise {A} e.

(** What a Redis key holds: a counter, or a serialised answer document
    ([json.dumps] and [json.loads] are inverse on these, and the model keeps
    the document itself). *)
Inductive rvalue :=
  | RInt (n : Z)
  | RDoc (r : Response).

Record entry := {
  value : rvalue;
  expires_at : option Z
}.

(** Every call made to an external collaborator, in the order made. *)
Inductive event :=
  | RedisIncr (key : string)
  | RedisExpire (key : string) (seconds : Z)
  | RedisGet (key : string)
  | RedisSetex (key : string) (ttl : Z) (v : rvalue)
  | QdrantGetCollections
  | QdrantSearch (collection_name : string) (query_vector : list spec_float)
      (limit : Z) (score_threshold : spec_float) (tenant_filter : string)
  | OpenAIEmbedding (input : string)
  | OpenAIChat (question : string) (context_chunks : list Fragment)
      (tenant_name : string)
  | DbAuditLog (tenant : string) (action : string) (resource_type : string)
  | DbQueryLog (tenant : string) (question : string) (r : Response)
      (retrieved_chunks_count : Z) (llm_tokens_used : Z).

(** The Redis store, the clock ([time.time()], in seconds) and the calls
    made so far. *)
Record world := {
  redis : gmap string entry;
  clock : Z;
  trace : list event
}.

(** The collaborators whose answers the pipeline takes as given. *)
Record services := {
  qdrant_collections : list string;
  qdrant_search :
    string -> list spec_float -> Z -> spec_float -> string -> list ScoredPoint;
  openai_embedding : string -> list spec_float;
  openai_chat : string -> list Fragment -> string -> Response * Z
}.

(** Computations that read and update the world and may raise. *)
Definition M (A : Type) : Type := world -> result A * world.

Definition ret {A} (a : A) : M A := fun w => (Ok a, w).

Definition raise {A} (e : exn) : M A := fun w => (Raise e, w).

Definition bind {A B} (m : M A) (f : A -> M B) : M B :=
  fun w =>
    match m w with
    | (Ok a, w') => f a w'
    | (Raise e, w') => (Raise e, w')
    end.

Notation "x <- m ;; k" := (bind m (fun x => k))
  (at level 100, m at next level, right associativity).
Notation "m ;;; k" := (bind m (fun _ => k))
  (at level 100, right associativity).

Definition emit (e : event) : M unit :=
  fun w => (Ok tt, {| redis := redis w; clock := clock w; trace := trace w ++ [e] |}).

Definition time_time : M Z := fun w => (Ok (clock w), w).

Definition get_redis : M (gmap string entry) := fun w => (Ok (redis w), w).

Definition put_redis (m : gmap string entry) : M unit :=
  fun w => (Ok tt, {| redis := m; clock := clock w; trace := trace w |}).

(** [try: m except SecurityException as e: h e]. *)
Definition catch_security {A} (m : M A) (h : string -> M A) : M A :=
  fun w =>
    match m w with
    | (Raise (SecurityException msg), w') => h msg w'
    | r => r
    end.

(** The environment moving the clock between two requests. *)
Definition set_clock (t : Z) (w : world) : world :=
  {| redis := redis w; clock := t; trace := trace w |}.

(** ** The Redis commands the services issue

    Redis is an external store: each command is modelled after its documented
    behaviour, as one atomic step on the key it names. *)

Module Redis.

(** A key whose expiry time has been reached no longer exists. *)
Definition live (now : Z) (e : entry) : bool :=
  match expires_at e with
  | None => true
  | Some t => now <? t
  end.

Definition lookup (now : Z) (m : gmap string entry) (key : string) : option entry :=
  match m !! key with
  | Some e => if live now e then Some e else None
  | None => None
  end.

(** GET *)
Definition get (key : string) : M (option rvalue) :=
  emit (RedisGet key) ;;;
  now <- time_time ;;
  m <- get_redis ;;
  ret (value <$> lookup now m key).

(** INCR: a missing key counts from zero and gets no expiry; an existing
    counter keeps its expiry. *)
Definition incr (key : string) : M Z :=
  emit (RedisIncr key) ;;;
  now <- time_time ;;
  m <- get_redis ;;
  match lookup now m key with
  | None =>
      put_redis (<[key := {| value := RInt 1; expires_at := None |}]> m) ;;;
      ret 1
  | Some {| value := RInt n; expires_at := ex |} =>
      put_redis (<[key := {| value := RInt (n + 1); expires_at := ex |}]> m) ;;;
      ret (n + 1)
  | Some {| value := RDoc _ |} =>
      raise (ResponseError "value is not an integer or out of range")
  end.

(** EXPIRE *)
Definition expire (key : string) (seconds : Z) : M bool :=
  emit (RedisExpire key seconds) ;;;
  now <- time_time ;;
  m <- get_redis ;;
  match lookup now m key with
  | None => ret false
  | Some e =>
      (if seconds <=? 0 then put_redis (delete key m)
       else put_redis
              (<[key := {| value := value e;
                           expires_at := Some (now + seconds) |}]> m)) ;;;
      ret true
  end.

(** SETEX: the server rejects an expiry that is not positive. *)
Definition setex (key : string) (ttl : Z) (v : rvalue) : M unit :=
  emit (RedisSetex key ttl v) ;;;
  if ttl <=? 0 then raise (ResponseError "invalid expire time in 'setex' command")
  else
    now <- time_time ;;
    m <- get_redis ;;
    put_redis (<[key := {| value := v; expires_at := Some (now + ttl) |}]> m).

End Redis.

(** ** [cache_service.py] *)

Module CacheService.
Section WithSettings.

Variable settings : Settings.

(** The string that is hashed: [f"{tenant_id}:{question}:{':'.join(sorted(chunk_ids))}"]. *)
Definition cache_key_content (tenant_id question : string)
    (chunk_ids : list string) : string :=
  tenant_id +:+ ":" +:+ question +:+ ":" +:+ Py.join ":" (Py.sorted chunk_ids).

Definition _generate_cache_key (tenant_id question : string)
    (chunk_ids : list string) : string :=
  let content := cache_key_content tenant_id question chunk_ids in
  let hash_value := SHA256.hexdigest content in
  "cache:llm:" +:+ hash_value.

(** The stored text is never empty, so [if cached] tests presence; the
    result is what [json.loads] yields. *)
Definition get_cached_response (tenant_id question : string)
    (chunk_ids : list string) : M (option rvalue) :=
  let key := _generate_cache_key tenant_id question chunk_ids in
  cached <- Redis.get key ;;
  match cached with
  | Some v => ret (Some v)
  | None => ret None
  end.

Definition time_keywords : list string :=
  ["today"; "now"; "current"; "latest"; "deadline"].
Definition personal_keywords : list string :=
  ["my"; "i "; "me "; "mine"].

(** [response.get('confidence', 0)]: the default for an absent key, and
    [None] for a key that holds [null]. *)
Definition get_confidence (response : Response) : option spec_float :=
  match confidence response with
  | Absent => Some Float.f0_0
  | Null => None
  | Value c => Some c
  end.

(** [response.get('insufficient_context')], as a truth value. *)
Definition get_insufficient_context (response : Response) : bool :=
  default false (insufficient_context response).

(** [ttl or settings.cache_ttl_seconds], with [ttl: int = None]. *)
Definition ttl_or_default (ttl : option Z) : Z :=
  match ttl with
  | Some t => if t =? 0 then cache_ttl_seconds settings else t
  | None => cache_ttl_seconds settings
  end.

Definition cache_response (tenant_id question : string)
    (chunk_ids : list string) (response : Response) (ttl : option Z) : M unit :=
  match get_confidence response with
  | None =>
      raise (TypeError
               "'<' not supported between instances of 'NoneType' and 'float'")
  | Some c =>
      if Float.ltb c Float.f0_7 then ret tt
      else if get_insufficient_context response then ret tt
      else
        let question_lower := Py.lower question in
        if Py.any_in (time_keywords ++ personal_keywords) question_lower then ret tt
        else
          let key := _generate_cache_key tenant_id question chunk_ids in
          let ttl := ttl_or_default ttl in
          Redis.setex key ttl (RDoc response)
  end.

Definition rate_limit_key (tenant_id operation : string) (current_minute : Z) : string :=
  "ratelimit:" +:+ tenant_id +:+ ":" +:+ operation +:+ ":" +:+ pretty current_minute.

Definition check_rate_limit (tenant_id operation : string) : M bool :=
  now <- time_time ;;
  let current_minute := Z.quot now 60 in
  let key := rate_limit_key tenant_id operation current_minute in
  count <- Redis.incr key ;;
  (if count =? 1 then Redis.expire key 60 ;;; ret tt else ret tt) ;;;
  let limit := queries_per_minute settings in
  if limit <? count then ret false else ret true.

(** [invalidate_document_cache]: the body is [pass]; cached answers are left
    to expire. *)
Definition invalidate_document_cache (tenant_id document_id : string) : M unit :=
  ret tt.

End WithSettings.
End CacheService.

(** ** [vector_store.py] *)

Module VectorStore.
Section WithServices.

Variable env : services.

Definition _get_collection_name (tenant_id : string) : string :=
  let clean_id := Py.take 16 (Py.remove_char "-"%char tenant_id) in
  "tenant_" +:+ clean_id +:+ "_documents".

Definition get_collections : M (list string) :=
  emit QdrantGetCollections ;;;
  ret (qdrant_collections env).

Definition client_search (collection_name : string)
    (query_vector : list spec_float) (limit : Z) (score_threshold : spec_float)
    (tenant_filter : string) : M (list ScoredPoint) :=
  emit (QdrantSearch collection_name query_vector limit score_threshold
          tenant_filter) ;;;
  ret (qdrant_search env collection_name query_vector limit score_threshold
         tenant_filter).

Definition to_fragment (r : ScoredPoint) : Fragment := {|
  frag_document_id := document_id (payload r);
  frag_document_name := document_name (payload r);
  frag_chunk_text := chunk_text (payload r);
  frag_chunk_index := chunk_index (payload r);
  frag_score := score r
|}.

(** The loop over the returned records. *)
Fixpoint validate (tenant : string) (results : list ScoredPoint)
    (chunks : list Fragment) : result (list Fragment) :=
  match results with
  | [] => Ok chunks
  | r :: results' =>
      if bool_decide (tenant_id (payload r) ≠ Some tenant) then
        Raise (SecurityException "Tenant isolation violation detected")
      else validate tenant results' (chunks ++ [to_fragment r])
  end.

Definition search (tenant : string) (query_vector : list spec_float)
    (top_k : Z) (score_threshold : spec_float) : M (list Fragment) :=
  let collection_name := _get_collection_name tenant in
  collection_names <- get_collections ;;
  if bool_decide (collection_name ∉ collection_names) then ret []
  else
    results <- client_search collection_name query_vector top_k
                 score_threshold tenant ;;
    match validate tenant results [] with
    | Ok chunks => ret chunks
    | Raise e => raise e
    end.

End WithServices.
End VectorStore.

(** ** [llm_service.py] *)

Module LLMService.
Section WithTokenizer.

Variable settings : Settings.
Variable env : services.

(** The tokenizer ([tiktoken]): tokens are integers. *)
Variable encode : string -> list Z.
Variable decode : list Z -> string.

Definition len {A} (l : list A) : Z := Z.of_nat (length l).

Definition count_tokens (text : string) : Z := len (encode text).

(** [chunk_size * 0.7] *)
Definition trim_threshold : spec_float :=
  Float.mul (Float.of_int (chunk_size settings)) Float.f0_7.

(** The body of the loop of [chunk_text] at window start [i]. *)
Definition chunk_at (tokens : list Z) (chunks : list Chunk) (i : Z) : list Chunk :=
  let chunk_tokens := Py.slice tokens i (i + chunk_size settings) in
  let chunk_text := decode chunk_tokens in
  let chunk_text :=
    if i + chunk_size settings <? len tokens then
      let last_period := Py.rfind "."%char chunk_text in
      if Float.int_gtb last_period trim_threshold
      then Py.str_slice_to chunk_text (last_period + 1)
      else chunk_text
    else chunk_text in
  chunks ++ [{| text := chunk_text;
                index := len chunks;
                chunk_token_count := len chunk_tokens |}].

Definition chunk_text (text : string) : result (list Chunk) :=
  let tokens := encode text in
  let step := chunk_size settings - chunk_overlap settings in
  if step =? 0 then Raise (ValueError "range() arg 3 must not be zero")
  else Ok (fold_left (chunk_at tokens) (Py.range0 (len tokens) step) []).

Definition embed_text (text : string) : M (list spec_float) :=
  emit (OpenAIEmbedding text) ;;;
  ret (openai_embedding env text).

(** The completion call; the reply is the parsed answer document and the
    total token usage. *)
Definition generate_answer (question : string)
    (context_chunks : list Fragment) (tenant_name : string) : M (Response * Z) :=
  emit (OpenAIChat question context_chunks tenant_name) ;;;
  ret (openai_chat env question context_chunks tenant_name).

End WithTokenizer.
End LLMService.

(** ** [main.py]: the query endpoint *)

Module Main.
Section WithServices.

Variable settings : Settings.
Variable env : services.

Record TenantContext := {
  ctx_tenant_id : string;
  ctx_tenant_name : string
}.

Record QueryRequest := {
  req_question : string
}.

Record QueryResponse := {
  resp_answer : option string;
  resp_sources : list Source;
  resp_confidence : option spec_float;
  resp_insufficient_context : bool;
  resp_processing_time_ms : Z;
  resp_cached : bool
}.

Definition create_audit_log (tenant action resource_type : string) : M unit :=
  emit (DbAuditLog tenant action resource_type).

Definition create_query_log (tenant question : string) (r : Response)
    (retrieved_chunks_count llm_tokens_used : Z) : M unit :=
  emit (DbQueryLog tenant question r retrieved_chunks_count llm_tokens_used).

(** [if cached_response:] on what [json.loads] returned (a cached document
    carries at least its [confidence] key, so it is a non-empty dict). *)
Definition truthy (cached : option rvalue) : bool :=
  match cached with
  | None => false
  | Some (RInt n) => negb (n =? 0)
  | Some (RDoc _) => true
  end.

Definition respond (r : Response) (processing_time : Z) (cached : bool)
    : QueryResponse := {|
  resp_answer := answer r;
  resp_sources := sources r;
  resp_confidence := dict_get (confidence r);
  resp_insufficient_context := default false (insufficient_context r);
  resp_processing_time_ms := processing_time;
  resp_cached := cached
|}.

Definition processing_time_since (start_time : Z) : M Z :=
  now <- time_time ;;
  ret ((now - start_time) * 1000).

Definition query_knowledge_base (request : QueryRequest)
    (context : TenantContext) : M QueryResponse :=
  let tenant := ctx_tenant_id context in
  let question := req_question request in
  start_time <- time_time ;;
  allowed <- CacheService.check_rate_limit settings tenant "query" ;;
  if negb allowed then
    raise (HTTPException 429
             ("Rate limit exceeded: " +:+ pretty (queries_per_minute settings)
              +:+ " queries per minute"))
  else
    question_embedding <- LLMService.embed_text env question ;;
    chunks <-
      catch_security
        (VectorStore.search env tenant question_embedding
           (top_k_chunks settings) (similarity_threshold settings))
        (fun e =>
           create_audit_log tenant "security_violation" "query" ;;;
           raise (HTTPException 500 "Security violation detected")) ;;
    let chunk_ids := map frag_document_id chunks in
    cached_response <- CacheService.get_cached_response tenant question chunk_ids ;;
    if truthy cached_response then
      match cached_response with
      | Some (RDoc r) =>
          processing_time <- processing_time_since start_time ;;
          ret (respond r processing_time true)
      | _ => raise (AttributeError "'int' object has no attribute 'get'")
      end
    else
      result_tokens <-
        (match chunks with
         | [] =>
             ret ({| answer := None;
                     sources := [];
                     confidence := Value Float.f0_0;
                     insufficient_context := Some true |}, 0)
         | _ :: _ =>
             LLMService.generate_answer env question chunks
               (ctx_tenant_name context)
         end) ;;
      let '(result, tokens) := result_tokens in
      CacheService.cache_response settings tenant question chunk_ids result None ;;;
      processing_time <- processing_time_since start_time ;;
      create_query_log tenant question result
        (Z.of_nat (length chunks)) tokens ;;;
      create_audit_log tenant "query_execute" "query" ;;;
      ret (respond result processing_time false).

End WithServices.
End Main.

(** ** Harness for concrete runs *)

(** A tokenizer with one token per byte, which is one token per character
    on ASCII text, to run the chunker on concrete texts; the number and the
    extent of the windows depend on the token count only. *)
Module CharTokenizer.

Definition encode (s : string) : list Z :=
  map (fun a => Z.of_N (Ascii.N_of_ascii a)) (String.list_ascii_of_string s).

Definition decode (tokens : list Z) : string :=
  String.string_of_list_ascii
    (map (fun t => Ascii.ascii_of_N (Z.to_N t)) tokens).

(** [c * n] *)
Fixpoint replicate (n : nat) (c : Ascii.ascii) : string :=
  match n with
  | O => EmptyString
  | S n' => String c (replicate n' c)
  end.

End CharTokenizer.

(** A tokenizer with one token per character of the text, the token being
    the code point of the character, to run the chunker on texts with
    characters of several bytes. *)
Module PointTokenizer.

(** The UTF-8 bytes of a code point. *)
Definition utf8 (p : Z) : list Z :=
  if p <? 128 then [p]
  else if p <? 2048 then [192 + p / 64; 128 + p mod 64]
  else if p <? 65536 then [224 + p / 4096; 128 + (p / 64) mod 64; 128 + p mod 64]
  else [240 + p / 262144; 128 + (p / 4096) mod 64; 128 + (p / 64) mod 64;
        128 + p mod 64].

(** One more byte read: a continuation byte [10xxxxxx] adds its six bits to
    the code point being read, any other byte begins a code point. The code
    points read so far are held last first. *)
Definition push (points : list Z) (b : Z) : list Z :=
  if (128 <=? b) && (b <? 192) then
    match points with
    | p :: points' => (p * 64 + (b - 128)) :: points'
    | [] => []
    end
  else
    (if b <? 128 then b
     else if b <? 224 then b - 192
     else if b <? 240 then b - 224
     else b - 240) :: points.

Definition encode (s : string) : list Z :=
  rev (fold_left push (SHA256.bytes_of_string s) []).

Definition decode (tokens : list Z) : string :=
  String.string_of_list_ascii
    (map (fun b => Ascii.ascii_of_N (Z.to_N b)) (flat_map utf8 tokens)).

End PointTokenizer.

(** Successive calls of [check_rate_limit], the clock reading [t] at each. *)
Fixpoint run_calls (settings : Settings) (tenant operation : string)
    (times : list Z) (w : world) : list (result bool) * world :=
  match times with
  | [] => ([], w)
  | t :: times' =>
      let '(r, w') :=
        CacheService.check_rate_limit settings tenant operation (set_clock t w) in
      let '(rs, w'') := run_calls settings tenant operation times' w' in
      (r :: rs, w'')
  end.

Definition empty_world (now : Z) : world :=
  {| redis := ∅; clock := now; trace := [] |}.

(** ** Vocabulary of the statements *)

(** The world after further calls to the collaborators. *)
Definition add_events (evs : list event) (w : world) : world :=
  {| redis := redis w; clock := clock w; trace := trace w ++ evs |}.

(** A record of the index that belongs to [tenant]. *)
Definition own_record (tenant : string) (r : ScoredPoint) : Prop :=
  tenant_id (payload r) = Some tenant.

(** An index with one partition, for tenant "acme", that answers every
    similarity query with [points]; the other collaborators answer with
    empty values. *)
Definition sample_services (points : list ScoredPoint) : services := {|
  qdrant_collections := ["tenant_acme_documents"];
  qdrant_search := fun _ _ _ _ _ => points;
  openai_embedding := fun _ => [];
  openai_chat := fun _ _ _ =>
    ({| answer := Some "yes"; sources := [];
        confidence := Value Float.f0_7; insufficient_context := Some false |}, 0)
|}.

Definition sample_point (tenant : option string) (doc : string) : ScoredPoint := {|
  payload := {| tenant_id := tenant; document_id := doc;
                document_name := doc; chunk_text := "text"; chunk_index := 0;
                total_chunks := 1; token_count := 1 |};
  score := Float.f0_7
|}.


(** The chunk that the loop of [chunk_text] produces for its [k]-th window,
    which starts at token [i]. *)
Definition window_chunk (settings : Settings) (decode : list Z -> string)
    (tokens : list Z) (k : nat) (i : Z) : Chunk :=
  let window := Py.slice tokens i (i + chunk_size settings) in
  let decoded := decode window in
  let last_period := Py.rfind "."%char decoded in
  {| text :=
       if (i + chunk_size settings <? LLMService.len tokens)
          && Float.int_gtb last_period (LLMService.trim_threshold settings)
       then Py.str_slice_to decoded (last_period + 1)
       else decoded;
     index := Z.of_nat k;
     chunk_token_count := LLMService.len window |}.


(** The doubles written [0.69], [0.9] and [0.95]. *)
Definition f0_69 : spec_float := S754_finite false 6214967485771284 (-53).
Definition f0_9 : spec_float := S754_finite false 8106479329266893 (-53).
Definition f0_95 : spec_float := S754_finite false 8556839292003942 (-53).

(** The markers of a question whose answer is not cached, as the
    specification lists them. *)
Definition time_markers : list string :=
  ["today"; "now"; "current"; "latest"; "deadline"].
Definition personal_markers : list string :=
  ["my"; "i "; "me "; "mine"].

(** A response that [cache_response] does not store for a question: its
    confidence does not pass the test against 0.7 (it is a number below 0.7,
    or absent and so taken as 0, or [null], which cannot be compared), or it
    is flagged as lacking context, or the lowercased question contains a
    marker. *)
Definition not_admitted (question : string) (response : Response) : Prop :=
  match CacheService.get_confidence response with
  | Some c => Float.ltb c Float.f0_7 = true
  | None => True
  end ∨
  CacheService.get_insufficient_context response = true ∨
  ∃ kw, kw ∈ time_markers ++ personal_markers ∧
        Py.contains kw (Py.lower question) = true.


(** The completion call. *)
Definition is_chat (e : event) : bool :=
  match e with
  | OpenAIChat _ _ _ => true
  | _ => false
  end.

(** A call that is not a completion call over an empty context. *)
Definition chat_with_context (e : event) : Prop :=
  match e with
  | OpenAIChat _ context_chunks _ => context_chunks ≠ []
  | _ => True
  end.

(** The keys of the rate counters. *)
Definition rate_key (k : string) : Prop := ∃ s, k = "ratelimit:" +:+ s.

(** [w'] comes after [w] in a run that leaves the clock alone, writes to
    Redis keys in [K] only, and makes calls that all satisfy [P]. *)
Definition frame (K : string -> Prop) (P : event -> Prop) (w w' : world) : Prop :=
  clock w' = clock w ∧
  (∀ k, ¬ K k -> redis w' !! k = redis w !! k) ∧
  ∃ evs, trace w' = trace w ++ evs ∧ Forall P evs.

Definition steps (K : string -> Prop) (P : event -> Prop) {A} (m : M A) : Prop :=
  ∀ w, frame K P w (snd (m w)).


(** The commands of the rate limiter, and the calls to the index. *)
Definition is_counter_command (e : event) : Prop :=
  match e with
  | RedisIncr _ | RedisExpire _ _ => True
  | _ => False
  end.

Definition is_index_call (e : event) : Prop :=
  match e with
  | QdrantGetCollections | QdrantSearch _ _ _ _ _ => True
  | _ => False
  end.


(** A request of tenant "acme", and worlds to run it in. *)
Definition sample_context : Main.TenantContext :=
  {| Main.ctx_tenant_id := "acme"; Main.ctx_tenant_name := "Acme" |}.

Definition sample_request : Main.QueryRequest :=
  {| Main.req_question := "How many vacation days are granted?" |}.

Definition sample_answer : Response :=
  {| answer := Some "Twenty days."; sources := [];
     confidence := Value f0_95; insufficient_context := Some false |}.

(** The index of [sample_services] with a completion model that replies
    with [sample_answer]. *)
Definition answering_services (points : list ScoredPoint) : services := {|
  qdrant_collections := qdrant_collections (sample_services points);
  qdrant_search := qdrant_search (sample_services points);
  openai_embedding := openai_embedding (sample_services points);
  openai_chat := fun _ _ _ => (sample_answer, 42)
|}.

(** A world at time [now] whose store holds [e] under [key]. *)
Definition world_with (now : Z) (key : string) (e : entry) : world :=
  {| redis := {[ key := e ]}; clock := now; trace := [] |}.


(** A float that is not negative (a NaN counts: no integer is above it). *)
Definition float_nonneg (f : spec_float) : Prop :=
  match f with
  | S754_finite s _ _ | S754_infinity s => s = false
  | _ => True
  end.


(** A string without the delimiter ':' (a UUID, for one). *)
Definition colon_free (s : string) : Prop := Py.contains ":" s = false.


(** ** Ingestion: [embed_chunks], [ensure_collection], [store_chunks] and
    [upload_document]

    Ingestion writes to the index, so here the index is a store: a map from
    partition names to their points, changed by [create_collection] and
    [upsert] (which replaces a point with the same id and appends the others).
    The identifiers drawn by [uuid.uuid4()], the batch answers of the
    embedding model and the identifiers given by the database are
    parameters; the identifier of a new document may depend on all the
    calls made before. A collaborator that fails (a network or API error) is
    outside this model. *)

Module Ingest.

(** A chunk after [embed_chunks] set its 'embedding' key. *)
Record EmbeddedChunk := {
  ec_text : string;
  ec_index : Z;
  ec_token_count : Z;
  ec_embedding : list spec_float
}.

Record PointStruct := {
  point_id : string;
  point_vector : list spec_float;
  point_payload : Payload
}.

Inductive call :=
  | DbCreateDocument (tenant name content content_type : string)
  | EmbeddingsCreate (input : list string)
  | GetCollections
  | CreateCollection (collection_name : string) (size : Z) (distance : string)
  | CreatePayloadIndex (collection_name field_name field_schema : string)
  | Upsert (collection_name : string) (points : list PointStruct)
  | DbAuditLog (tenant action resource_type resource_id : string)
      (metadata_name : string) (metadata_chunks : Z).

Inductive error :=
  | Core (e : exn)
  | IndexError (msg : string)
  | UnexpectedResponse (msg : string).

Inductive outcome (A : Type) :=
  | Done (a : A)
  | Failed (e : error).
Arguments Done {A} a.
Arguments Failed {A} e.

Record state := {
  collections : gmap string (list PointStruct);
  uuid_draws : nat;
  calls : list call
}.

Record oracles := {
  uuid4 : nat -> string;
  embeddings_create : list string -> list (list spec_float);
  new_document_id : list call -> string
}.

Definition IM (A : Type) : Type := state -> outcome A * state.

Definition iret {A} (a : A) : IM A := fun s => (Done a, s).

Definition fail {A} (e : error) : IM A := fun s => (Failed e, s).

Definition ibind {A B} (m : IM A) (f : A -> IM B) : IM B :=
  fun s =>
    match m s with
    | (Done a, s') => f a s'
    | (Failed e, s') => (Failed e, s')
    end.

Notation "x <~ m ;; k" := (ibind m (fun x => k))
  (at level 100, m at next level, right associativity).
Notation "m ;;~ k" := (ibind m (fun _ => k))
  (at level 100, right associativity).

Definition record (c : call) : IM unit :=
  fun s => (Done tt, {| collections := collections s; uuid_draws := uuid_draws s;
                        calls := calls s ++ [c] |}).

Section WithOracles.

Variable settings : Settings.
Variable env : oracles.
Variable encode : string -> list Z.
Variable decode : list Z -> string.

(** [for i, chunk in enumerate(chunks): chunk['embedding'] = data[i].embedding],
    from position [i] on. *)
Fixpoint attach (i : nat) (chunks : list Chunk) (data : list (list spec_float))
    : outcome (list EmbeddedChunk) :=
  match chunks with
  | [] => Done []
  | chunk :: chunks' =>
      match data !! i with
      | None => Failed (IndexError "list index out of range")
      | Some embedding =>
          match attach (S i) chunks' data with
          | Done rest =>
              Done ({| ec_text := text chunk; ec_index := index chunk;
                       ec_token_count := chunk_token_count chunk;
                       ec_embedding := embedding |} :: rest)
          | Failed e => Failed e
          end
      end
  end.

(** [LLMService.embed_chunks] *)
Definition embed_chunks (chunks : list Chunk) : IM (list EmbeddedChunk) :=
  let texts := map text chunks in
  record (EmbeddingsCreate texts) ;;~
  match attach 0 chunks (embeddings_create env texts) with
  | Done embedded => iret embedded
  | Failed e => fail e
  end.

Definition get_collections : IM (list string) :=
  record GetCollections ;;~
  fun s => (Done (map fst (map_to_list (collections s))), s).

Definition create_collection (name : string) (size : Z) (distance : string)
    : IM unit :=
  record (CreateCollection name size distance) ;;~
  fun s => (Done tt, {| collections := <[name := []]> (collections s);
                        uuid_draws := uuid_draws s; calls := calls s |}).

Definition create_payload_index (name field_name field_schema : string) : IM unit :=
  record (CreatePayloadIndex name field_name field_schema).

(** [VectorStore.ensure_collection] *)
Definition ensure_collection (tenant_id : string) : IM unit :=
  let collection_name := VectorStore._get_collection_name tenant_id in
  collection_names <~ get_collections ;;
  if bool_decide (collection_name ∉ collection_names) then
    create_collection collection_name 1536 "Cosine" ;;~
    create_payload_index collection_name "tenant_id" "keyword"
  else iret tt.

(** [str(uuid.uuid4())] *)
Definition draw_uuid : IM string :=
  fun s => (Done (uuid4 env (uuid_draws s)),
            {| collections := collections s; uuid_draws := S (uuid_draws s);
               calls := calls s |}).

(** The loop of [store_chunks] that builds the points. *)
Fixpoint build_points (tenant_id document_id document_name : string)
    (total : Z) (chunks : list EmbeddedChunk) : IM (list PointStruct) :=
  match chunks with
  | [] => iret []
  | chunk :: chunks' =>
      id <~ draw_uuid ;;
      let point :=
        {| point_id := id;
           point_vector := ec_embedding chunk;
           point_payload :=
             {| tenant_id := Some tenant_id;
                document_id := document_id;
                document_name := document_name;
                chunk_text := ec_text chunk;
                chunk_index := ec_index chunk;
                total_chunks := total;
                token_count := ec_token_count chunk |} |} in
      points <~ build_points tenant_id document_id document_name total chunks' ;;
      iret (point :: points)
  end.

(** One point put into a partition: it replaces the point with its id, or is
    added. *)
Fixpoint put_point (p : PointStruct) (stored : list PointStruct) : list PointStruct :=
  match stored with
  | [] => [p]
  | q :: stored' =>
      if String.eqb (point_id q) (point_id p) then p :: stored'
      else q :: put_point p stored'
  end.

Definition upsert (collection_name : string) (points : list PointStruct) : IM unit :=
  record (Upsert collection_name points) ;;~
  fun s =>
    match collections s !! collection_name with
    | None => (Failed (UnexpectedResponse "Not found: Collection doesn't exist"), s)
    | Some stored =>
        (Done tt,
         {| collections :=
              <[collection_name := fold_left (fun acc p => put_point p acc) points stored]>
                (collections s);
            uuid_draws := uuid_draws s; calls := calls s |})
    end.

(** [VectorStore.store_chunks] *)
Definition store_chunks (tenant_id document_id document_name : string)
    (chunks : list EmbeddedChunk) : IM unit :=
  let collection_name := VectorStore._get_collection_name tenant_id in
  ensure_collection tenant_id ;;~
  points <~ build_points tenant_id document_id document_name
              (Z.of_nat (length chunks)) chunks ;;
  upsert collection_name points.

(** [file.content_type or "text/markdown"] *)
Definition content_type_or_default (content_type : option string) : string :=
  match content_type with
  | Some "" | None => "text/markdown"
  | Some ct => ct
  end.

(** [db.create_document]: the row is inserted and its identifier returned. *)
Definition create_document (tenant_id name content content_type : string)
    : IM string :=
  fun s =>
    (Done (new_document_id env (calls s)),
     {| collections := collections s; uuid_draws := uuid_draws s;
        calls := calls s ++ [DbCreateDocument tenant_id name content content_type] |}).

Record DocumentUploadResponse := {
  up_document_id : string;
  up_name : string;
  chunks_count : Z;
  message : string
}.

(** [main.upload_document], from the decoded text of the file on. *)
Definition upload_document (tenant_id filename : string)
    (content_type : option string) (content : string)
    : IM DocumentUploadResponse :=
  document_id <~ create_document tenant_id filename content
                   (content_type_or_default content_type) ;;
  chunks <~ (match LLMService.chunk_text settings encode decode content with
             | Ok chunks => iret chunks
             | Raise e => fail (Core e)
             end) ;;
  chunks_with_embeddings <~ embed_chunks chunks ;;
  store_chunks tenant_id document_id filename chunks_with_embeddings ;;~
  record (DbAuditLog tenant_id "document_upload" "document" document_id
            filename (Z.of_nat (length chunks))) ;;~
  iret {| up_document_id := document_id;
          up_name := filename;
          chunks_count := Z.of_nat (length chunks);
          message := "Document uploaded successfully with " +:+
                     pretty (Z.of_nat (length chunks)) +:+ " chunks" |}.

End WithOracles.

End Ingest.


(** The ingestion state after further calls. *)
Definition with_calls (cs : list Ingest.call) (s : Ingest.state) : Ingest.state :=
  {| Ingest.collections := Ingest.collections s;
     Ingest.uuid_draws := Ingest.uuid_draws s;
     Ingest.calls := Ingest.calls s ++ cs |}.

(** A chunk with its embedding set. *)
Definition embedded (chunk : Chunk) (embedding : list spec_float)
    : Ingest.EmbeddedChunk :=
  {| Ingest.ec_text := text chunk;
     Ingest.ec_index := index chunk;
     Ingest.ec_token_count := chunk_token_count chunk;
     Ingest.ec_embedding := embedding |}.

(** The point that [store_chunks] builds for [chunk], with identifier [id]. *)
Definition point_of (tenant document_id document_name : string) (total : Z)
    (id : string) (chunk : Ingest.EmbeddedChunk) : Ingest.PointStruct :=
  {| Ingest.point_id := id;
     Ingest.point_vector := Ingest.ec_embedding chunk;
     Ingest.point_payload :=
       {| tenant_id := Some tenant;
          document_id := document_id;
          document_name := document_name;
          chunk_text := Ingest.ec_text chunk;
          chunk_index := Ingest.ec_index chunk;
          total_chunks := total;
          token_count := Ingest.ec_token_count chunk |} |}.

(** Every stored point lies in the partition named after the tenant in its
    payload. *)
Definition well_partitioned (m : gmap string (list Ingest.PointStruct)) : Prop :=
  ∀ name points p,
    m !! name = Some points -> p ∈ points ->
    ∃ tenant, tenant_id (Ingest.point_payload p) = Some tenant ∧
              name = VectorStore._get_collection_name tenant.

(** Collaborators for concrete ingestion runs: identifiers "id-0", "id-1",
    ..., one (empty) embedding per input, and one document identifier. *)
Definition sample_oracles : Ingest.oracles := {|
  Ingest.uuid4 := fun n => "id-" +:+ pretty n;
  Ingest.embeddings_create := map (fun _ => []);
  Ingest.new_document_id := fun _ => "doc-1"
|}.

(** A model that returns no embedding at all. *)
Definition silent_oracles : Ingest.oracles := {|
  Ingest.uuid4 := Ingest.uuid4 sample_oracles;
  Ingest.embeddings_create := fun _ => [];
  Ingest.new_document_id := Ingest.new_document_id sample_oracles
|}.

Definition empty_index : Ingest.state :=
  {| Ingest.collections := ∅; Ingest.uuid_draws := 0; Ingest.calls := [] |}.


(** The characters of a string, and the lowercase hexadecimal digits. *)
Definition chars (s : string) : list Ascii.ascii := String.list_ascii_of_string s.

Definition is_hex_digit (a : Ascii.ascii) : Prop := a ∈ chars "0123456789abcdef".


(** * Properties *)

(** ** The hash function agrees with the published test vectors *)

Example sha256_empty :
  SHA256.hexdigest "" =
  "e3b0c44298fc1c149afbf4c8996fb92427ae41e4649b934ca495991b7852b855".
Proof. vm_compute. reflexivity. Qed.

Example sha256_abc :
  SHA256.hexdigest "abc" =
  "ba7816bf8f01cfea414140de5dae2223b00361a396177a9cb410ff61f20015ad".
Proof. vm_compute. reflexivity. Qed.

Example sha256_two_blocks :
  SHA256.hexdigest
    "aaaaaaaaaaaaaaaaaaaaaaaaaaaaaaaaaaaaaaaaaaaaaaaaaaaaaaaaaaaaaaaaaaaaaaaaaaaaaaaaaaaaaaaaaaaaaaaaaaaaaaaaaaaaaaaaaaaaaaa" =
  "31eba51c313a5c08226adf18d4a359cfdfd8d2e816b13f4af952f7ea6584dcfb".
Proof. vm_compute. reflexivity. Qed.

Example sha256_56 :
  SHA256.hexdigest
    "aaaaaaaaaaaaaaaaaaaaaaaaaaaaaaaaaaaaaaaaaaaaaaaaaaaaaaaa" =
  "b35439a4ac6f0948b6d6f9e3c6af0f5f590ce20f1bde7090ef7970686ec6738a".
Proof. vm_compute. reflexivity. Qed.

(** ** Strings *)

Lemma append_cons (a : Ascii.ascii) (s t : string) :
  String a s +:+ t = String a (s +:+ t).
Proof. reflexivity. Qed.

Lemma append_nil_l (s : string) : "" +:+ s = s.
Proof. reflexivity. Qed.

Lemma append_nil_r (s : string) : s +:+ "" = s.
Proof.
  induction s as [|a s IH]; [done|]. by rewrite append_cons, IH.
Qed.

Lemma length_append (s1 s2 : string) :
  String.length (s1 +:+ s2) = (String.length s1 + String.length s2)%nat.
Proof.
  induction s1 as [|a s1 IH]; [done|]. rewrite append_cons. simpl. by rewrite IH.
Qed.

Lemma append_inj_r (s a b : string) : a +:+ s = b +:+ s -> a = b.
Proof.
  revert b. induction a as [|x a IH]; intros [|y b] H.
  - done.
  - apply (f_equal String.length) in H.
    rewrite !length_append in H. simpl in H. lia.
  - apply (f_equal String.length) in H.
    rewrite !length_append in H. simpl in H. lia.
  - rewrite !append_cons in H. injection H as -> H. f_equal. by apply IH.
Qed.

Lemma sorted_perm (l1 l2 : list string) :
  l1 ≡ₚ l2 -> Py.sorted l1 = Py.sorted l2.
Proof.
  intros Hp. unfold Py.sorted.
  apply (Sorted_unique String.le).
  - apply Sorted_merge_sort, _.
  - apply Sorted_merge_sort, _.
  - by rewrite !merge_sort_Permutation.
Qed.

(** ** Partition names *)

Lemma collection_name_eq (t1 t2 : string) :
  VectorStore._get_collection_name t1 = VectorStore._get_collection_name t2 <->
  Py.take 16 (Py.remove_char "-" t1) = Py.take 16 (Py.remove_char "-" t2).
Proof.
  unfold VectorStore._get_collection_name. split.
  - intros H. apply (inj (String.append "tenant_")) in H.
    by apply append_inj_r in H.
  - by intros ->.
Qed.

(** C2, as stated, fails: two tenant UUIDs that agree on their first 16
    hexadecimal digits are distinct tenants with one partition name. *)
Lemma collection_name_collision :
  "123e4567-e89b-12d3-a456-426614174000" ≠ "123e4567-e89b-12d3-b111-9a6f5c3d2e10" ∧
  VectorStore._get_collection_name "123e4567-e89b-12d3-a456-426614174000" =
  VectorStore._get_collection_name "123e4567-e89b-12d3-b111-9a6f5c3d2e10".
Proof.
  split.
  - apply String.eqb_neq. vm_compute. reflexivity.
  - vm_compute. reflexivity.
Qed.

(** C2 (amended): the partition name is a function of the tenant identifier
    alone, and two tenants have the same partition name exactly when their
    identifiers, hyphens removed, agree on the first 16 characters; on
    identifiers with distinct such prefixes the mapping is injective. *)
Theorem collection_name_determined_by_prefix (t1 t2 : string) :
  (VectorStore._get_collection_name t1 = VectorStore._get_collection_name t2 <->
   Py.take 16 (Py.remove_char "-" t1) = Py.take 16 (Py.remove_char "-" t2)) ∧
  VectorStore._get_collection_name t1 =
    "tenant_" +:+ Py.take 16 (Py.remove_char "-" t1) +:+ "_documents".
Proof. split; [apply collection_name_eq | reflexivity]. Qed.

(** ** Cache keys *)

(** C6: the cache key does not depend on the order of the fragment
    identifiers: lists that are permutations of each other give one key. *)
Theorem cache_key_permutation_invariant (t q : string) (ids1 ids2 : list string) :
  ids1 ≡ₚ ids2 ->
  CacheService._generate_cache_key t q ids1 = CacheService._generate_cache_key t q ids2.
Proof.
  intros Hp. unfold CacheService._generate_cache_key, CacheService.cache_key_content.
  by rewrite (sorted_perm _ _ Hp).
Qed.

Lemma cache_key_permutation_invariant_witness :
  ["a"; "b"] ≡ₚ ["b"; "a"] ∧
  CacheService._generate_cache_key "t" "q" ["a"; "b"] =
  CacheService._generate_cache_key "t" "q" ["b"; "a"].
Proof.
  split.
  - apply perm_swap.
  - apply (cache_key_permutation_invariant "t" "q" ["a"; "b"] ["b"; "a"]).
    apply perm_swap.
Defined.

Lemma cache_key_swap (t q a b : string) :
  CacheService._generate_cache_key t q [a; b] = CacheService._generate_cache_key t q [b; a].
Proof.
  unfold CacheService._generate_cache_key, CacheService.cache_key_content.
  by rewrite (sorted_perm [a; b] [b; a]) by apply perm_swap.
Qed.

(** C10, as stated, fails at its example: with an empty identifier list the
    hashed text ends in the delimiter, so the texts for ("q:a", []) and
    ("q", ["a"]) differ, and so do the keys. *)
Lemma cache_key_example_distinct :
  CacheService.cache_key_content "t" "q:a" [] = "t:q:a:" ∧
  CacheService.cache_key_content "t" "q" ["a"] = "t:q:a" ∧
  CacheService.cache_key_content "t" "q:a" [] ≠ CacheService.cache_key_content "t" "q" ["a"] ∧
  CacheService._generate_cache_key "t" "q:a" [] ≠ CacheService._generate_cache_key "t" "q" ["a"].
Proof.
  split; [vm_compute; reflexivity|]. split; [vm_compute; reflexivity|]. split.
  - apply String.eqb_neq. vm_compute. reflexivity.
  - apply String.eqb_neq. vm_compute. reflexivity.
Qed.

(** ** Retrieval: the isolation check *)

Lemma add_events_nil (w : world) : add_events [] w = w.
Proof. destruct w. unfold add_events. simpl. by rewrite app_nil_r. Qed.

Lemma add_events_app (evs1 evs2 : list event) (w : world) :
  add_events evs2 (add_events evs1 w) = add_events (evs1 ++ evs2) w.
Proof. unfold add_events. simpl. by rewrite app_assoc. Qed.

Section Retrieval.

Variable env : services.

Lemma validate_ok tenant results acc :
  Forall (own_record tenant) results ->
  VectorStore.validate tenant results acc =
    Ok (acc ++ map VectorStore.to_fragment results).
Proof.
  intros H. revert acc. induction H as [|r rs Hr _ IH]; intros acc; simpl.
  - by rewrite app_nil_r.
  - rewrite bool_decide_eq_false_2 by (intros Hne; by apply Hne).
    rewrite IH. by rewrite <- app_assoc.
Qed.

Lemma validate_foreign tenant results acc :
  Exists (fun r => ¬ own_record tenant r) results ->
  VectorStore.validate tenant results acc =
    Raise (SecurityException "Tenant isolation violation detected").
Proof.
  intros H. revert acc. induction H as [r rs Hr | r rs _ IH]; intros acc; simpl.
  - by rewrite bool_decide_eq_true_2.
  - case_bool_decide; [done | apply IH].
Qed.

Lemma validate_inv tenant results acc chunks :
  VectorStore.validate tenant results acc = Ok chunks ->
  Forall (own_record tenant) results ∧
  chunks = acc ++ map VectorStore.to_fragment results.
Proof.
  revert acc. induction results as [|r rs IH]; intros acc; simpl.
  - intros [= <-]. by rewrite app_nil_r.
  - case_bool_decide as Hr; [done|].
    intros H. apply IH in H as [Hrs ->]. split.
    + constructor; [|done]. unfold own_record.
      destruct (decide (tenant_id (payload r) = Some tenant)); [done|].
      by destruct Hr.
    + by rewrite <- app_assoc.
Qed.

(** With the partition present, [search] asks the index once and returns
    what the loop over the records yields. *)
Lemma search_existing tenant qv top_k thr w :
  VectorStore._get_collection_name tenant ∈ qdrant_collections env ->
  VectorStore.search env tenant qv top_k thr w =
    (VectorStore.validate tenant
       (qdrant_search env (VectorStore._get_collection_name tenant) qv top_k
          thr tenant) [],
     add_events
       [QdrantGetCollections;
        QdrantSearch (VectorStore._get_collection_name tenant) qv top_k thr
          tenant] w).
Proof.
  intros Hin. unfold VectorStore.search, bind, VectorStore.get_collections,
    VectorStore.client_search, emit, ret, raise, add_events. simpl.
  rewrite bool_decide_eq_false_2 by (intros Hn; by apply Hn).
  simpl. rewrite <- app_assoc. simpl.
  by destruct (VectorStore.validate _ _ _).
Qed.

Lemma search_missing tenant qv top_k thr w :
  VectorStore._get_collection_name tenant ∉ qdrant_collections env ->
  VectorStore.search env tenant qv top_k thr w =
    (Ok [], add_events [QdrantGetCollections] w).
Proof.
  intros Hin. unfold VectorStore.search, bind, VectorStore.get_collections,
    emit, ret, add_events. simpl.
  by rewrite bool_decide_eq_true_2.
Qed.

(** C1: when the index returns records for an existing partition, one
    record of another tenant makes [search] raise the security exception
    (nothing is filtered out); a returned fragment list always is the whole
    list of records, all of them the requesting tenant's; and when all
    records are the tenant's own, all are returned and nothing is raised. *)
Theorem search_tenant_isolation tenant qv top_k thr w :
  VectorStore._get_collection_name tenant ∈ qdrant_collections env ->
  let results :=
    qdrant_search env (VectorStore._get_collection_name tenant) qv top_k thr
      tenant in
  let outcome := fst (VectorStore.search env tenant qv top_k thr w) in
  ((∃ r, r ∈ results ∧ tenant_id (payload r) ≠ Some tenant) ->
   outcome = Raise (SecurityException "Tenant isolation violation detected")) ∧
  (∀ chunks, outcome = Ok chunks ->
     chunks = map VectorStore.to_fragment results ∧
     ∀ r, r ∈ results -> tenant_id (payload r) = Some tenant) ∧
  ((∀ r, r ∈ results -> tenant_id (payload r) = Some tenant) ->
   outcome = Ok (map VectorStore.to_fragment results)).
Proof.
  intros Hin results outcome. subst outcome.
  rewrite (search_existing _ _ _ _ _ Hin). simpl. fold results.
  split; [|split].
  - intros (r & Hr & Hne). apply validate_foreign.
    apply Exists_exists. by exists r.
  - intros chunks H. apply validate_inv in H as [Hall ->]. split; [done|].
    by apply Forall_forall.
  - intros Hall. apply (validate_ok tenant results []).
    by apply Forall_forall.
Qed.

(** C9: for a tenant whose partition does not exist, [search] returns the
    empty list, raises nothing, and the only call made to the index is the
    listing of the partitions: no similarity query is issued. *)
Theorem search_missing_partition tenant qv top_k thr w :
  VectorStore._get_collection_name tenant ∉ qdrant_collections env ->
  VectorStore.search env tenant qv top_k thr w =
    (Ok [],
     {| redis := redis w; clock := clock w;
        trace := trace w ++ [QdrantGetCollections] |}).
Proof. intros Hin. by rewrite search_missing. Qed.

End Retrieval.

Lemma search_tenant_isolation_witness :
  VectorStore._get_collection_name "acme" ∈
    qdrant_collections
      (sample_services [sample_point (Some "acme") "d1"; sample_point (Some "evil") "d2"]) ∧
  fst (VectorStore.search
         (sample_services [sample_point (Some "acme") "d1"; sample_point (Some "evil") "d2"])
         "acme" [] 5 Float.f0_7 (empty_world 0)) =
    Raise (SecurityException "Tenant isolation violation detected").
Proof.
  assert (Hin : VectorStore._get_collection_name "acme" ∈
    qdrant_collections
      (sample_services [sample_point (Some "acme") "d1"; sample_point (Some "evil") "d2"])).
  { vm_compute. constructor. }
  split; [exact Hin|].
  apply (search_tenant_isolation _ "acme" [] 5 Float.f0_7 (empty_world 0) Hin).
  exists (sample_point (Some "evil") "d2"). split.
  - simpl. apply list_elem_of_further, list_elem_of_here.
  - simpl. intros [= H].
Defined.

Lemma search_missing_partition_witness :
  (VectorStore._get_collection_name "globex" ∉ qdrant_collections (sample_services [])) ∧
  (VectorStore.search (sample_services []) "globex" [] 5 Float.f0_7 (empty_world 0) =
     (Ok [], {| redis := ∅; clock := 0; trace := [QdrantGetCollections] |})).
Proof.
  assert (Hout : VectorStore._get_collection_name "globex" ∉
                 qdrant_collections (sample_services [])).
  { simpl. intros H. apply list_elem_of_singleton in H. revert H.
    apply String.eqb_neq. vm_compute. reflexivity. }
  split; [exact Hout|].
  apply (search_missing_partition _ "globex" [] 5 Float.f0_7 (empty_world 0) Hout).
Defined.

(** ** The chunker *)

Section Chunker.

Variable settings : Settings.
Variable encode : string -> list Z.
Variable decode : list Z -> string.

Lemma chunk_at_window_chunk tokens chunks i :
  LLMService.chunk_at settings decode tokens chunks i =
  chunks ++ [window_chunk settings decode tokens (length chunks) i].
Proof.
  unfold LLMService.chunk_at, window_chunk. do 2 f_equal.
  destruct (_ <? _); simpl; [|done]. by destruct (Float.int_gtb _ _).
Qed.

Lemma fold_chunk_at tokens starts chunks :
  fold_left (LLMService.chunk_at settings decode tokens) starts chunks =
  chunks ++
    imap (fun j i => window_chunk settings decode tokens (length chunks + j) i)
      starts.
Proof.
  revert chunks. induction starts as [|i starts IH]; intros chunks; simpl.
  - by rewrite app_nil_r.
  - rewrite IH, chunk_at_window_chunk, <- app_assoc. simpl.
    rewrite Nat.add_0_r. do 2 f_equal.
    apply imap_ext. intros j x _. simpl.
    rewrite length_app. simpl. f_equal. lia.
Qed.

Lemma chunk_text_windows text :
  chunk_size settings - chunk_overlap settings ≠ 0 ->
  LLMService.chunk_text settings encode decode text =
  Ok (imap (window_chunk settings decode (encode text))
        (Py.range0 (LLMService.len (encode text))
           (chunk_size settings - chunk_overlap settings))).
Proof.
  intros Hstep. unfold LLMService.chunk_text.
  rewrite (proj2 (Z.eqb_neq _ _) Hstep). by rewrite fold_chunk_at.
Qed.

Lemma range0_lookup stop step (k : nat) i :
  Py.range0 stop step !! k = Some i -> i = Z.of_nat k * step.
Proof.
  unfold Py.range0. rewrite list_lookup_fmap.
  intros H. apply fmap_Some in H as (j & Hj & ->).
  apply lookup_seq in Hj as [-> _]. done.
Qed.

Lemma range0_empty step : Py.range0 0 step = [].
Proof. unfold Py.range0. by destruct (0 <? step). Qed.

Lemma range0_single stop step :
  0 < stop <= step -> Py.range0 stop step = [0].
Proof.
  intros [H1 H2]. unfold Py.range0.
  rewrite (proj2 (Z.ltb_lt 0 step)) by lia.
  rewrite (proj2 (Z.ltb_lt 0 stop)) by lia.
  rewrite Z.div_small by lia. reflexivity.
Qed.

Lemma range0_length stop step :
  0 < step -> 0 < stop ->
  Z.of_nat (length (Py.range0 stop step)) = (stop - 1) / step + 1.
Proof.
  intros H1 H2. unfold Py.range0.
  rewrite (proj2 (Z.ltb_lt 0 step)) by lia.
  rewrite (proj2 (Z.ltb_lt 0 stop)) by lia.
  rewrite length_map, length_seq.
  assert (0 <= (stop - 1) / step) by (apply Z.div_pos; lia). lia.
Qed.

End Chunker.

(** With the default [chunk_size] of 500 the trimming threshold
    [chunk_size * 0.7] is the double 350.0, and an index passes it when it is
    above 350. *)
Lemma default_trim_threshold (last_period : Z) :
  Float.int_gtb last_period (LLMService.trim_threshold default_settings) =
  (350 <? last_period).
Proof.
  assert (LLMService.trim_threshold default_settings =
          S754_finite false 6157265115545600 (-44)) as ->
    by (vm_compute; reflexivity).
  unfold Float.int_gtb.
  change (0 <=? -44) with false. cbv iota.
  change (2 ^ (- -44)) with 17592186044416.
  destruct (Z.ltb_spec 350 last_period), (Z.ltb_spec (Z.pos 6157265115545600)
    (last_period * 17592186044416)); try reflexivity; lia.
Qed.

(** C7, as stated, fails: a text of 480 tokens is not longer than the default
    [chunk_size] of 500, and the chunker returns two chunks for it, the
    windows at tokens 0 and 450. *)
Lemma chunk_text_short_text_two_chunks :
  CharTokenizer.replicate 480 "a" ≠ "" ∧
  LLMService.count_tokens CharTokenizer.encode (CharTokenizer.replicate 480 "a") = 480 ∧
  480 <= chunk_size default_settings ∧
  ∃ c0 c1,
    LLMService.chunk_text default_settings CharTokenizer.encode CharTokenizer.decode
      (CharTokenizer.replicate 480 "a") = Ok [c0; c1] ∧
    chunk_token_count c0 = 480 ∧ chunk_token_count c1 = 30.
Proof.
  split; [discriminate|]. split; [vm_compute; reflexivity|].
  split; [vm_compute; discriminate|].
  eexists _, _. split; [vm_compute; reflexivity|]. split; reflexivity.
Qed.

(** C7 (amended): with [chunk_overlap < chunk_size], a text with no token
    gives the empty chunk list and no error, a text of at least one and at
    most [chunk_size - chunk_overlap] tokens gives exactly one chunk, and in
    general a text of [n > 0] tokens gives one chunk per window start
    [0, step, 2*step, ...] below [n], for [step = chunk_size - chunk_overlap]. *)
Theorem chunk_text_empty_and_short (settings : Settings)
    (encode : string -> list Z) (decode : list Z -> string) (text : string) :
  chunk_overlap settings < chunk_size settings ->
  let n := LLMService.len (encode text) in
  let step := chunk_size settings - chunk_overlap settings in
  (n = 0 -> LLMService.chunk_text settings encode decode text = Ok []) ∧
  (0 < n <= step ->
   ∃ c, LLMService.chunk_text settings encode decode text = Ok [c] ∧ index c = 0) ∧
  (0 < n ->
   ∃ chunks, LLMService.chunk_text settings encode decode text = Ok chunks ∧
             Z.of_nat (length chunks) = (n - 1) / step + 1).
Proof.
  intros Hlt n step.
  rewrite (chunk_text_windows settings encode decode text) by lia.
  fold n step. split; [|split].
  - intros ->. by rewrite range0_empty.
  - intros Hn. rewrite range0_single by done. simpl. eauto.
  - intros Hn. eexists. split; [done|].
    rewrite length_imap. apply range0_length; lia.
Qed.

Lemma chunk_text_empty_and_short_witness :
  chunk_overlap default_settings < chunk_size default_settings ∧
  LLMService.chunk_text default_settings CharTokenizer.encode CharTokenizer.decode ""
    = Ok [].
Proof.
  assert (H : chunk_overlap default_settings < chunk_size default_settings)
    by (simpl; lia).
  split; [exact H|].
  apply (chunk_text_empty_and_short default_settings CharTokenizer.encode
           CharTokenizer.decode "" H).
  reflexivity.
Defined.


Lemma chunk_text_lookup (settings : Settings) (encode : string -> list Z)
    (decode : list Z -> string) (doc : string) (k : nat) (c : Chunk) :
  imap (window_chunk settings decode (encode doc))
    (Py.range0 (LLMService.len (encode doc))
       (chunk_size settings - chunk_overlap settings)) !! k = Some c ->
  c = window_chunk settings decode (encode doc) k
        (Z.of_nat k * (chunk_size settings - chunk_overlap settings)).
Proof.
  rewrite list_lookup_imap. intros H.
  apply fmap_Some in H as (i & Hi & ->).
  by rewrite (range0_lookup _ _ _ _ Hi).
Qed.



(** ** The cache *)

Section Cache.

Variable settings : Settings.

Lemma any_in_true kws s :
  Py.any_in kws s = true <-> ∃ kw, kw ∈ kws ∧ Py.contains kw s = true.
Proof.
  unfold Py.any_in. rewrite existsb_exists.
  split; intros (kw & H1 & H2); exists kw; split; try done;
    by apply list_elem_of_In.
Qed.

Lemma get_confidence_null (response : Response) :
  CacheService.get_confidence response = None <-> confidence response = Null.
Proof. unfold CacheService.get_confidence. by destruct (confidence response). Qed.

(** A [null] confidence makes the first comparison raise, whatever the rest
    of the response and the question are; nothing is sent to the store. *)
Lemma cache_response_null tenant question ids response ttl w :
  confidence response = Null ->
  CacheService.cache_response settings tenant question ids response ttl w =
    (Raise (TypeError
              "'<' not supported between instances of 'NoneType' and 'float'"),
     w).
Proof.
  intros H. unfold CacheService.cache_response.
  by rewrite (proj2 (get_confidence_null response) H).
Qed.

Lemma cache_response_blocked tenant question ids response ttl w :
  confidence response ≠ Null ->
  not_admitted question response ->
  CacheService.cache_response settings tenant question ids response ttl w =
    (Ok tt, w).
Proof.
  intros Hnull Hno. unfold CacheService.cache_response.
  unfold not_admitted in Hno.
  destruct (CacheService.get_confidence response) as [c|] eqn:Hc;
    [|by apply get_confidence_null in Hc].
  destruct Hno as [H | [H | H]].
  - by rewrite H.
  - rewrite H. by destruct (Float.ltb _ _).
  - apply any_in_true in H.
    change (CacheService.time_keywords ++ CacheService.personal_keywords)
      with (time_markers ++ personal_markers).
    rewrite H. destruct (Float.ltb _ _); [done|].
    by destruct (CacheService.get_insufficient_context _).
Qed.

Lemma cache_response_stored tenant question ids response ttl w :
  ¬ not_admitted question response ->
  0 < CacheService.ttl_or_default settings ttl ->
  CacheService.cache_response settings tenant question ids response ttl w =
    (Ok tt,
     {| redis :=
          <[CacheService._generate_cache_key tenant question ids :=
              {| value := RDoc response;
                 expires_at :=
                   Some (clock w + CacheService.ttl_or_default settings ttl) |}]>
            (redis w);
        clock := clock w;
        trace := trace w ++
          [RedisSetex (CacheService._generate_cache_key tenant question ids)
             (CacheService.ttl_or_default settings ttl) (RDoc response)] |}).
Proof.
  intros Hadm Httl. unfold CacheService.cache_response.
  unfold not_admitted in Hadm.
  destruct (CacheService.get_confidence response) as [c|]; [|destruct Hadm; by left].
  destruct (Float.ltb _ _) eqn:Hc; [destruct Hadm; by left|].
  destruct (CacheService.get_insufficient_context _) eqn:Hi;
    [destruct Hadm; right; by left|].
  destruct (Py.any_in _ _) eqn:Hk.
  { destruct Hadm. right; right. by apply any_in_true. }
  unfold Redis.setex, bind, emit, time_time, get_redis, put_redis, ret. simpl.
  by rewrite (proj2 (Z.leb_gt _ _) Httl).
Qed.

Lemma get_cached_response_run tenant question ids w :
  CacheService.get_cached_response tenant question ids w =
    (Ok (value <$> Redis.lookup (clock w) (redis w)
                     (CacheService._generate_cache_key tenant question ids)),
     add_events [RedisGet (CacheService._generate_cache_key tenant question ids)] w).
Proof.
  unfold CacheService.get_cached_response, Redis.get, bind, emit, time_time,
    get_redis, ret, add_events. simpl.
  by destruct (Redis.lookup _ _ _).
Qed.

Lemma lookup_stored now (m : gmap string entry) key v expiry :
  Redis.lookup now (<[key := {| value := v; expires_at := Some expiry |}]> m) key =
    if now <? expiry then Some {| value := v; expires_at := Some expiry |} else None.
Proof. unfold Redis.lookup. by rewrite lookup_insert_eq. Qed.

End Cache.

(** C4 fails on the code. A response flagged as lacking context whose
    [confidence] is [null] meets the claim's condition for a silent skip, and
    [cache_response] raises [TypeError] for it, at the comparison of the
    confidence with 0.7 that comes first; the store is left as it was. The
    same response without the [confidence] key is skipped silently, the
    default 0 of [response.get('confidence', 0)] standing for it. *)
Theorem cache_response_null_confidence_raises :
  let response confidence :=
    {| answer := None; sources := []; confidence := confidence;
       insufficient_context := Some true |} in
  let put confidence :=
    CacheService.cache_response default_settings "acme"
      "How many vacation days are granted?" ["d1"] (response confidence) None
      (empty_world 100) in
  CacheService.get_insufficient_context (response Null) = true ∧
  put Null =
    (Raise (TypeError
              "'<' not supported between instances of 'NoneType' and 'float'"),
     empty_world 100) ∧
  put Absent = (Ok tt, empty_world 100).
Proof.
  intros response put. split; [reflexivity|]. split.
  - unfold put. by rewrite cache_response_null.
  - unfold put. apply cache_response_blocked; [done|]. right. by left.
Qed.

(** For a response whose confidence is a number or absent, [cache_response]
    leaves the world unchanged (no command is sent to the store, nothing is
    raised) when the confidence is below 0.7 (an absent one counts as 0), or
    the answer is flagged as lacking context, or the lowercased question
    contains a time or personal marker; so a response with confidence 0.69
    is not stored, nor is any response to "What is my vacation policy?" with
    confidence 0.9. Otherwise the response is stored under the derived key
    with the given TTL, or the configured default, and [get_cached_response]
    with the same inputs returns it as long as the TTL has not elapsed (and
    nothing afterwards). *)
Theorem cache_admission (settings : Settings) (tenant question : string)
    (ids : list string) (response : Response) (ttl : option Z) (w : world) :
  (confidence response ≠ Null ->
   not_admitted question response ->
   CacheService.cache_response settings tenant question ids response ttl w =
     (Ok tt, w)) ∧
  (confidence response = Absent ∨ confidence response = Value f0_69 ->
   CacheService.cache_response settings tenant question ids response ttl w =
     (Ok tt, w)) ∧
  (confidence response = Value f0_9 ->
   CacheService.cache_response settings tenant "What is my vacation policy?"
     ids response ttl w = (Ok tt, w)) ∧
  (¬ not_admitted question response ->
   0 < CacheService.ttl_or_default settings ttl ->
   let key := CacheService._generate_cache_key tenant question ids in
   let expiry := clock w + CacheService.ttl_or_default settings ttl in
   ∃ w',
     CacheService.cache_response settings tenant question ids response ttl w =
       (Ok tt, w') ∧
     redis w' =
       <[key := {| value := RDoc response; expires_at := Some expiry |}]> (redis w) ∧
     ∀ w'', redis w'' = redis w' ->
       (clock w'' < expiry ->
        fst (CacheService.get_cached_response tenant question ids w'') =
          Ok (Some (RDoc response))) ∧
       (expiry <= clock w'' ->
        fst (CacheService.get_cached_response tenant question ids w'') = Ok None)).
Proof.
  split; [|split; [|split]].
  - apply cache_response_blocked.
  - intros Hc. apply cache_response_blocked; [destruct Hc; congruence|]. left.
    unfold CacheService.get_confidence.
    destruct Hc as [Hc | Hc]; rewrite Hc; vm_compute; reflexivity.
  - intros Hc. apply cache_response_blocked; [congruence|]. right; right.
    exists "my". split; [|vm_compute; reflexivity].
    unfold time_markers, personal_markers. simpl.
    do 5 apply list_elem_of_further. apply list_elem_of_here.
  - intros Hadm Httl key expiry. eexists. split.
    + by apply cache_response_stored.
    + split; [reflexivity|]. intros w'' Hw''.
      rewrite get_cached_response_run, Hw''. simpl. fold key expiry.
      rewrite lookup_stored. split; intros Ht.
      * by rewrite (proj2 (Z.ltb_lt _ _) Ht).
      * by rewrite (proj2 (Z.ltb_ge _ _) Ht).
Qed.

Lemma cache_admission_witness :
  let response := {| answer := Some "Twenty days."; sources := [];
                     confidence := Value f0_95;
                     insufficient_context := Some false |} in
  ¬ not_admitted "How many vacation days are granted?" response ∧
  0 < CacheService.ttl_or_default default_settings None ∧
  ∃ w',
    CacheService.cache_response default_settings "acme"
      "How many vacation days are granted?" ["d1"] response None (empty_world 100) =
      (Ok tt, w') ∧
    fst (CacheService.get_cached_response "acme"
           "How many vacation days are granted?" ["d1"] (set_clock 3699 w')) =
      Ok (Some (RDoc response)) ∧
    fst (CacheService.get_cached_response "acme"
           "How many vacation days are granted?" ["d1"] (set_clock 3700 w')) =
      Ok None.
Proof.
  intros response.
  assert (Hadm : ¬ not_admitted "How many vacation days are granted?" response).
  { intros [H | [H | H]].
    - vm_compute in H. discriminate.
    - vm_compute in H. discriminate.
    - apply any_in_true in H. vm_compute in H. discriminate. }
  assert (Httl : 0 < CacheService.ttl_or_default default_settings None)
    by (simpl; lia).
  split; [exact Hadm|]. split; [exact Httl|].
  destruct (cache_admission default_settings "acme"
              "How many vacation days are granted?" ["d1"] response None
              (empty_world 100)) as (_ & _ & _ & Hstore).
  destruct (Hstore Hadm Httl) as (w' & Hrun & Hredis & Hget).
  exists w'. split; [exact Hrun|]. split.
  - apply (Hget (set_clock 3699 w')); [reflexivity | simpl; lia].
  - apply (Hget (set_clock 3700 w')); [reflexivity | simpl; lia].
Defined.

(** C10 (amended): the key derivation is not injective in (question,
    fragment ids) for a fixed tenant. For tenant "t", the pairs ("q:a", ["b"])
    and ("q", ["a", "b"]) are distinct and are hashed from the same text
    "t:q:a:b", because the delimiter ':' also occurs inside the joined fields;
    their keys are equal, and an answer cached for the first pair is returned
    by a lookup for the second. *)
Theorem cache_key_not_injective :
  ("q:a", ["b"]) ≠ ("q", ["a"; "b"]) ∧
  CacheService.cache_key_content "t" "q:a" ["b"] = "t:q:a:b" ∧
  CacheService.cache_key_content "t" "q" ["a"; "b"] = "t:q:a:b" ∧
  CacheService._generate_cache_key "t" "q:a" ["b"] =
    CacheService._generate_cache_key "t" "q" ["a"; "b"] ∧
  ∀ settings response ttl w,
    ¬ not_admitted "q:a" response ->
    0 < CacheService.ttl_or_default settings ttl ->
    ∃ w',
      CacheService.cache_response settings "t" "q:a" ["b"] response ttl w =
        (Ok tt, w') ∧
      fst (CacheService.get_cached_response "t" "q" ["a"; "b"] w') =
        Ok (Some (RDoc response)).
Proof.
  assert (Hc1 : CacheService.cache_key_content "t" "q:a" ["b"] = "t:q:a:b")
    by (vm_compute; reflexivity).
  assert (Hc2 : CacheService.cache_key_content "t" "q" ["a"; "b"] = "t:q:a:b")
    by (vm_compute; reflexivity).
  assert (Hkey : CacheService._generate_cache_key "t" "q:a" ["b"] =
                 CacheService._generate_cache_key "t" "q" ["a"; "b"])
    by (unfold CacheService._generate_cache_key; by rewrite Hc1, Hc2).
  split; [intros [= H _]; revert H; apply String.eqb_neq; vm_compute; reflexivity|].
  split; [exact Hc1|]. split; [exact Hc2|]. split; [exact Hkey|].
  intros settings response ttl w Hadm Httl. eexists. split.
  - by apply cache_response_stored.
  - rewrite get_cached_response_run, <- Hkey. simpl.
    rewrite lookup_stored. by rewrite (proj2 (Z.ltb_lt _ _)) by lia.
Qed.

Lemma cache_key_not_injective_witness :
  let response := {| answer := Some "Yes."; sources := [];
                     confidence := Value f0_95;
                     insufficient_context := Some false |} in
  ¬ not_admitted "q:a" response ∧
  0 < CacheService.ttl_or_default default_settings None ∧
  ∃ w',
    CacheService.cache_response default_settings "t" "q:a" ["b"] response None
      (empty_world 0) = (Ok tt, w') ∧
    fst (CacheService.get_cached_response "t" "q" ["a"; "b"] w') =
      Ok (Some (RDoc response)).
Proof.
  intros response.
  assert (Hadm : ¬ not_admitted "q:a" response).
  { intros [H | [H | H]].
    - vm_compute in H. discriminate.
    - vm_compute in H. discriminate.
    - apply any_in_true in H. vm_compute in H. discriminate. }
  assert (Httl : 0 < CacheService.ttl_or_default default_settings None)
    by (simpl; lia).
  split; [exact Hadm|]. split; [exact Httl|].
  destruct cache_key_not_injective as (_ & _ & _ & _ & Hget).
  exact (Hget default_settings response None (empty_world 0) Hadm Httl).
Defined.

(** ** The rate limiter *)

Section RateLimiter.

Variable settings : Settings.
Variables tenant operation : string.

Local Abbreviation key := (CacheService.rate_limit_key tenant operation).

Lemma rate_limit_key_inj (m1 m2 : Z) : key m1 = key m2 -> m1 = m2.
Proof.
  unfold key, CacheService.rate_limit_key. intros H.
  do 5 apply (inj (String.append _)) in H.
  by apply (inj pretty) in H.
Qed.

(** The first call of a window: the counter does not exist. *)
Lemma check_rate_limit_first w :
  Redis.lookup (clock w) (redis w) (key (Z.quot (clock w) 60)) = None ->
  CacheService.check_rate_limit settings tenant operation w =
    (Ok (negb (queries_per_minute settings <? 1)),
     {| redis :=
          <[key (Z.quot (clock w) 60) :=
              {| value := RInt 1; expires_at := Some (clock w + 60) |}]> (redis w);
        clock := clock w;
        trace := trace w ++ [RedisIncr (key (Z.quot (clock w) 60));
                             RedisExpire (key (Z.quot (clock w) 60)) 60] |}).
Proof.
  intros Hl. unfold CacheService.check_rate_limit, Redis.incr, Redis.expire,
    bind, emit, time_time, get_redis, put_redis, ret. simpl.
  fold (key (Z.quot (clock w) 60)). rewrite Hl. simpl.
  unfold Redis.lookup at 1. rewrite lookup_insert_eq. simpl.
  rewrite insert_insert_eq, <- app_assoc. simpl.
  by destruct (queries_per_minute settings <? 1).
Qed.

(** A later call of the window: the counter exists and is at least 1. *)
Lemma check_rate_limit_later w n ex :
  Redis.lookup (clock w) (redis w) (key (Z.quot (clock w) 60)) =
    Some {| value := RInt n; expires_at := ex |} ->
  1 <= n ->
  CacheService.check_rate_limit settings tenant operation w =
    (Ok (negb (queries_per_minute settings <? n + 1)),
     {| redis :=
          <[key (Z.quot (clock w) 60) :=
              {| value := RInt (n + 1); expires_at := ex |}]> (redis w);
        clock := clock w;
        trace := trace w ++ [RedisIncr (key (Z.quot (clock w) 60))] |}).
Proof.
  intros Hl Hn. unfold CacheService.check_rate_limit, Redis.incr,
    bind, emit, time_time, get_redis, put_redis, ret. simpl.
  fold (key (Z.quot (clock w) 60)). rewrite Hl. simpl.
  rewrite (proj2 (Z.eqb_neq (n + 1) 1)) by lia. simpl.
  by destruct (queries_per_minute settings <? n + 1).
Qed.

Lemma same_window (t1 t : Z) :
  0 <= t1 -> 0 <= t -> Z.quot t 60 = Z.quot t1 60 -> t < t1 + 60.
Proof.
  intros H1 H2. rewrite !Z.quot_div_nonneg by lia. intros H.
  pose proof (Z.mul_succ_div_gt t 60 ltac:(lia)).
  pose proof (Z.mul_div_le t1 60 ltac:(lia)). lia.
Qed.

(** Calls that find the counter at [n >= 1], alive until [ex]. *)
Lemma run_calls_later minute times : ∀ w n ex,
  Forall (fun t => Z.quot t 60 = minute ∧ t < ex) times ->
  1 <= n ->
  redis w !! key minute = Some {| value := RInt n; expires_at := Some ex |} ->
  ∃ w',
    run_calls settings tenant operation times w =
      (imap (fun j _ => Ok (negb (queries_per_minute settings <? n + 1 + Z.of_nat j)))
         times, w') ∧
    redis w' = <[key minute := {| value := RInt (n + Z.of_nat (length times));
                                  expires_at := Some ex |}]> (redis w) ∧
    trace w' = trace w ++ map (fun _ => RedisIncr (key minute)) times.
Proof.
  induction times as [|t times IH]; intros w n ex Hall Hn Hw; simpl.
  - eexists. split; [reflexivity|].
    rewrite Z.add_0_r, app_nil_r. split; [|done]. by rewrite insert_id.
  - apply Forall_cons in Hall as [[Hmin Hlive] Hall].
    rewrite (check_rate_limit_later (set_clock t w) n (Some ex)); simpl.
    2:{ rewrite Hmin. unfold Redis.lookup. rewrite Hw. unfold Redis.live. simpl.
        by rewrite (proj2 (Z.ltb_lt _ _) Hlive). }
    2: done.
    rewrite Hmin.
    match goal with
    | |- context [run_calls _ _ _ times ?w1] =>
        destruct (IH w1 (n + 1) ex Hall) as (w' & Hrun & Hredis & Htrace);
          [lia | simpl; apply lookup_insert_eq | rewrite Hrun]
    end.
    eexists. split; [|split].
    + rewrite Z.add_0_r. do 2 f_equal. apply imap_ext. intros j x _. simpl.
      do 3 f_equal. lia.
    + rewrite Hredis. simpl. rewrite insert_insert_eq. do 3 f_equal. lia.
    + rewrite Htrace. simpl. by rewrite <- app_assoc.
Qed.

Lemma negb_ltb_decide (x y : Z) : negb (x <? y) = bool_decide (y <= x).
Proof.
  destruct (Z.ltb_spec x y).
  - by rewrite bool_decide_eq_false_2 by lia.
  - by rewrite bool_decide_eq_true_2 by lia.
Qed.

(** C5: in one fixed window (all clock readings [t] have the same
    [int(t / 60)]) that starts without a counter, the [i]-th call (counting
    from 1) is allowed exactly when [i] is at most the configured limit: the
    first [L] calls return true, the [L+1]-th and all later ones false. A
    call in the next window is allowed again (for a limit of at least 1).
    The expiry is set, to 60 seconds, right after the first increment of the
    window and by no later call, and the counter keeps that expiry. *)
Theorem rate_limit_fixed_window (minute : Z) (times : list Z) (t_next : Z)
    (w0 : world) :
  Forall (fun t => 0 <= t ∧ Z.quot t 60 = minute) times ->
  Z.quot t_next 60 = minute + 1 ->
  redis w0 !! key minute = None ->
  redis w0 !! key (minute + 1) = None ->
  ∃ results w,
    run_calls settings tenant operation times w0 = (results, w) ∧
    length results = length times ∧
    (∀ (i : nat) r, results !! i = Some r ->
       r = Ok (bool_decide (Z.of_nat i + 1 <= queries_per_minute settings))) ∧
    (1 <= queries_per_minute settings ->
     fst (CacheService.check_rate_limit settings tenant operation
            (set_clock t_next w)) = Ok true) ∧
    trace w = trace w0 ++
      match times with
      | [] => []
      | _ :: later =>
          RedisIncr (key minute) :: RedisExpire (key minute) 60 ::
          map (fun _ => RedisIncr (key minute)) later
      end ∧
    (∀ t1 later, times = t1 :: later ->
       redis w !! key minute =
         Some {| value := RInt (Z.of_nat (length times));
                 expires_at := Some (t1 + 60) |}).
Proof.
  intros Hall Hnext Hfresh Hfresh'.
  assert (Hne : key minute ≠ key (minute + 1)).
  { intros H. apply rate_limit_key_inj in H. lia. }
  destruct times as [|t1 later]; simpl.
  - exists [], w0. split; [done|]. split; [done|]. split; [done|].
    split; [|split; [by rewrite app_nil_r | done]].
    intros HL. rewrite check_rate_limit_first; simpl.
    + f_equal. rewrite negb_ltb_decide. by apply bool_decide_eq_true_2.
    + rewrite Hnext. unfold Redis.lookup. by rewrite Hfresh'.
  - apply Forall_cons in Hall as [[Ht1 Hmin1] Hall].
    rewrite (check_rate_limit_first (set_clock t1 w0)); simpl.
    2:{ rewrite Hmin1. unfold Redis.lookup. by rewrite Hfresh. }
    rewrite Hmin1.
    match goal with
    | |- context [run_calls _ _ _ later ?w1] =>
        destruct (run_calls_later minute later w1 1 (t1 + 60))
          as (w & Hrun & Hredis & Htrace);
          [ | lia | simpl; apply lookup_insert_eq | rewrite Hrun]
    end.
    { eapply Forall_impl; [exact Hall|]. intros t [Ht Hmin]. split; [done|].
      apply same_window; [done..|]. by rewrite Hmin, Hmin1. }
    simpl in Hredis, Htrace. rewrite insert_insert_eq in Hredis.
    eexists _, w. split; [reflexivity|].
    split; [simpl; by rewrite length_imap|]. split; [|split; [|split]].
    + intros [|i] r; simpl.
      * intros [= <-]. by rewrite negb_ltb_decide.
      * rewrite list_lookup_imap. intros Hr.
        apply fmap_Some in Hr as (x & _ & ->).
        rewrite negb_ltb_decide. f_equal. apply bool_decide_ext. lia.
    + intros HL. rewrite check_rate_limit_first; simpl.
      * f_equal. rewrite negb_ltb_decide. by apply bool_decide_eq_true_2.
      * rewrite Hnext. unfold Redis.lookup.
        by rewrite Hredis, lookup_insert_ne, Hfresh'.
    + rewrite Htrace, <- app_assoc. reflexivity.
    + intros t1' later' [= <- <-]. rewrite Hredis, lookup_insert_eq.
      do 3 f_equal. lia.
Qed.

End RateLimiter.

Lemma rate_limit_fixed_window_witness :
  Forall (fun t => 0 <= t ∧ Z.quot t 60 = 1)
    [60; 61; 62; 63; 64; 65; 66; 67; 68; 69; 119] ∧
  Z.quot 120 60 = 1 + 1 ∧
  redis (empty_world 0) !! CacheService.rate_limit_key "acme" "query" 1 = None ∧
  redis (empty_world 0) !! CacheService.rate_limit_key "acme" "query" (1 + 1) = None ∧
  ∃ results w,
    run_calls default_settings "acme" "query"
      [60; 61; 62; 63; 64; 65; 66; 67; 68; 69; 119] (empty_world 0) = (results, w) ∧
    length results = 11%nat ∧
    (∀ r, results !! 9%nat = Some r -> r = Ok true) ∧
    (∀ r, results !! 10%nat = Some r -> r = Ok false) ∧
    fst (CacheService.check_rate_limit default_settings "acme" "query"
           (set_clock 120 w)) = Ok true.
Proof.
  assert (H1 : Forall (fun t => 0 <= t ∧ Z.quot t 60 = 1)
                 [60; 61; 62; 63; 64; 65; 66; 67; 68; 69; 119]).
  { repeat constructor; simpl; lia. }
  assert (H2 : Z.quot 120 60 = 1 + 1) by reflexivity.
  assert (H3 : redis (empty_world 0) !! CacheService.rate_limit_key "acme" "query" 1
               = None) by apply lookup_empty.
  assert (H4 : redis (empty_world 0) !!
                 CacheService.rate_limit_key "acme" "query" (1 + 1) = None)
    by apply lookup_empty.
  split; [exact H1|]. split; [exact H2|]. split; [exact H3|]. split; [exact H4|].
  destruct (rate_limit_fixed_window default_settings "acme" "query" 1
              [60; 61; 62; 63; 64; 65; 66; 67; 68; 69; 119] 120 (empty_world 0)
              H1 H2 H3 H4)
    as (results & w & Hrun & Hlen & Hres & Hnext & _).
  exists results, w. split; [exact Hrun|]. split; [exact Hlen|].
  split; [|split].
  - intros r Hr. by rewrite (Hres _ _ Hr).
  - intros r Hr. by rewrite (Hres _ _ Hr).
  - apply Hnext. simpl. lia.
Defined.

(** ** The query endpoint *)

Section Steps.

Variable K : string -> Prop.
Variable P : event -> Prop.

Lemma frame_refl w : frame K P w w.
Proof.
  split; [done|]. split; [done|]. exists []. by rewrite app_nil_r.
Qed.

Lemma frame_trans w1 w2 w3 :
  frame K P w1 w2 -> frame K P w2 w3 -> frame K P w1 w3.
Proof.
  intros (Hc1 & Hr1 & evs1 & Ht1 & Hp1) (Hc2 & Hr2 & evs2 & Ht2 & Hp2).
  split; [congruence|]. split.
  - intros k Hk. by rewrite Hr2, Hr1.
  - exists (evs1 ++ evs2). rewrite Ht2, Ht1, app_assoc. split; [done|].
    by apply Forall_app.
Qed.

Lemma frame_events w evs : Forall P evs -> frame K P w (add_events evs w).
Proof. intros H. split; [done|]. split; [done|]. by exists evs. Qed.

Lemma steps_ret {A} (a : A) : steps K P (ret a).
Proof. intros w. apply frame_refl. Qed.

Lemma steps_raise {A} (e : exn) : steps K P (@raise A e).
Proof. intros w. apply frame_refl. Qed.

Lemma steps_time : steps K P time_time.
Proof. intros w. apply frame_refl. Qed.

Lemma steps_emit e : P e -> steps K P (emit e).
Proof. intros H w. apply (frame_events w [e]). by constructor. Qed.

Lemma steps_bind {A B} (m : M A) (f : A -> M B) :
  steps K P m -> (∀ a, steps K P (f a)) -> steps K P (bind m f).
Proof.
  intros Hm Hf w. unfold bind. specialize (Hm w).
  destruct (m w) as [[a|e] w1]; simpl in *; [|done].
  eapply frame_trans; [exact Hm | apply Hf].
Qed.

Lemma steps_catch {A} (m : M A) (h : string -> M A) :
  steps K P m -> (∀ msg, steps K P (h msg)) -> steps K P (catch_security m h).
Proof.
  intros Hm Hh w. unfold catch_security. specialize (Hm w).
  destruct (m w) as [[a|[msg| | | | |]] w1]; simpl in *; try done.
  eapply frame_trans; [exact Hm | apply Hh].
Qed.

Hypothesis HP : ∀ e, is_chat e = false -> P e.

Lemma frame_write w key e evs :
  K key -> Forall P evs ->
  frame K P w {| redis := <[key := e]> (redis w); clock := clock w;
                 trace := trace w ++ evs |}.
Proof.
  intros Hk Hevs. split; [done|]. split; [|by exists evs].
  intros k Hnk. simpl. apply lookup_insert_ne. by intros ->.
Qed.

Lemma steps_redis_get key : steps K P (Redis.get key).
Proof.
  intros w. unfold Redis.get, bind, emit, time_time, get_redis, ret. simpl.
  apply (frame_events w [RedisGet key]). constructor; [by apply HP | done].
Qed.

Lemma steps_redis_incr key : K key -> steps K P (Redis.incr key).
Proof.
  intros Hk w. unfold Redis.incr, bind, emit, time_time, get_redis, put_redis,
    ret, raise. simpl.
  assert (Hev : Forall P [RedisIncr key]) by (constructor; [by apply HP | done]).
  destruct (Redis.lookup _ _ _) as [[[n|r] ex]|]; simpl.
  - by apply frame_write.
  - by apply (frame_events w [RedisIncr key]).
  - by apply frame_write.
Qed.

Lemma steps_redis_expire key seconds : K key -> steps K P (Redis.expire key seconds).
Proof.
  intros Hk w. unfold Redis.expire, bind, emit, time_time, get_redis, put_redis,
    ret. simpl.
  assert (Hev : Forall P [RedisExpire key seconds])
    by (constructor; [by apply HP | done]).
  destruct (Redis.lookup _ _ _) as [e|]; simpl.
  - destruct (seconds <=? 0); simpl.
    + split; [done|]. split; [|by exists [RedisExpire key seconds]].
      intros k Hnk. simpl. apply lookup_delete_ne. by intros ->.
    + by apply frame_write.
  - by apply (frame_events w [RedisExpire key seconds]).
Qed.

Lemma steps_redis_setex key ttl v : K key -> steps K P (Redis.setex key ttl v).
Proof.
  intros Hk w. unfold Redis.setex, bind, emit, time_time, get_redis, put_redis,
    ret, raise. simpl.
  assert (Hev : Forall P [RedisSetex key ttl v])
    by (constructor; [by apply HP | done]).
  destruct (ttl <=? 0); simpl.
  - by apply (frame_events w [RedisSetex key ttl v]).
  - by apply frame_write.
Qed.

Lemma steps_check_rate_limit settings tenant operation :
  (∀ k, rate_key k -> K k) ->
  steps K P (CacheService.check_rate_limit settings tenant operation).
Proof.
  intros HK. unfold CacheService.check_rate_limit.
  apply steps_bind; [apply steps_time | intros now].
  assert (K (CacheService.rate_limit_key tenant operation (Z.quot now 60))).
  { apply HK. unfold CacheService.rate_limit_key. by eexists. }
  apply steps_bind; [by apply steps_redis_incr | intros count].
  apply steps_bind.
  - destruct (count =? 1); [|apply steps_ret].
    apply steps_bind; [by apply steps_redis_expire | intros _; apply steps_ret].
  - intros _. destruct (_ <? _); apply steps_ret.
Qed.

Lemma steps_get_cached_response tenant question ids :
  steps K P (CacheService.get_cached_response tenant question ids).
Proof.
  unfold CacheService.get_cached_response.
  apply steps_bind; [apply steps_redis_get | intros [v|]; apply steps_ret].
Qed.

Lemma steps_cache_response settings tenant question ids response ttl :
  (∀ k, K k) ->
  steps K P (CacheService.cache_response settings tenant question ids response ttl).
Proof.
  intros HK. unfold CacheService.cache_response.
  destruct (CacheService.get_confidence response) as [c|]; [|apply steps_raise].
  destruct (Float.ltb _ _); [apply steps_ret|].
  destruct (CacheService.get_insufficient_context _); [apply steps_ret|].
  destruct (Py.any_in _ _); [apply steps_ret|].
  apply steps_redis_setex, HK.
Qed.

Lemma steps_search env tenant qv top_k thr :
  steps K P (VectorStore.search env tenant qv top_k thr).
Proof.
  unfold VectorStore.search, VectorStore.get_collections, VectorStore.client_search.
  apply steps_bind.
  { apply steps_bind; [by apply steps_emit, HP | intros _; apply steps_ret]. }
  intros names. case_bool_decide; [apply steps_ret|].
  apply steps_bind.
  { apply steps_bind; [by apply steps_emit, HP | intros _; apply steps_ret]. }
  intros results. destruct (VectorStore.validate _ _ _);
    [apply steps_ret | apply steps_raise].
Qed.

Lemma steps_embed_text env question : steps K P (LLMService.embed_text env question).
Proof.
  unfold LLMService.embed_text.
  apply steps_bind; [by apply steps_emit, HP | intros _; apply steps_ret].
Qed.

Lemma steps_generate_answer env question chunks tenant_name :
  P (OpenAIChat question chunks tenant_name) ->
  steps K P (LLMService.generate_answer env question chunks tenant_name).
Proof.
  intros H. unfold LLMService.generate_answer.
  apply steps_bind; [by apply steps_emit | intros _; apply steps_ret].
Qed.

Lemma steps_processing_time start : steps K P (Main.processing_time_since start).
Proof.
  unfold Main.processing_time_since.
  apply steps_bind; [apply steps_time | intros now; apply steps_ret].
Qed.

End Steps.

Lemma not_chat_chat_with_context (e : event) :
  is_chat e = false -> chat_with_context e.
Proof. by destruct e. Qed.

Lemma cache_key_not_rate_key (tenant question : string) (ids : list string) :
  ¬ rate_key (CacheService._generate_cache_key tenant question ids).
Proof.
  unfold rate_key, CacheService._generate_cache_key. intros [s H].
  generalize dependent (SHA256.hexdigest
    (CacheService.cache_key_content tenant question ids)).
  intros h H. rewrite !append_cons in H. discriminate H.
Qed.

Section Query.

Variable settings : Settings.
Variable env : services.

Lemma search_result_indep tenant qv top_k thr w1 w2 :
  fst (VectorStore.search env tenant qv top_k thr w1) =
  fst (VectorStore.search env tenant qv top_k thr w2).
Proof.
  destruct (decide (VectorStore._get_collection_name tenant ∈ qdrant_collections env)).
  - by rewrite !search_existing.
  - by rewrite !search_missing.
Qed.

(** Every completion call that the endpoint makes carries a non-empty
    context. *)
Lemma query_chat_with_context request context :
  steps (fun _ => True) chat_with_context
    (Main.query_knowledge_base settings env request context).
Proof.
  pose proof not_chat_chat_with_context as HP.
  unfold Main.query_knowledge_base.
  apply steps_bind; [apply steps_time | intros start].
  apply steps_bind; [by apply steps_check_rate_limit | intros allowed].
  destruct (negb allowed); [apply steps_raise|].
  apply steps_bind; [by apply steps_embed_text | intros emb].
  apply steps_bind.
  { apply steps_catch; [by apply steps_search | intros msg].
    apply steps_bind; [by apply steps_emit | intros _; apply steps_raise]. }
  intros chunks.
  apply steps_bind; [by apply steps_get_cached_response | intros cached].
  destruct (Main.truthy cached).
  { destruct cached as [[n|r]|]; try apply steps_raise.
    apply steps_bind; [apply steps_processing_time | intros ?; apply steps_ret]. }
  apply steps_bind.
  { destruct chunks as [|c chunks]; [apply steps_ret|].
    by apply steps_generate_answer. }
  intros [result tokens].
  apply steps_bind; [by apply steps_cache_response | intros _].
  apply steps_bind; [apply steps_processing_time | intros ?].
  apply steps_bind; [by apply steps_emit | intros _].
  apply steps_bind; [by apply steps_emit | intros _].
  apply steps_ret.
Qed.

Lemma search_run tenant qv top_k thr w w0 :
  ∃ evs,
    VectorStore.search env tenant qv top_k thr w =
      (fst (VectorStore.search env tenant qv top_k thr w0), add_events evs w) ∧
    Forall (fun e => is_chat e = false) evs.
Proof.
  rewrite (search_result_indep tenant qv top_k thr w0 w).
  destruct (decide (VectorStore._get_collection_name tenant ∈ qdrant_collections env)).
  - rewrite search_existing by done. eexists. split; [reflexivity|].
    by repeat constructor.
  - rewrite search_missing by done. eexists. split; [reflexivity|].
    by repeat constructor.
Qed.

Lemma embed_text_run question w :
  LLMService.embed_text env question w =
    (Ok (openai_embedding env question), add_events [OpenAIEmbedding question] w).
Proof. reflexivity. Qed.

(** C3: when the limiter admits the query, retrieval yields no fragment and
    the cache holds no answer for the question, the endpoint returns a
    result with [insufficient_context = true] and [confidence = 0.0] (no
    answer, no sources, not served from the cache), and no completion call
    is made. In every run of the endpoint, whatever its outcome, each
    completion call carries a non-empty context. *)
Theorem query_without_fragments request context w :
  let tenant := Main.ctx_tenant_id context in
  let question := Main.req_question request in
  (fst (CacheService.check_rate_limit settings tenant "query" w) = Ok true ->
   fst (VectorStore.search env tenant (openai_embedding env question)
          (top_k_chunks settings) (similarity_threshold settings) w) = Ok [] ->
   Main.truthy
     (value <$> Redis.lookup (clock w) (redis w)
                  (CacheService._generate_cache_key tenant question [])) = false ->
   ∃ response w' evs,
     Main.query_knowledge_base settings env request context w = (Ok response, w') ∧
     Main.resp_insufficient_context response = true ∧
     Main.resp_confidence response = Some Float.f0_0 ∧
     Main.resp_answer response = None ∧
     Main.resp_sources response = [] ∧
     Main.resp_cached response = false ∧
     trace w' = trace w ++ evs ∧
     Forall (fun e => is_chat e = false) evs) ∧
  (∃ evs,
     trace (snd (Main.query_knowledge_base settings env request context w)) =
       trace w ++ evs ∧
     ∀ q chunks name, OpenAIChat q chunks name ∈ evs -> chunks ≠ []).
Proof.
  intros tenant question. split.
  - intros Hrate Hsearch Hmiss.
    unfold Main.query_knowledge_base, bind at 1, time_time at 1.
    fold tenant question. unfold bind at 1.
    pose proof (steps_check_rate_limit rate_key (fun e => is_chat e = false)
                  (fun e H => H) settings tenant "query" (fun k H => H) w) as Hframe.
    destruct (CacheService.check_rate_limit settings tenant "query" w)
      as [r1 w1].
    simpl in Hrate, Hframe. subst r1.
    destruct Hframe as (Hclock & Hredis & evs1 & Htrace & Hevs1).
    cbn [negb].
    unfold bind at 1. rewrite embed_text_run.
    unfold bind at 1, catch_security.
    match goal with
    | |- context [VectorStore.search env tenant ?qv ?k ?thr ?w2] =>
        destruct (search_run tenant qv k thr w2 w) as (evs2 & Hrun & Hevs2)
    end.
    rewrite Hrun, Hsearch. clear Hrun.
    unfold bind at 1. rewrite get_cached_response_run.
    cbn [map add_events clock redis].
    assert (Hsame :
      Redis.lookup (clock w1) (redis w1)
        (CacheService._generate_cache_key tenant question []) =
      Redis.lookup (clock w) (redis w)
        (CacheService._generate_cache_key tenant question [])).
    { unfold Redis.lookup.
      by rewrite Hclock, Hredis by apply cache_key_not_rate_key. }
    rewrite Hsame, Hmiss.
    unfold bind at 1, ret at 1. unfold bind at 1.
    rewrite cache_response_blocked by (done || (left; vm_compute; reflexivity)).
    eexists _, _, _. split; [reflexivity|].
    do 5 (split; [reflexivity|]). split.
    + simpl. rewrite Htrace, <- !app_assoc. reflexivity.
    + apply Forall_app. split; [done|].
      apply Forall_cons. split; [done|].
      apply Forall_app. split; [done|]. by repeat constructor.
  - destruct (query_chat_with_context request context w)
      as (_ & _ & evs & Htrace & Hall).
    exists evs. split; [done|]. intros q chunks name Hin.
    rewrite Forall_forall in Hall. exact (Hall _ Hin).
Qed.

End Query.

Lemma query_without_fragments_witness :
  let context := {| Main.ctx_tenant_id := "globex"; Main.ctx_tenant_name := "Globex" |} in
  let request := {| Main.req_question := "How many vacation days are granted?" |} in
  let w := empty_world 1000 in
  fst (CacheService.check_rate_limit default_settings "globex" "query" w) = Ok true ∧
  fst (VectorStore.search (sample_services []) "globex"
         (openai_embedding (sample_services [])
            "How many vacation days are granted?")
         (top_k_chunks default_settings) (similarity_threshold default_settings) w)
    = Ok [] ∧
  Main.truthy
    (value <$> Redis.lookup (clock w) (redis w)
                 (CacheService._generate_cache_key "globex"
                    "How many vacation days are granted?" [])) = false ∧
  ∃ response w',
    Main.query_knowledge_base default_settings (sample_services []) request
      context w = (Ok response, w') ∧
    Main.resp_insufficient_context response = true ∧
    Main.resp_confidence response = Some Float.f0_0.
Proof.
  intros context request w.
  assert (H1 : fst (CacheService.check_rate_limit default_settings "globex" "query" w)
               = Ok true).
  { unfold w. rewrite check_rate_limit_first; [reflexivity|].
    unfold Redis.lookup. simpl. by rewrite lookup_empty. }
  assert (H2 : fst (VectorStore.search (sample_services []) "globex"
                      (openai_embedding (sample_services [])
                         "How many vacation days are granted?")
                      (top_k_chunks default_settings)
                      (similarity_threshold default_settings) w) = Ok []).
  { rewrite search_missing; [reflexivity|].
    simpl. intros H. apply list_elem_of_singleton in H. revert H.
    apply String.eqb_neq. vm_compute. reflexivity. }
  assert (H3 : Main.truthy
                 (value <$> Redis.lookup (clock w) (redis w)
                    (CacheService._generate_cache_key "globex"
                       "How many vacation days are granted?" [])) = false).
  { unfold Redis.lookup. simpl. by rewrite lookup_empty. }
  split; [exact H1|]. split; [exact H2|]. split; [exact H3|].
  destruct (query_without_fragments default_settings (sample_services [])
              request context w) as [Hshort _].
  destruct (Hshort H1 H2 H3) as (response & w' & evs & Hrun & Hi & Hc & _).
  exists response, w'. split; [exact Hrun|]. split; [exact Hi | exact Hc].
Defined.

(** ** The query endpoint, branch by branch *)

Section Endpoint.

Variable settings : Settings.
Variable env : services.
Variable request : Main.QueryRequest.
Variable context : Main.TenantContext.

Local Abbreviation tenant := (Main.ctx_tenant_id context).
Local Abbreviation question := (Main.req_question request).
Local Abbreviation limiter := (CacheService.check_rate_limit settings tenant "query").
Local Abbreviation retrieve :=
  (VectorStore.search env tenant (openai_embedding env question)
     (top_k_chunks settings) (similarity_threshold settings)).

(** The limiter only sends counter commands, writes rate counters only and
    leaves the clock alone. *)
Lemma check_rate_limit_frame tenant' operation w :
  frame (fun k => ∃ minute, k = CacheService.rate_limit_key tenant' operation minute)
    is_counter_command w
    (snd (CacheService.check_rate_limit settings tenant' operation w)).
Proof.
  unfold CacheService.check_rate_limit, Redis.incr, Redis.expire, bind, emit,
    time_time, get_redis, put_redis, ret, raise. simpl.
  set (key := CacheService.rate_limit_key tenant' operation (Z.quot (clock w) 60)).
  assert (Hfr : ∀ m evs, Forall is_counter_command evs ->
    (∀ k, k ≠ key -> m !! k = redis w !! k) ->
    frame (fun k => ∃ minute, k = CacheService.rate_limit_key tenant' operation minute)
      is_counter_command w
      {| redis := m; clock := clock w; trace := trace w ++ evs |}).
  { intros m evs Hevs Hm. split; [done|]. split; [|by exists evs].
    intros k Hk. apply Hm. intros ->. apply Hk. by eexists. }
  destruct (Redis.lookup (clock w) (redis w) key) as [[[n|r] ex]|] eqn:Hl; simpl.
  - destruct (n + 1 =? 1) eqn:Hn; simpl.
    + unfold Redis.lookup. rewrite lookup_insert_eq.
      destruct (Redis.live _ _); simpl.
      * destruct (_ <? _); simpl; rewrite <- app_assoc; apply Hfr;
          try (by repeat constructor);
          intros k Hk; by rewrite !lookup_insert_ne.
      * destruct (_ <? _); simpl; rewrite <- app_assoc; apply Hfr;
          try (by repeat constructor);
          intros k Hk; by rewrite !lookup_insert_ne.
    + destruct (_ <? _); simpl; apply Hfr; try (by repeat constructor);
        intros k Hk; by rewrite lookup_insert_ne.
  - apply Hfr; [by repeat constructor | done].
  - unfold Redis.lookup. rewrite lookup_insert_eq. simpl.
    destruct (_ <? _); simpl; rewrite <- app_assoc; apply Hfr;
      try (by repeat constructor);
      intros k Hk; by rewrite !lookup_insert_ne.
Qed.


Lemma search_run_index tenant' qv top_k thr w w0 :
  ∃ evs,
    VectorStore.search env tenant' qv top_k thr w =
      (fst (VectorStore.search env tenant' qv top_k thr w0), add_events evs w) ∧
    Forall is_index_call evs.
Proof.
  rewrite (search_result_indep env tenant' qv top_k thr w0 w).
  destruct (decide (VectorStore._get_collection_name tenant' ∈ qdrant_collections env)).
  - rewrite search_existing by done. eexists. split; [reflexivity|].
    by repeat constructor.
  - rewrite search_missing by done. eexists. split; [reflexivity|].
    by repeat constructor.
Qed.

(** When the limiter rejects the query, the endpoint raises the 429 error
    and stops there: the only calls made are the counter commands of the
    limiter, so the embedding model, the index, the cache, the completion
    model and the database are not called. *)
Theorem query_throttled w :
  fst (limiter w) = Ok false ->
  Main.query_knowledge_base settings env request context w =
    (Raise (HTTPException 429
              ("Rate limit exceeded: " +:+ pretty (queries_per_minute settings)
               +:+ " queries per minute")),
     snd (limiter w)) ∧
  ∃ evs, trace (snd (limiter w)) = trace w ++ evs ∧
         Forall is_counter_command evs.
Proof.
  intros Hrate. split.
  - unfold Main.query_knowledge_base, bind at 1, time_time at 1.
    unfold bind at 1.
    destruct (limiter w) as [r1 w1]. simpl in Hrate. by subst r1.
  - by destruct (check_rate_limit_frame tenant "query" w) as (_ & _ & Hev).
Qed.


Ltac pass_limiter w Hrate w1 Hw1 :=
  unfold Main.query_knowledge_base, bind at 1, time_time at 1;
  unfold bind at 1;
  pose proof (check_rate_limit_frame tenant "query" w) as Hw1;
  destruct (limiter w) as [? w1]; simpl in Hrate, Hw1; subst;
  cbn [negb]; unfold bind at 1; rewrite embed_text_run;
  unfold bind at 1, catch_security.

(** When retrieval raises the security exception, the endpoint writes the
    "security_violation" audit record and fails with the 500 error: after the
    limiter, the calls are the embedding, the listing and the query of the
    index, and the audit record, so no answer is synthesised, cached or
    logged as a query. *)
Theorem query_security_violation msg w :
  fst (limiter w) = Ok true ->
  fst (retrieve w) = Raise (SecurityException msg) ->
  Main.query_knowledge_base settings env request context w =
    (Raise (HTTPException 500 "Security violation detected"),
     add_events
       [OpenAIEmbedding question;
        QdrantGetCollections;
        QdrantSearch (VectorStore._get_collection_name tenant)
          (openai_embedding env question) (top_k_chunks settings)
          (similarity_threshold settings) tenant;
        DbAuditLog tenant "security_violation" "query"]
       (snd (limiter w))).
Proof.
  intros Hrate Hsearch.
  destruct (decide (VectorStore._get_collection_name tenant ∈ qdrant_collections env))
    as [Hin|Hout]; [|by rewrite search_missing in Hsearch].
  rewrite search_existing in Hsearch by done. simpl in Hsearch.
  pass_limiter w Hrate w1 Hw1.
  rewrite search_existing by done. rewrite Hsearch.
  unfold Main.create_audit_log, bind, emit, raise. simpl.
  unfold add_events. simpl. by rewrite <- !app_assoc.
Qed.


Lemma cache_key_not_counter tenant' operation t q ids :
  ¬ ∃ minute, CacheService._generate_cache_key t q ids =
              CacheService.rate_limit_key tenant' operation minute.
Proof.
  intros [minute H]. apply (cache_key_not_rate_key t q ids).
  rewrite H. unfold CacheService.rate_limit_key. by eexists.
Qed.

(** What the cache holds for a key is the same before and after the
    limiter ran. *)
Lemma lookup_after_limiter tenant' operation t q ids w w1 :
  frame (fun k => ∃ minute, k = CacheService.rate_limit_key tenant' operation minute)
    is_counter_command w w1 ->
  Redis.lookup (clock w1) (redis w1) (CacheService._generate_cache_key t q ids) =
  Redis.lookup (clock w) (redis w) (CacheService._generate_cache_key t q ids).
Proof.
  intros (Hclock & Hredis & _). unfold Redis.lookup.
  by rewrite Hclock, Hredis by apply cache_key_not_counter.
Qed.

Lemma not_admitted_dec q (r : Response) : not_admitted q r ∨ ¬ not_admitted q r.
Proof.
  unfold not_admitted.
  destruct (CacheService.get_confidence r) as [conf|]; [|by left; left].
  destruct (Float.ltb conf Float.f0_7); [by left; left|].
  destruct (CacheService.get_insufficient_context r); [by left; right; left|].
  destruct (Py.any_in (time_markers ++ personal_markers) (Py.lower q)) eqn:Hk.
  - left. right; right. by apply any_in_true.
  - right. intros [H | [H | H]]; try done.
    apply any_in_true in H. congruence.
Qed.

Lemma admitted_confidence q (r : Response) :
  ¬ not_admitted q r -> confidence r ≠ Null.
Proof.
  intros Hadm Hnull. apply Hadm. left.
  by rewrite (proj2 (get_confidence_null r) Hnull).
Qed.

(** The run of the endpoint on a cache hit. *)
Lemma query_hit_run chunks r ex w :
  let key :=
    CacheService._generate_cache_key tenant question (map frag_document_id chunks) in
  fst (limiter w) = Ok true ->
  fst (retrieve w) = Ok chunks ->
  Redis.lookup (clock w) (redis w) key =
    Some {| value := RDoc r; expires_at := ex |} ->
  ∃ pt evs,
    Main.query_knowledge_base settings env request context w =
      (Ok (Main.respond r pt true),
       add_events (OpenAIEmbedding question :: evs ++ [RedisGet key])
         (snd (limiter w))) ∧
    Forall is_index_call evs.
Proof.
  intros key Hrate Hsearch Hhit.
  pass_limiter w Hrate w1 Hw1.
  match goal with
  | |- context [VectorStore.search env tenant ?qv ?k ?thr ?w2] =>
      destruct (search_run_index tenant qv k thr w2 w) as (evs & Hrun & Hevs)
  end.
  rewrite Hrun, Hsearch. clear Hrun.
  unfold bind at 1. rewrite get_cached_response_run.
  cbn [add_events clock redis]. fold key.
  unfold key at 1 2 3. rewrite (lookup_after_limiter _ _ _ _ _ _ _ Hw1).
  fold key. rewrite Hhit. simpl.
  eexists _, evs. split; [|done].
  unfold add_events. simpl. by rewrite <- !app_assoc.
Qed.

(** The run of the endpoint on a cache miss with fragments. *)
Lemma query_miss_run c cs w :
  let chunks := c :: cs in
  let key :=
    CacheService._generate_cache_key tenant question (map frag_document_id chunks) in
  let reply := openai_chat env question chunks (Main.ctx_tenant_name context) in
  fst (limiter w) = Ok true ->
  fst (retrieve w) = Ok chunks ->
  Main.truthy (value <$> Redis.lookup (clock w) (redis w) key) = false ->
  0 < cache_ttl_seconds settings ->
  confidence (fst reply) ≠ Null ->
  ∃ pt evs cache_evs store,
    Main.query_knowledge_base settings env request context w =
      (Ok (Main.respond (fst reply) pt false),
       {| redis := store;
          clock := clock w;
          trace :=
            trace (snd (limiter w)) ++ OpenAIEmbedding question :: evs ++
            [RedisGet key;
             OpenAIChat question chunks (Main.ctx_tenant_name context)] ++
            cache_evs ++
            [DbQueryLog tenant question (fst reply) (Z.of_nat (length chunks))
               (snd reply);
             DbAuditLog tenant "query_execute" "query"] |}) ∧
    Forall is_index_call evs ∧
    (not_admitted question (fst reply) ->
     cache_evs = [] ∧ store = redis (snd (limiter w))) ∧
    (¬ not_admitted question (fst reply) ->
     cache_evs = [RedisSetex key (cache_ttl_seconds settings) (RDoc (fst reply))] ∧
     store =
       <[key := {| value := RDoc (fst reply);
                   expires_at := Some (clock w + cache_ttl_seconds settings) |}]>
         (redis (snd (limiter w)))).
Proof.
  intros chunks key reply Hrate Hsearch Hmiss Httl Hnull.
  pass_limiter w Hrate w1 Hw1.
  destruct Hw1 as (Hclock & Hw1).
  match goal with
  | |- context [VectorStore.search env tenant ?qv ?k ?thr ?w2] =>
      destruct (search_run_index tenant qv k thr w2 w) as (evs & Hrun & Hevs)
  end.
  rewrite Hrun, Hsearch. clear Hrun.
  unfold bind at 1. rewrite get_cached_response_run.
  cbn [add_events clock redis]. fold key.
  unfold key at 1 2.
  rewrite (lookup_after_limiter tenant "query" _ _ _ w w1) by done.
  fold key. rewrite Hmiss.
  unfold chunks at 1. cbv iota.
  unfold bind at 1, LLMService.generate_answer, bind at 1, emit, ret at 1.
  fold chunks reply. destruct reply as [result tokens] eqn:Hreply.
  cbn [fst snd] in Hnull |- *. unfold bind at 1. fold key.
  destruct (not_admitted_dec question result) as [Hno | Hyes].
  - rewrite cache_response_blocked by done.
    unfold Main.processing_time_since, Main.create_query_log,
      Main.create_audit_log, bind, emit, ret, time_time. simpl.
    eexists _, evs, [], _. split; [|done].
    rewrite Hclock, <- !app_assoc. reflexivity.
  - rewrite cache_response_stored by done.
    unfold Main.processing_time_since, Main.create_query_log,
      Main.create_audit_log, bind, emit, ret, time_time. simpl.
    eexists _, evs, [_], _. split; [|split; [done|split; [done|]]].
    + rewrite Hclock, <- !app_assoc. reflexivity.
    + intros _. by split.
Qed.


(** On a cache hit the endpoint answers from the cached document, flagged as
    cached, and returns at once: after the limiter, the calls are the
    embedding, the calls of retrieval and the cache read. No completion call
    is made, the cache is not written, and neither the query log nor the
    audit log is written. *)
Theorem query_cache_hit chunks r ex w :
  let key :=
    CacheService._generate_cache_key tenant question (map frag_document_id chunks) in
  fst (limiter w) = Ok true ->
  fst (retrieve w) = Ok chunks ->
  Redis.lookup (clock w) (redis w) key =
    Some {| value := RDoc r; expires_at := ex |} ->
  ∃ response w' evs,
    Main.query_knowledge_base settings env request context w = (Ok response, w') ∧
    Main.resp_answer response = answer r ∧
    Main.resp_sources response = sources r ∧
    Main.resp_confidence response = dict_get (confidence r) ∧
    Main.resp_insufficient_context response = default false (insufficient_context r) ∧
    Main.resp_cached response = true ∧
    redis w' = redis (snd (limiter w)) ∧
    trace w' =
      trace (snd (limiter w)) ++ OpenAIEmbedding question :: evs ++ [RedisGet key] ∧
    Forall is_index_call evs.
Proof.
  intros key Hrate Hsearch Hhit.
  destruct (query_hit_run chunks r ex w Hrate Hsearch Hhit) as (pt & evs & Hrun & Hevs).
  eexists _, _, evs. split; [exact Hrun|].
  by do 7 (split; [reflexivity|]).
Qed.

(** The run of the endpoint on a cache miss when the completion model
    replies with a [null] confidence. *)
Lemma query_null_run c cs w :
  let chunks := c :: cs in
  let key :=
    CacheService._generate_cache_key tenant question (map frag_document_id chunks) in
  let reply := openai_chat env question chunks (Main.ctx_tenant_name context) in
  fst (limiter w) = Ok true ->
  fst (retrieve w) = Ok chunks ->
  Main.truthy (value <$> Redis.lookup (clock w) (redis w) key) = false ->
  confidence (fst reply) = Null ->
  ∃ evs,
    Main.query_knowledge_base settings env request context w =
      (Raise (TypeError
                "'<' not supported between instances of 'NoneType' and 'float'"),
       add_events
         (OpenAIEmbedding question :: evs ++
          [RedisGet key;
           OpenAIChat question chunks (Main.ctx_tenant_name context)])
         (snd (limiter w))) ∧
    Forall is_index_call evs.
Proof.
  intros chunks key reply Hrate Hsearch Hmiss Hnull.
  pass_limiter w Hrate w1 Hw1.
  destruct Hw1 as (Hclock & Hw1).
  match goal with
  | |- context [VectorStore.search env tenant ?qv ?k ?thr ?w2] =>
      destruct (search_run_index tenant qv k thr w2 w) as (evs & Hrun & Hevs)
  end.
  rewrite Hrun, Hsearch. clear Hrun.
  unfold bind at 1. rewrite get_cached_response_run.
  cbn [add_events clock redis]. fold key.
  unfold key at 1 2.
  rewrite (lookup_after_limiter tenant "query" _ _ _ w w1) by done.
  fold key. rewrite Hmiss.
  unfold chunks at 1. cbv iota.
  unfold bind at 1, LLMService.generate_answer, bind at 1, emit, ret at 1.
  fold chunks reply. destruct reply as [result tokens] eqn:Hreply.
  cbn [fst snd] in Hnull |- *. unfold bind at 1. fold key.
  rewrite cache_response_null by done.
  exists evs. split; [|done].
  unfold add_events. simpl. by rewrite <- !app_assoc.
Qed.

(** On a cache miss with at least one fragment, when the completion model
    replies with a confidence that is a number or absent, the endpoint makes
    exactly one completion call, over the retrieved fragments in their
    order, answers with the model's document (not flagged as cached), offers
    it to the cache and then writes the query log and the audit record. *)
Theorem query_synthesized c cs w :
  let chunks := c :: cs in
  let key :=
    CacheService._generate_cache_key tenant question (map frag_document_id chunks) in
  let reply := openai_chat env question chunks (Main.ctx_tenant_name context) in
  fst (limiter w) = Ok true ->
  fst (retrieve w) = Ok chunks ->
  Main.truthy (value <$> Redis.lookup (clock w) (redis w) key) = false ->
  0 < cache_ttl_seconds settings ->
  confidence (fst reply) ≠ Null ->
  ∃ response w' evs cache_evs,
    Main.query_knowledge_base settings env request context w = (Ok response, w') ∧
    Main.resp_answer response = answer (fst reply) ∧
    Main.resp_sources response = sources (fst reply) ∧
    Main.resp_confidence response = dict_get (confidence (fst reply)) ∧
    Main.resp_cached response = false ∧
    trace w' =
      trace (snd (limiter w)) ++ OpenAIEmbedding question :: evs ++
      [RedisGet key; OpenAIChat question chunks (Main.ctx_tenant_name context)] ++
      cache_evs ++
      [DbQueryLog tenant question (fst reply) (Z.of_nat (length chunks)) (snd reply);
       DbAuditLog tenant "query_execute" "query"] ∧
    Forall is_index_call evs ∧
    (not_admitted question (fst reply) -> cache_evs = []) ∧
    (¬ not_admitted question (fst reply) ->
     cache_evs = [RedisSetex key (cache_ttl_seconds settings) (RDoc (fst reply))]).
Proof.
  intros chunks key reply Hrate Hsearch Hmiss Httl Hnull.
  destruct (query_miss_run c cs w Hrate Hsearch Hmiss Httl Hnull)
    as (pt & evs & cache_evs & store & Hrun & Hevs & Hno & Hyes).
  eexists _, _, evs, cache_evs. split; [exact Hrun|].
  do 5 (split; [reflexivity|]). split; [done|]. split.
  - intros H. by destruct (Hno H).
  - intros H. by destruct (Hyes H).
Qed.

(** A completion reply whose confidence is [null] makes the query fail after
    the completion call was made: [cache_response] raises [TypeError], which
    nothing catches, so the endpoint returns no answer, and after the
    limiter the calls are the embedding, the calls of retrieval, the cache
    read and the completion call. Nothing is cached, and neither the query
    log nor the audit record is written. *)
Theorem query_null_confidence_fails c cs w :
  let chunks := c :: cs in
  let key :=
    CacheService._generate_cache_key tenant question (map frag_document_id chunks) in
  let reply := openai_chat env question chunks (Main.ctx_tenant_name context) in
  fst (limiter w) = Ok true ->
  fst (retrieve w) = Ok chunks ->
  Main.truthy (value <$> Redis.lookup (clock w) (redis w) key) = false ->
  confidence (fst reply) = Null ->
  ∃ w' evs,
    Main.query_knowledge_base settings env request context w =
      (Raise (TypeError
                "'<' not supported between instances of 'NoneType' and 'float'"),
       w') ∧
    redis w' = redis (snd (limiter w)) ∧
    trace w' =
      trace (snd (limiter w)) ++ OpenAIEmbedding question :: evs ++
      [RedisGet key; OpenAIChat question chunks (Main.ctx_tenant_name context)] ∧
    Forall is_index_call evs.
Proof.
  intros chunks key reply Hrate Hsearch Hmiss Hnull.
  destruct (query_null_run c cs w Hrate Hsearch Hmiss Hnull) as (evs & Hrun & Hevs).
  eexists _, evs. split; [exact Hrun|]. by repeat split.
Qed.

End Endpoint.

(** A question asked again is served from the cache: after a first run that
    missed the cache and synthesised an answer that is admitted to the cache,
    a second run of the same query before the TTL has elapsed returns that
    answer flagged as cached, without a completion call, provided the limiter
    allows it and retrieval yields fragments with the same document
    identifiers, in any order. The collaborators of the second run may differ
    from those of the first (a changed index or embedding model): only the
    document identifiers retrieved matter. *)
Theorem query_repeat_served_from_cache (settings : Settings) (env1 env2 : services)
    (request : Main.QueryRequest) (context : Main.TenantContext)
    (c : Fragment) (cs chunks2 : list Fragment) (w : world) (t : Z) :
  let tenant := Main.ctx_tenant_id context in
  let question := Main.req_question request in
  let chunks := c :: cs in
  let key :=
    CacheService._generate_cache_key tenant question (map frag_document_id chunks) in
  let reply := openai_chat env1 question chunks (Main.ctx_tenant_name context) in
  let w1 := snd (Main.query_knowledge_base settings env1 request context w) in
  fst (CacheService.check_rate_limit settings tenant "query" w) = Ok true ->
  fst (VectorStore.search env1 tenant (openai_embedding env1 question)
         (top_k_chunks settings) (similarity_threshold settings) w) = Ok chunks ->
  Main.truthy (value <$> Redis.lookup (clock w) (redis w) key) = false ->
  0 < cache_ttl_seconds settings ->
  ¬ not_admitted question (fst reply) ->
  t < clock w + cache_ttl_seconds settings ->
  fst (CacheService.check_rate_limit settings tenant "query" (set_clock t w1)) =
    Ok true ->
  fst (VectorStore.search env2 tenant (openai_embedding env2 question)
         (top_k_chunks settings) (similarity_threshold settings) (set_clock t w1)) =
    Ok chunks2 ->
  map frag_document_id chunks2 ≡ₚ map frag_document_id chunks ->
  ∃ response w2 evs,
    Main.query_knowledge_base settings env2 request context (set_clock t w1) =
      (Ok response, w2) ∧
    Main.resp_cached response = true ∧
    Main.resp_answer response = answer (fst reply) ∧
    Main.resp_sources response = sources (fst reply) ∧
    Main.resp_confidence response = dict_get (confidence (fst reply)) ∧
    trace w2 = trace w1 ++ evs ∧
    Forall (fun e => is_chat e = false) evs.
Proof.
  intros tenant question chunks key reply w1. subst tenant question.
  intros Hrate Hsearch Hmiss Httl Hadm Ht Hrate2 Hsearch2 Hperm.
  destruct (query_miss_run settings env1 request context c cs w Hrate Hsearch
              Hmiss Httl (admitted_confidence _ _ Hadm))
    as (pt & evs & cache_evs & store & Hrun & Hevs & _ & Hyes).
  destruct (Hyes Hadm) as [_ Hstore].
  assert (Hw1 : redis w1 = store) by (unfold w1; by rewrite Hrun).
  assert (Hkey : CacheService._generate_cache_key (Main.ctx_tenant_id context)
                   (Main.req_question request) (map frag_document_id chunks2) = key).
  { unfold key, CacheService._generate_cache_key, CacheService.cache_key_content.
    by rewrite (sorted_perm _ _ Hperm). }
  assert (Hhit : Redis.lookup (clock (set_clock t w1)) (redis (set_clock t w1))
                   (CacheService._generate_cache_key (Main.ctx_tenant_id context)
                      (Main.req_question request) (map frag_document_id chunks2)) =
                 Some {| value := RDoc (fst reply);
                         expires_at := Some (clock w + cache_ttl_seconds settings) |}).
  { rewrite Hkey. simpl. rewrite Hw1, Hstore. fold key. rewrite lookup_stored.
    by rewrite (proj2 (Z.ltb_lt _ _) Ht). }
  destruct (query_hit_run settings env2 request context chunks2 _ _ _ Hrate2
              Hsearch2 Hhit)
    as (pt2 & evs2 & Hrun2 & Hevs2).
  pose proof (check_rate_limit_frame settings (Main.ctx_tenant_id context) "query"
                (set_clock t w1))
    as (_ & _ & evs0 & Htrace0 & Hevs0).
  eexists _, _, _. split; [exact Hrun2|].
  do 4 (split; [reflexivity|]). split.
  - simpl. rewrite Htrace0. simpl. rewrite <- app_assoc. reflexivity.
  - apply Forall_app. split.
    + eapply Forall_impl; [exact Hevs0|]. by intros [].
    + constructor; [done|]. apply Forall_app. split.
      * eapply Forall_impl; [exact Hevs2|]. by intros [].
      * by repeat constructor.
Qed.

Lemma query_throttled_witness :
  let w := world_with 1000 (CacheService.rate_limit_key "acme" "query" 16)
             {| value := RInt 10; expires_at := Some 1020 |} in
  fst (CacheService.check_rate_limit default_settings "acme" "query" w) = Ok false ∧
  fst (Main.query_knowledge_base default_settings (sample_services [])
         sample_request sample_context w) =
    Raise (HTTPException 429 "Rate limit exceeded: 10 queries per minute").
Proof.
  intros w.
  assert (H : fst (CacheService.check_rate_limit default_settings "acme" "query" w)
              = Ok false) by (vm_compute; reflexivity).
  split; [exact H|].
  destruct (query_throttled default_settings (sample_services []) sample_request
              sample_context w H) as [Hrun _].
  rewrite Hrun. vm_compute. reflexivity.
Defined.

Lemma query_security_violation_witness :
  let env := sample_services [sample_point (Some "evil") "d2"] in
  let w := empty_world 1000 in
  fst (CacheService.check_rate_limit default_settings "acme" "query" w) = Ok true ∧
  fst (VectorStore.search env "acme"
         (openai_embedding env "How many vacation days are granted?")
         (top_k_chunks default_settings) (similarity_threshold default_settings) w)
    = Raise (SecurityException "Tenant isolation violation detected") ∧
  fst (Main.query_knowledge_base default_settings env sample_request
         sample_context w) =
    Raise (HTTPException 500 "Security violation detected").
Proof.
  intros env w.
  assert (H1 : fst (CacheService.check_rate_limit default_settings "acme" "query" w)
               = Ok true) by (vm_compute; reflexivity).
  assert (H2 : fst (VectorStore.search env "acme"
                      (openai_embedding env "How many vacation days are granted?")
                      (top_k_chunks default_settings)
                      (similarity_threshold default_settings) w)
               = Raise (SecurityException "Tenant isolation violation detected"))
    by (vm_compute; reflexivity).
  split; [exact H1|]. split; [exact H2|].
  by rewrite (query_security_violation default_settings env sample_request
                sample_context _ w H1 H2).
Defined.

Lemma query_cache_hit_witness :
  let env := sample_services [sample_point (Some "acme") "d1"] in
  let chunks := [VectorStore.to_fragment (sample_point (Some "acme") "d1")] in
  let key :=
    CacheService._generate_cache_key "acme" "How many vacation days are granted?"
      ["d1"] in
  let w := world_with 1000 key {| value := RDoc sample_answer;
                                  expires_at := Some 2000 |} in
  fst (CacheService.check_rate_limit default_settings "acme" "query" w) = Ok true ∧
  fst (VectorStore.search env "acme"
         (openai_embedding env "How many vacation days are granted?")
         (top_k_chunks default_settings) (similarity_threshold default_settings) w)
    = Ok chunks ∧
  Redis.lookup (clock w) (redis w) key =
    Some {| value := RDoc sample_answer; expires_at := Some 2000 |} ∧
  ∃ response w',
    Main.query_knowledge_base default_settings env sample_request sample_context w
      = (Ok response, w') ∧
    Main.resp_cached response = true ∧
    Main.resp_answer response = Some "Twenty days.".
Proof.
  intros env chunks key w.
  assert (H1 : fst (CacheService.check_rate_limit default_settings "acme" "query" w)
               = Ok true) by (vm_compute; reflexivity).
  assert (H2 : fst (VectorStore.search env "acme"
                      (openai_embedding env "How many vacation days are granted?")
                      (top_k_chunks default_settings)
                      (similarity_threshold default_settings) w) = Ok chunks)
    by (vm_compute; reflexivity).
  assert (H3 : Redis.lookup (clock w) (redis w) key =
               Some {| value := RDoc sample_answer; expires_at := Some 2000 |})
    by (vm_compute; reflexivity).
  split; [exact H1|]. split; [exact H2|]. split; [exact H3|].
  destruct (query_cache_hit default_settings env sample_request sample_context
              chunks sample_answer (Some 2000) w H1 H2 H3)
    as (response & w' & evs & Hrun & Ha & _ & _ & _ & Hc & _).
  exists response, w'. split; [exact Hrun|]. split; [exact Hc | exact Ha].
Defined.

Lemma query_synthesized_witness :
  let env := answering_services [sample_point (Some "acme") "d1"] in
  let c := VectorStore.to_fragment (sample_point (Some "acme") "d1") in
  let w := empty_world 1000 in
  fst (CacheService.check_rate_limit default_settings "acme" "query" w) = Ok true ∧
  fst (VectorStore.search env "acme"
         (openai_embedding env "How many vacation days are granted?")
         (top_k_chunks default_settings) (similarity_threshold default_settings) w)
    = Ok [c] ∧
  Main.truthy
    (value <$> Redis.lookup (clock w) (redis w)
       (CacheService._generate_cache_key "acme"
          "How many vacation days are granted?" (map frag_document_id [c]))) = false ∧
  0 < cache_ttl_seconds default_settings ∧
  confidence (fst (openai_chat env "How many vacation days are granted?" [c]
                     "Acme")) ≠ Null ∧
  ∃ response w',
    Main.query_knowledge_base default_settings env sample_request sample_context w
      = (Ok response, w') ∧
    Main.resp_cached response = false ∧
    Main.resp_answer response = Some "Twenty days.".
Proof.
  intros env c w.
  assert (H1 : fst (CacheService.check_rate_limit default_settings "acme" "query" w)
               = Ok true) by (vm_compute; reflexivity).
  assert (H2 : fst (VectorStore.search env "acme"
                      (openai_embedding env "How many vacation days are granted?")
                      (top_k_chunks default_settings)
                      (similarity_threshold default_settings) w) = Ok [c])
    by (vm_compute; reflexivity).
  assert (H3 : Main.truthy
                 (value <$> Redis.lookup (clock w) (redis w)
                    (CacheService._generate_cache_key "acme"
                       "How many vacation days are granted?"
                       (map frag_document_id [c]))) = false)
    by (vm_compute; reflexivity).
  assert (H4 : 0 < cache_ttl_seconds default_settings) by (simpl; lia).
  assert (H5 : confidence (fst (openai_chat env
                                  "How many vacation days are granted?" [c]
                                  "Acme")) ≠ Null) by (simpl; discriminate).
  split; [exact H1|]. split; [exact H2|]. split; [exact H3|]. split; [exact H4|].
  split; [exact H5|].
  destruct (query_synthesized default_settings env sample_request sample_context
              c [] w H1 H2 H3 H4 H5)
    as (response & w' & evs & cevs & Hrun & Ha & _ & _ & Hc & _).
  exists response, w'. split; [exact Hrun|]. split; [exact Hc | exact Ha].
Defined.

Lemma query_null_confidence_fails_witness :
  let env := {|
    qdrant_collections := qdrant_collections (sample_services []);
    qdrant_search := fun _ _ _ _ _ => [sample_point (Some "acme") "d1"];
    openai_embedding := openai_embedding (sample_services []);
    openai_chat := fun _ _ _ =>
      ({| answer := None; sources := []; confidence := Null;
          insufficient_context := Some true |}, 17)
  |} in
  let c := VectorStore.to_fragment (sample_point (Some "acme") "d1") in
  let w := empty_world 1000 in
  fst (CacheService.check_rate_limit default_settings "acme" "query" w) = Ok true ∧
  fst (VectorStore.search env "acme"
         (openai_embedding env "How many vacation days are granted?")
         (top_k_chunks default_settings) (similarity_threshold default_settings) w)
    = Ok [c] ∧
  Main.truthy
    (value <$> Redis.lookup (clock w) (redis w)
       (CacheService._generate_cache_key "acme"
          "How many vacation days are granted?" (map frag_document_id [c]))) = false ∧
  confidence (fst (openai_chat env "How many vacation days are granted?" [c]
                     "Acme")) = Null ∧
  fst (Main.query_knowledge_base default_settings env sample_request
         sample_context w) =
    Raise (TypeError
             "'<' not supported between instances of 'NoneType' and 'float'").
Proof.
  intros env c w.
  assert (H1 : fst (CacheService.check_rate_limit default_settings "acme" "query" w)
               = Ok true) by (vm_compute; reflexivity).
  assert (H2 : fst (VectorStore.search env "acme"
                      (openai_embedding env "How many vacation days are granted?")
                      (top_k_chunks default_settings)
                      (similarity_threshold default_settings) w) = Ok [c])
    by (vm_compute; reflexivity).
  assert (H3 : Main.truthy
                 (value <$> Redis.lookup (clock w) (redis w)
                    (CacheService._generate_cache_key "acme"
                       "How many vacation days are granted?"
                       (map frag_document_id [c]))) = false)
    by (vm_compute; reflexivity).
  assert (H4 : confidence (fst (openai_chat env
                                  "How many vacation days are granted?" [c]
                                  "Acme")) = Null) by reflexivity.
  split; [exact H1|]. split; [exact H2|]. split; [exact H3|]. split; [exact H4|].
  destruct (query_null_confidence_fails default_settings env sample_request
              sample_context c [] w H1 H2 H3 H4) as (w' & evs & Hrun & _).
  by rewrite Hrun.
Defined.

Lemma query_repeat_served_from_cache_witness :
  let p1 := sample_point (Some "acme") "d1" in
  let p2 := sample_point (Some "acme") "d2" in
  let env1 := answering_services [p1; p2] in
  let env2 := answering_services [p2; p1] in
  let c1 := VectorStore.to_fragment p1 in
  let c2 := VectorStore.to_fragment p2 in
  let w := empty_world 1000 in
  let w1 := snd (Main.query_knowledge_base default_settings env1 sample_request
                   sample_context w) in
  fst (CacheService.check_rate_limit default_settings "acme" "query" w) = Ok true ∧
  fst (VectorStore.search env1 "acme"
         (openai_embedding env1 "How many vacation days are granted?")
         (top_k_chunks default_settings) (similarity_threshold default_settings) w)
    = Ok [c1; c2] ∧
  Main.truthy
    (value <$> Redis.lookup (clock w) (redis w)
       (CacheService._generate_cache_key "acme"
          "How many vacation days are granted?"
          (map frag_document_id [c1; c2]))) = false ∧
  0 < cache_ttl_seconds default_settings ∧
  ¬ not_admitted "How many vacation days are granted?" sample_answer ∧
  4599 < clock w + cache_ttl_seconds default_settings ∧
  fst (CacheService.check_rate_limit default_settings "acme" "query"
         (set_clock 4599 w1)) = Ok true ∧
  fst (VectorStore.search env2 "acme"
         (openai_embedding env2 "How many vacation days are granted?")
         (top_k_chunks default_settings) (similarity_threshold default_settings)
         (set_clock 4599 w1))
    = Ok [c2; c1] ∧
  map frag_document_id [c2; c1] ≡ₚ map frag_document_id [c1; c2] ∧
  ∃ response w2,
    Main.query_knowledge_base default_settings env2 sample_request sample_context
      (set_clock 4599 w1) = (Ok response, w2) ∧
    Main.resp_cached response = true ∧
    Main.resp_answer response = Some "Twenty days.".
Proof.
  intros p1 p2 env1 env2 c1 c2 w w1.
  assert (H1 : fst (CacheService.check_rate_limit default_settings "acme" "query" w)
               = Ok true) by (vm_compute; reflexivity).
  assert (H2 : fst (VectorStore.search env1 "acme"
                      (openai_embedding env1 "How many vacation days are granted?")
                      (top_k_chunks default_settings)
                      (similarity_threshold default_settings) w) = Ok [c1; c2])
    by (vm_compute; reflexivity).
  assert (H3 : Main.truthy
                 (value <$> Redis.lookup (clock w) (redis w)
                    (CacheService._generate_cache_key "acme"
                       "How many vacation days are granted?"
                       (map frag_document_id [c1; c2]))) = false)
    by (vm_compute; reflexivity).
  assert (H4 : 0 < cache_ttl_seconds default_settings) by (simpl; lia).
  assert (H5 : ¬ not_admitted "How many vacation days are granted?" sample_answer).
  { intros [H | [H | H]].
    - vm_compute in H. discriminate.
    - vm_compute in H. discriminate.
    - apply any_in_true in H. vm_compute in H. discriminate. }
  assert (H6 : 4599 < clock w + cache_ttl_seconds default_settings)
    by (simpl; lia).
  assert (H7 : fst (CacheService.check_rate_limit default_settings "acme" "query"
                      (set_clock 4599 w1)) = Ok true)
    by (vm_compute; reflexivity).
  assert (H8 : fst (VectorStore.search env2 "acme"
                      (openai_embedding env2 "How many vacation days are granted?")
                      (top_k_chunks default_settings)
                      (similarity_threshold default_settings) (set_clock 4599 w1))
               = Ok [c2; c1]).
  { rewrite (search_result_indep env2 _ _ _ _ _ w). vm_compute. reflexivity. }
  assert (H9 : map frag_document_id [c2; c1] ≡ₚ map frag_document_id [c1; c2])
    by apply perm_swap.
  split; [exact H1|]. split; [exact H2|]. split; [exact H3|]. split; [exact H4|].
  split; [exact H5|]. split; [exact H6|]. split; [exact H7|]. split; [exact H8|].
  split; [exact H9|].
  destruct (query_repeat_served_from_cache default_settings env1 env2
              sample_request sample_context c1 [c2] [c2; c1] w 4599
              H1 H2 H3 H4 H5 H6 H7 H8 H9)
    as (response & w2 & evs & Hrun & Hc & Ha & _).
  exists response, w2. split; [exact Hrun|]. split; [exact Hc | exact Ha].
Defined.

(** ** The chunker: spans, coverage and overlap *)

Lemma slice_len {A} (l : list A) (a b : Z) :
  0 <= a <= b ->
  LLMService.len (Py.slice l a b) =
  Z.min b (LLMService.len l) - Z.min a (LLMService.len l).
Proof.
  intros Hab. unfold Py.slice, Py.slice_bound, LLMService.len.
  rewrite (proj2 (Z.ltb_ge a 0)) by lia.
  rewrite (proj2 (Z.ltb_ge b 0)) by lia.
  rewrite length_take, length_drop. lia.
Qed.

Lemma range0_lookup_bounds stop step (k : nat) i :
  0 < step -> Py.range0 stop step !! k = Some i ->
  i = Z.of_nat k * step ∧ 0 <= i < stop.
Proof.
  intros Hstep Hk. pose proof (range0_lookup _ _ _ _ Hk) as ->.
  split; [done|]. apply lookup_lt_Some in Hk.
  destruct (Z.lt_ge_cases 0 stop) as [Hs|Hs].
  - pose proof (range0_length stop step Hstep Hs) as Hlen.
    pose proof (Z.mul_div_le (stop - 1) step Hstep). nia.
  - unfold Py.range0 in Hk.
    rewrite (proj2 (Z.ltb_lt 0 step)), (proj2 (Z.ltb_ge 0 stop)) in Hk by lia.
    simpl in Hk. lia.
Qed.

Lemma range0_lookup_Some stop step (k : nat) :
  0 < step -> Z.of_nat k * step < stop ->
  Py.range0 stop step !! k = Some (Z.of_nat k * step).
Proof.
  intros Hstep Hk.
  assert (Hs : 0 < stop) by nia.
  pose proof (range0_length stop step Hstep Hs) as Hlen.
  assert (Hlt : (k < length (Py.range0 stop step))%nat).
  { assert (Z.of_nat k <= (stop - 1) / step); [|lia].
    apply Z.div_le_lower_bound; lia. }
  destruct (lookup_lt_is_Some_2 _ _ Hlt) as [i Hi].
  by rewrite Hi, (range0_lookup _ _ _ _ Hi).
Qed.

Section ChunkSpans.

Variable settings : Settings.
Variable encode : string -> list Z.
Variable decode : list Z -> string.
Variable doc : string.

Hypothesis Hcfg : 0 <= chunk_overlap settings < chunk_size settings.

Local Abbreviation n := (LLMService.len (encode doc)).
Local Abbreviation size := (chunk_size settings).
Local Abbreviation step := (chunk_size settings - chunk_overlap settings).
Local Abbreviation chunks :=
  (imap (window_chunk settings decode (encode doc)) (Py.range0 n step)).

Lemma chunk_text_chunks :
  LLMService.chunk_text settings encode decode doc = Ok chunks.
Proof. apply chunk_text_windows. lia. Qed.

Lemma chunks_lookup (k : nat) c :
  chunks !! k = Some c ->
  c = window_chunk settings decode (encode doc) k (Z.of_nat k * step) ∧
  0 <= Z.of_nat k * step < n.
Proof.
  intros Hc. pose proof (chunk_text_lookup _ _ _ _ _ _ Hc) as ->.
  split; [done|]. rewrite list_lookup_imap in Hc.
  apply fmap_Some in Hc as (i & Hi & _).
  apply range0_lookup_bounds in Hi as [-> Hi]; [done | lia].
Qed.

Lemma chunks_lookup_Some (k : nat) :
  Z.of_nat k * step < n ->
  chunks !! k =
    Some (window_chunk settings decode (encode doc) k (Z.of_nat k * step)).
Proof.
  intros Hk. rewrite list_lookup_imap, range0_lookup_Some by lia. done.
Qed.

Lemma window_chunk_count (k : nat) :
  0 <= Z.of_nat k * step < n ->
  chunk_token_count
    (window_chunk settings decode (encode doc) k (Z.of_nat k * step)) =
  Z.min size (n - Z.of_nat k * step).
Proof.
  intros Hk. unfold window_chunk. simpl. rewrite slice_len by lia. lia.
Qed.

(** Chunks are numbered 0, 1, 2, ... in order, and the chunk of index [k]
    records the number of tokens of its window, which starts at token
    [k * (chunk_size - chunk_overlap)]: [chunk_size] tokens, or what
    is left of the text when that is less. Every chunk has at least one and at
    most [chunk_size] tokens. *)
Theorem chunk_text_spans :
  ∃ cs,
    LLMService.chunk_text settings encode decode doc = Ok cs ∧
    ∀ (k : nat) c, cs !! k = Some c ->
      index c = Z.of_nat k ∧
      chunk_token_count c = Z.min size (n - Z.of_nat k * step) ∧
      1 <= chunk_token_count c <= size.
Proof.
  exists chunks. split; [apply chunk_text_chunks|].
  intros k c Hc. apply chunks_lookup in Hc as [-> Hk].
  rewrite window_chunk_count by done. split; [done|]. lia.
Qed.

(** The token spans of the chunks cover the text: every token position [j]
    lies in the span [index * step, index * step + token_count) of the chunk
    number [j / step], for [step = chunk_size - chunk_overlap]. *)
Theorem chunk_text_covers :
  ∃ cs,
    LLMService.chunk_text settings encode decode doc = Ok cs ∧
    ∀ j, 0 <= j < n ->
      ∃ c, cs !! Z.to_nat (j / step) = Some c ∧
           index c * step <= j < index c * step + chunk_token_count c.
Proof.
  exists chunks. split; [apply chunk_text_chunks|].
  intros j Hj.
  assert (Hq : 0 <= j / step) by (apply Z.div_pos; lia).
  pose proof (Z.mul_div_le j step ltac:(lia)) as Hlo.
  pose proof (Z.mul_succ_div_gt j step ltac:(lia)) as Hhi.
  assert (Hk : 0 <= Z.of_nat (Z.to_nat (j / step)) * step < n)
    by (rewrite Z2Nat.id by done; nia).
  eexists. split; [apply chunks_lookup_Some; lia|].
  rewrite window_chunk_count by done.
  unfold window_chunk. simpl. rewrite Z2Nat.id by done. nia.
Qed.

(** Two consecutive chunks share [chunk_overlap] tokens: the span of the
    earlier one ends [chunk_overlap] tokens after the start of the later one.
    The only exception is a later chunk with fewer tokens than that, which
    then lies entirely inside the earlier chunk. *)
Theorem chunk_text_overlap :
  ∃ cs,
    LLMService.chunk_text settings encode decode doc = Ok cs ∧
    ∀ (k : nat) c c', cs !! k = Some c -> cs !! S k = Some c' ->
      index c' * step = index c * step + step ∧
      index c * step + chunk_token_count c - index c' * step =
        Z.min (chunk_overlap settings) (chunk_token_count c').
Proof.
  exists chunks. split; [apply chunk_text_chunks|].
  intros k c c' Hc Hc'.
  apply chunks_lookup in Hc as [-> Hk].
  apply chunks_lookup in Hc' as [-> Hk'].
  rewrite !window_chunk_count by done.
  unfold window_chunk. simpl. lia.
Qed.

End ChunkSpans.

Lemma chunk_text_spans_witness :
  0 <= chunk_overlap default_settings < chunk_size default_settings ∧
  ∃ c0 c1,
    LLMService.chunk_text default_settings CharTokenizer.encode CharTokenizer.decode
      (CharTokenizer.replicate 600 "a") = Ok [c0; c1] ∧
    chunk_token_count c0 = 500 ∧ chunk_token_count c1 = 150.
Proof.
  assert (H : 0 <= chunk_overlap default_settings < chunk_size default_settings)
    by (simpl; lia).
  split; [exact H|].
  destruct (chunk_text_spans default_settings CharTokenizer.encode
              CharTokenizer.decode (CharTokenizer.replicate 600 "a") H)
    as (cs & Hrun & Hspans).
  assert (Hlen : length cs = 2%nat).
  { assert (Hl : match LLMService.chunk_text default_settings CharTokenizer.encode
                         CharTokenizer.decode (CharTokenizer.replicate 600 "a") with
                 | Ok l => length l
                 | Raise _ => 0%nat
                 end = 2%nat) by (vm_compute; reflexivity).
    by rewrite Hrun in Hl. }
  destruct cs as [|c0 [|c1 [|c2 cs]]]; try discriminate Hlen.
  exists c0, c1. split; [exact Hrun|]. split.
  - destruct (Hspans 0%nat c0 eq_refl) as (_ & -> & _). vm_compute. reflexivity.
  - destruct (Hspans 1%nat c1 eq_refl) as (_ & -> & _). vm_compute. reflexivity.
Defined.

Lemma chunk_text_covers_witness :
  0 <= chunk_overlap default_settings < chunk_size default_settings ∧
  0 <= 475 < LLMService.len (CharTokenizer.encode (CharTokenizer.replicate 600 "a")) ∧
  ∃ cs c,
    LLMService.chunk_text default_settings CharTokenizer.encode CharTokenizer.decode
      (CharTokenizer.replicate 600 "a") = Ok cs ∧
    cs !! 1%nat = Some c ∧
    index c * 450 <= 475 < index c * 450 + chunk_token_count c.
Proof.
  assert (H : 0 <= chunk_overlap default_settings < chunk_size default_settings)
    by (simpl; lia).
  assert (Hj : 0 <= 475 < LLMService.len (CharTokenizer.encode
                                            (CharTokenizer.replicate 600 "a")))
    by (vm_compute; split; [discriminate | reflexivity]).
  split; [exact H|]. split; [exact Hj|].
  destruct (chunk_text_covers default_settings CharTokenizer.encode
              CharTokenizer.decode (CharTokenizer.replicate 600 "a") H)
    as (cs & Hrun & Hcov).
  destruct (Hcov 475 Hj) as (c & Hc & Hspan).
  exists cs, c. split; [exact Hrun|]. split; [exact Hc | exact Hspan].
Defined.

Lemma chunk_text_overlap_witness :
  0 <= chunk_overlap default_settings < chunk_size default_settings ∧
  ∃ c0 c1,
    LLMService.chunk_text default_settings CharTokenizer.encode CharTokenizer.decode
      (CharTokenizer.replicate 600 "a") = Ok [c0; c1] ∧
    index c0 * 450 + chunk_token_count c0 - index c1 * 450 = 50.
Proof.
  assert (H : 0 <= chunk_overlap default_settings < chunk_size default_settings)
    by (simpl; lia).
  split; [exact H|].
  destruct (chunk_text_overlap default_settings CharTokenizer.encode
              CharTokenizer.decode (CharTokenizer.replicate 600 "a") H)
    as (cs & Hrun & Hover).
  assert (Hcs : ∃ c0 c1, cs = [c0; c1] ∧ chunk_token_count c1 = 150).
  { assert (Hl : match LLMService.chunk_text default_settings CharTokenizer.encode
                         CharTokenizer.decode (CharTokenizer.replicate 600 "a") with
                 | Ok [c0; c1] => chunk_token_count c1
                 | _ => 0
                 end = 150) by (vm_compute; reflexivity).
    rewrite Hrun in Hl.
    destruct cs as [|c0 [|c1 [|c2 cs]]]; try discriminate Hl.
    by exists c0, c1. }
  destruct Hcs as (c0 & c1 & -> & Hc1).
  exists c0, c1. split; [exact Hrun|].
  destruct (Hover 0%nat c0 c1 eq_refl eq_refl) as [_ Ho].
  rewrite Hc1 in Ho. exact Ho.
Defined.

(** ** The chunker: what a trimmed chunk looks like *)

Lemma binary_round_aux_nonneg mx ex lx :
  float_nonneg (binary_round_aux 53 1024 false mx ex lx).
Proof.
  unfold binary_round_aux.
  destruct (shr_fexp _ _ _ _ _) as [mrs' e'].
  destruct (shr_fexp _ _ _ _ _) as [mrs'' e''].
  destruct (shr_m mrs''); simpl; [done | | done].
  by destruct (_ <=? _).
Qed.

Lemma trim_threshold_nonneg settings :
  0 < chunk_size settings -> float_nonneg (LLMService.trim_threshold settings).
Proof.
  intros Hsize. unfold LLMService.trim_threshold, Float.of_int, Float.mul.
  destruct (chunk_size settings) as [|p|p]; try lia.
  unfold binary_normalize, binary_round.
  destruct (shl_align _ _ _) as [mz ez].
  pose proof (binary_round_aux_nonneg (Z.pos mz) ez loc_Exact) as Hx.
  destruct (binary_round_aux 53 1024 false (Z.pos mz) ez loc_Exact) as [s|s| |s m e];
    unfold Float.f0_7, SFmul; simpl in *; subst; try done.
  apply binary_round_aux_nonneg.
Qed.

Lemma int_gtb_nonneg n f :
  float_nonneg f -> Float.int_gtb n f = true -> 0 < n.
Proof.
  unfold Float.int_gtb. destruct f as [s|s| |s m e]; simpl.
  - intros _ H. by apply Z.ltb_lt.
  - by intros ->.
  - done.
  - intros -> H. destruct (0 <=? e) eqn:He.
    + apply Z.ltb_lt in H. apply Z.leb_le in He.
      assert (0 < 2 ^ e) by (apply Z.pow_pos_nonneg; lia). nia.
    + apply Z.ltb_lt in H. apply Z.leb_gt in He.
      assert (0 < 2 ^ (- e)) by (apply Z.pow_pos_nonneg; lia). nia.
Qed.

Lemma len_from_nonneg s : ∀ inside, 0 <= Py.len_from s inside.
Proof.
  induction s as [|a s IH]; intros [|k]; simpl; try lia.
  - specialize (IH (Py.char_width a - 1)%nat). lia.
  - apply IH.
Qed.

Lemma take_from_0 s : Py.take_from 0 s 0 = "".
Proof. by destruct s. Qed.

(** Where [rfind] finds the character, the text cut after it ends with it. *)
Lemma rfind_from_spec c s :
  Py.char_width c = 1%nat ->
  ∀ inside i found,
    Py.rfind_from c s inside i found = found ∨
    (i <= Py.rfind_from c s inside i found < i + Py.len_from s inside ∧
     ∃ before,
       Py.take_from (S (Z.to_nat (Py.rfind_from c s inside i found - i))) s inside =
       before +:+ String c "").
Proof.
  intros Hc. induction s as [|a s IH]; intros inside i found; [by left|].
  destruct inside as [|k].
  - cbn [Py.rfind_from Py.len_from].
    destruct (IH (Py.char_width a - 1)%nat (i + 1)
                (if Ascii.eqb a c then i else found)) as [H | [H1 [before H2]]].
    + rewrite H. destruct (Ascii.eqb a c) eqn:Hac; [|by left].
      apply Ascii.eqb_eq in Hac as ->. right. split.
      * pose proof (len_from_nonneg s (Py.char_width c - 1)). lia.
      * exists "". rewrite Z.sub_diag. cbn [Z.to_nat Py.take_from].
        by rewrite Hc, Nat.sub_diag, take_from_0.
    + right. split; [lia|]. exists (String a before).
      replace (Z.to_nat (Py.rfind_from c s (Py.char_width a - 1) (i + 1)
                           (if Ascii.eqb a c then i else found) - i))
        with (S (Z.to_nat (Py.rfind_from c s (Py.char_width a - 1) (i + 1)
                             (if Ascii.eqb a c then i else found) - (i + 1))))
        by lia.
      cbn [Py.take_from]. by rewrite H2, append_cons.
  - cbn [Py.rfind_from Py.len_from].
    destruct (IH k i found) as [H | [H1 [before H2]]]; [by left|].
    right. split; [done|]. exists (String a before).
    cbn [Py.take_from]. by rewrite H2, append_cons.
Qed.

Lemma rfind_spec c s :
  Py.char_width c = 1%nat ->
  Py.rfind c s = -1 ∨
  (0 <= Py.rfind c s < Py.str_len s ∧
   ∃ before, Py.take_from (S (Z.to_nat (Py.rfind c s))) s 0 = before +:+ String c "").
Proof.
  intros Hc. unfold Py.rfind, Py.str_len.
  destruct (rfind_from_spec c s Hc 0 0 (-1)) as [H | [H1 H2]]; [by left|].
  right. split; [lia|]. by rewrite Z.sub_0_r in H2.
Qed.

Lemma take_from_prefix (n : nat) s : ∀ inside,
  String.prefix (Py.take_from n s inside) s = true.
Proof.
  revert n. induction s as [|a s IH]; intros n inside; [done|].
  destruct inside as [|k]; [destruct n as [|n]|]; simpl; try done.
  - destruct (Ascii.ascii_dec a a); [apply IH | done].
  - destruct (Ascii.ascii_dec a a); [apply IH | done].
Qed.

Lemma prefix_refl s : String.prefix s s = true.
Proof.
  induction s as [|a s IH]; simpl; [done|].
  by destruct (Ascii.ascii_dec a a).
Qed.

Lemma take_from_len (n : nat) s : ∀ inside,
  Py.len_from (Py.take_from n s inside) inside =
  Z.min (Z.of_nat n) (Py.len_from s inside).
Proof.
  revert n. induction s as [|a s IH]; intros n inside.
  - simpl. lia.
  - destruct inside as [|k]; [destruct n as [|n]|]; cbn [Py.take_from Py.len_from].
    + pose proof (len_from_nonneg s (Py.char_width a - 1)). lia.
    + rewrite IH. lia.
    + apply IH.
Qed.

Lemma take_from_all (n : nat) s : ∀ inside,
  Py.len_from s inside <= Z.of_nat n -> Py.take_from n s inside = s.
Proof.
  revert n. induction s as [|a s IH]; intros n inside Hn; [done|].
  destruct inside as [|k]; [destruct n as [|n]|]; cbn [Py.take_from Py.len_from] in *.
  - pose proof (len_from_nonneg s (Py.char_width a - 1)). lia.
  - f_equal. apply IH. lia.
  - f_equal. by apply IH.
Qed.

Lemma str_slice_to_take s b :
  0 <= b -> Py.str_slice_to s b = Py.take_from (Z.to_nat b) s 0.
Proof.
  intros Hb. unfold Py.str_slice_to, Py.slice_bound.
  rewrite (proj2 (Z.ltb_ge b 0)) by lia.
  destruct (Z.le_gt_cases b (Py.str_len s)) as [H|H].
  - by rewrite Z.min_l.
  - rewrite Z.min_r by lia. unfold Py.str_len in *.
    rewrite !take_from_all; [done | lia |].
    pose proof (len_from_nonneg s 0). lia.
Qed.

(** The text of a chunk is the decoded text of its token window or, when
    the window was trimmed, the beginning of that text up to and including
    its last '.': a trimmed chunk is never empty, it ends with '.', and no
    text is ever added to a window. *)
Theorem chunk_text_trimmed_text (settings : Settings)
    (encode : string -> list Z) (decode : list Z -> string) (doc : string) :
  0 <= chunk_overlap settings < chunk_size settings ->
  let step := chunk_size settings - chunk_overlap settings in
  ∃ cs,
    LLMService.chunk_text settings encode decode doc = Ok cs ∧
    ∀ (k : nat) c, cs !! k = Some c ->
      let decoded :=
        decode (Py.slice (encode doc) (Z.of_nat k * step)
                  (Z.of_nat k * step + chunk_size settings)) in
      String.prefix (text c) decoded = true ∧
      (text c = decoded ∨
       ∃ before, text c = before +:+ "." ∧
                 Py.str_len (text c) = Py.rfind "." decoded + 1).
Proof.
  intros Hcfg step.
  rewrite (chunk_text_windows settings encode decode doc) by lia.
  eexists. split; [reflexivity|].
  intros k c Hc decoded. apply chunk_text_lookup in Hc as ->.
  unfold window_chunk. cbn [text]. fold step decoded.
  destruct (_ <? _); cbn [andb]; [|split; [apply prefix_refl | by left]].
  destruct (Float.int_gtb _ _) eqn:Hgt; [|split; [apply prefix_refl | by left]].
  apply int_gtb_nonneg in Hgt; [|apply trim_threshold_nonneg; lia].
  destruct (rfind_spec "." decoded eq_refl) as [Hnone | [Hrange [before Hcut]]];
    [lia|].
  rewrite str_slice_to_take by lia. split; [apply take_from_prefix|]. right.
  replace (Z.to_nat (Py.rfind "." decoded + 1))
    with (S (Z.to_nat (Py.rfind "." decoded))) by lia.
  exists before. split; [exact Hcut|].
  unfold Py.str_len. rewrite take_from_len. fold (Py.str_len decoded). lia.
Qed.

Lemma chunk_text_trimmed_text_witness :
  0 <= chunk_overlap default_settings < chunk_size default_settings ∧
  ∃ cs c,
    LLMService.chunk_text default_settings CharTokenizer.encode CharTokenizer.decode
      (CharTokenizer.replicate 400 "a" +:+ "." +:+ CharTokenizer.replicate 199 "b")
      = Ok cs ∧
    cs !! 0%nat = Some c ∧
    text c = CharTokenizer.replicate 400 "a" +:+ ".".
Proof.
  assert (H : 0 <= chunk_overlap default_settings < chunk_size default_settings)
    by (simpl; lia).
  split; [exact H|].
  destruct (chunk_text_trimmed_text default_settings CharTokenizer.encode
              CharTokenizer.decode
              (CharTokenizer.replicate 400 "a" +:+ "." +:+
               CharTokenizer.replicate 199 "b") H)
    as (cs & Hrun & _).
  assert (Hc : match LLMService.chunk_text default_settings CharTokenizer.encode
                       CharTokenizer.decode
                       (CharTokenizer.replicate 400 "a" +:+ "." +:+
                        CharTokenizer.replicate 199 "b") with
               | Ok (c :: _) => text c
               | _ => ""
               end = CharTokenizer.replicate 400 "a" +:+ ".")
    by (vm_compute; reflexivity).
  rewrite Hrun in Hc. destruct cs as [|c cs].
  - apply (f_equal String.length) in Hc. vm_compute in Hc. discriminate Hc.
  - exists (c :: cs), c. split; [exact Hrun|]. split; [reflexivity | exact Hc].
Defined.

(** A stride of zero or less breaks the chunker for every text, the empty
    one included: with [chunk_overlap = chunk_size] it raises [ValueError],
    and with [chunk_overlap > chunk_size] it returns no chunk at all, so the
    whole document is dropped without an error. *)
Theorem chunk_text_degenerate_stride (settings : Settings)
    (encode : string -> list Z) (decode : list Z -> string) (doc : string) :
  (chunk_overlap settings = chunk_size settings ->
   LLMService.chunk_text settings encode decode doc =
     Raise (ValueError "range() arg 3 must not be zero")) ∧
  (chunk_size settings < chunk_overlap settings ->
   LLMService.chunk_text settings encode decode doc = Ok []).
Proof.
  unfold LLMService.chunk_text. split; intros H.
  - by rewrite (proj2 (Z.eqb_eq _ _)) by lia.
  - rewrite (proj2 (Z.eqb_neq _ _)) by lia.
    unfold Py.range0. by rewrite (proj2 (Z.ltb_ge _ _)) by lia.
Qed.

Lemma chunk_text_degenerate_stride_witness :
  let settings := {| chunk_size := 50; chunk_overlap := 500; top_k_chunks := 5;
                     similarity_threshold := Float.f0_7; queries_per_minute := 10;
                     queries_per_hour := 100; cache_ttl_seconds := 3600 |} in
  chunk_size settings < chunk_overlap settings ∧
  LLMService.chunk_text settings CharTokenizer.encode CharTokenizer.decode
    "A document." = Ok [].
Proof.
  intros settings.
  assert (H : chunk_size settings < chunk_overlap settings) by (simpl; lia).
  split; [exact H|].
  by apply (chunk_text_degenerate_stride settings CharTokenizer.encode
              CharTokenizer.decode "A document.").
Defined.

(** ** Counters and cached answers do not interfere *)

(** The limiter's answer depends on the clock and on its own counter only. *)
Lemma check_rate_limit_result settings tenant operation w w' :
  clock w = clock w' ->
  redis w !! CacheService.rate_limit_key tenant operation (Z.quot (clock w) 60) =
  redis w' !! CacheService.rate_limit_key tenant operation (Z.quot (clock w) 60) ->
  fst (CacheService.check_rate_limit settings tenant operation w) =
  fst (CacheService.check_rate_limit settings tenant operation w').
Proof.
  intros Hclock Hkey.
  unfold CacheService.check_rate_limit, Redis.incr, Redis.expire, bind, emit,
    time_time, get_redis, put_redis, ret, raise. simpl.
  rewrite <- Hclock.
  set (key := CacheService.rate_limit_key tenant operation (Z.quot (clock w) 60)) in *.
  unfold Redis.lookup at 1 3. rewrite <- Hkey.
  destruct (redis w !! key) as [[[n|r] ex]|]; simpl.
  - destruct (Redis.live _ _); simpl.
    + destruct (n + 1 =? 1); simpl.
      * unfold Redis.lookup. rewrite !lookup_insert_eq.
        destruct (Redis.live _ _); simpl; by destruct (_ <? _).
      * by destruct (_ <? _).
    + unfold Redis.lookup. rewrite !lookup_insert_eq. simpl.
      by destruct (_ <? _).
  - destruct (Redis.live _ _); simpl; [reflexivity|].
    unfold Redis.lookup. rewrite !lookup_insert_eq. simpl.
    by destruct (_ <? _).
  - unfold Redis.lookup. rewrite !lookup_insert_eq. simpl.
    by destruct (_ <? _).
Qed.

Lemma colon_free_cons a s :
  colon_free (String a s) <-> a ≠ ":"%char ∧ colon_free s.
Proof.
  unfold colon_free.
  change (Py.contains ":" (String a s))
    with ((if Ascii.ascii_dec ":" a then String.prefix "" s else false)
          || Py.contains ":" s).
  destruct (Ascii.ascii_dec ":" a) as [<-|Hne].
  - assert (String.prefix "" s = true) as -> by (by destruct s).
    split; [done | by intros [[] _]].
  - split; [intros H; split; [congruence | done] | by intros [_ H]].
Qed.

Lemma split_at_colon a b x y :
  colon_free a -> colon_free b ->
  a +:+ ":" +:+ x = b +:+ ":" +:+ y -> a = b ∧ x = y.
Proof.
  revert b. induction a as [|c a IH]; intros [|d b] Ha Hb H.
  - rewrite !append_nil_l in H. by injection H.
  - apply colon_free_cons in Hb as [Hd _].
    rewrite append_nil_l, !append_cons in H. injection H as H _. congruence.
  - apply colon_free_cons in Ha as [Hc _].
    rewrite append_nil_l, !append_cons in H. injection H as H _. congruence.
  - apply colon_free_cons in Ha as [_ Ha]. apply colon_free_cons in Hb as [_ Hb].
    rewrite !append_cons in H. injection H as -> H.
    destruct (IH b Ha Hb H) as [-> ->]. done.
Qed.

(** Tenants whose identifiers contain no ':' (UUIDs) never share a rate
    counter, whatever the operations and minutes, and a call of one tenant
    does not change the limiter's answer to another tenant. *)
Theorem rate_limit_tenants_independent settings t1 t2 op1 op2 w :
  colon_free t1 -> colon_free t2 -> t1 ≠ t2 ->
  (∀ m1 m2, CacheService.rate_limit_key t1 op1 m1 ≠
            CacheService.rate_limit_key t2 op2 m2) ∧
  fst (CacheService.check_rate_limit settings t2 op2
         (snd (CacheService.check_rate_limit settings t1 op1 w))) =
  fst (CacheService.check_rate_limit settings t2 op2 w).
Proof.
  intros H1 H2 Hne.
  assert (Hkeys : ∀ m1 m2, CacheService.rate_limit_key t1 op1 m1 ≠
                           CacheService.rate_limit_key t2 op2 m2).
  { intros m1 m2 H. unfold CacheService.rate_limit_key in H.
    apply (inj (String.append "ratelimit:")) in H.
    by destruct (split_at_colon _ _ _ _ H1 H2 H). }
  split; [exact Hkeys|].
  destruct (check_rate_limit_frame settings t1 op1 w) as (Hclock & Hredis & _).
  symmetry. apply check_rate_limit_result; [done|].
  symmetry. apply Hredis. intros [m H]. by apply (Hkeys m (Z.quot (clock w) 60)).
Qed.

Lemma rate_limit_tenants_independent_witness :
  colon_free "123e4567-e89b-12d3-a456-426614174000" ∧
  colon_free "9b2c1f5e-0d4a-4c6b-8f3e-2a7d9c1b5e60" ∧
  "123e4567-e89b-12d3-a456-426614174000" ≠ "9b2c1f5e-0d4a-4c6b-8f3e-2a7d9c1b5e60" ∧
  fst (CacheService.check_rate_limit default_settings
         "9b2c1f5e-0d4a-4c6b-8f3e-2a7d9c1b5e60" "query"
         (snd (CacheService.check_rate_limit default_settings
                 "123e4567-e89b-12d3-a456-426614174000" "query" (empty_world 1000)))) =
  fst (CacheService.check_rate_limit default_settings
         "9b2c1f5e-0d4a-4c6b-8f3e-2a7d9c1b5e60" "query" (empty_world 1000)).
Proof.
  assert (H1 : colon_free "123e4567-e89b-12d3-a456-426614174000")
    by (vm_compute; reflexivity).
  assert (H2 : colon_free "9b2c1f5e-0d4a-4c6b-8f3e-2a7d9c1b5e60")
    by (vm_compute; reflexivity).
  assert (H3 : "123e4567-e89b-12d3-a456-426614174000" ≠
               "9b2c1f5e-0d4a-4c6b-8f3e-2a7d9c1b5e60")
    by (apply String.eqb_neq; vm_compute; reflexivity).
  split; [exact H1|]. split; [exact H2|]. split; [exact H3|].
  apply (rate_limit_tenants_independent default_settings _ _ "query" "query"
           (empty_world 1000) H1 H2 H3).
Defined.

(** The limiter and the cache use disjoint keys: running the limiter does not
    change what a cache lookup returns, and offering an answer to the cache
    does not change the limiter's next answer. *)
Theorem limiter_and_cache_independent settings tenant operation t q ids
    response ttl w :
  fst (CacheService.get_cached_response t q ids
         (snd (CacheService.check_rate_limit settings tenant operation w))) =
  fst (CacheService.get_cached_response t q ids w) ∧
  fst (CacheService.check_rate_limit settings tenant operation
         (snd (CacheService.cache_response settings t q ids response ttl w))) =
  fst (CacheService.check_rate_limit settings tenant operation w).
Proof.
  split.
  - rewrite !get_cached_response_run. simpl.
    by rewrite (lookup_after_limiter tenant operation t q ids w _
                  (check_rate_limit_frame settings tenant operation w)).
  - symmetry.
    assert (Hf : frame (fun k => k = CacheService._generate_cache_key t q ids)
                   (fun _ => True) w
                   (snd (CacheService.cache_response settings t q ids response ttl w))).
    { unfold CacheService.cache_response.
      destruct (CacheService.get_confidence response) as [conf|];
        [|apply frame_refl].
      destruct (Float.ltb _ _); [apply frame_refl|].
      destruct (CacheService.get_insufficient_context _); [apply frame_refl|].
      destruct (Py.any_in _ _); [apply frame_refl|].
      unfold Redis.setex, bind, emit, time_time, get_redis, put_redis, ret, raise.
      simpl. destruct (_ <=? _); simpl.
      - split; [done|]. split; [done|]. eexists. split; [reflexivity|].
        by repeat constructor.
      - split; [done|]. split.
        + intros k Hk. simpl. apply lookup_insert_ne. intros Heq. by apply Hk.
        + eexists. split; [reflexivity|]. by repeat constructor. }
    destruct Hf as (Hclock & Hredis & _).
    apply check_rate_limit_result; [done|].
    symmetry. apply Hredis. intros H.
    apply (cache_key_not_counter tenant operation t q ids). eexists.
    symmetry. exact H.
Qed.

(** ** Ingestion *)

Section Ingestion.

Import Ingest.

Variable settings : Settings.
Variable env : oracles.
Variable encode : string -> list Z.
Variable decode : list Z -> string.

Lemma attach_enough i chunks data :
  (i + length chunks <= length data)%nat ->
  attach i chunks data = Done (zip_with embedded chunks (drop i data)).
Proof.
  revert i. induction chunks as [|c chunks IH]; intros i Hlen; simpl; [done|].
  simpl in Hlen.
  destruct (lookup_lt_is_Some_2 data i ltac:(lia)) as [d Hd].
  rewrite Hd, IH by lia. by rewrite (drop_S _ _ _ Hd).
Qed.

Lemma attach_short i chunks data :
  (i <= length data < i + length chunks)%nat ->
  attach i chunks data = Failed (IndexError "list index out of range").
Proof.
  revert i. induction chunks as [|c chunks IH]; intros i Hlen; simpl in *; [lia|].
  destruct (data !! i) as [d|] eqn:Hd; [|done].
  apply lookup_lt_Some in Hd. by rewrite IH by lia.
Qed.

Lemma embed_chunks_enough (chunks : list Chunk) (s : state) :
  (length chunks <= length (embeddings_create env (map text chunks)))%nat ->
  embed_chunks env chunks s =
    (Done (zip_with embedded chunks (embeddings_create env (map text chunks))),
     with_calls [EmbeddingsCreate (map text chunks)] s) ∧
  length (zip_with embedded chunks (embeddings_create env (map text chunks))) =
    length chunks.
Proof.
  intros Hlen. unfold embed_chunks, ibind, record. simpl.
  rewrite attach_enough by (simpl; lia). simpl. split; [done|].
  rewrite length_zip_with. lia.
Qed.

Lemma embed_chunks_short (chunks : list Chunk) (s : state) :
  (length (embeddings_create env (map text chunks)) < length chunks)%nat ->
  embed_chunks env chunks s =
    (Failed (IndexError "list index out of range"),
     with_calls [EmbeddingsCreate (map text chunks)] s).
Proof.
  intros Hlen. unfold embed_chunks, ibind, record. simpl.
  by rewrite attach_short by (simpl; lia).
Qed.

(** [embed_chunks] sends the chunk texts in one request, in order, and sets
    on the [k]-th chunk the [k]-th embedding of the answer: text, index and
    token count are kept and no chunk is added or lost. When the answer holds
    fewer embeddings than there are chunks it raises [IndexError]. *)
Theorem embed_chunks_attaches (chunks : list Chunk) (s : state) :
  let data := embeddings_create env (map text chunks) in
  ((length chunks <= length data)%nat ->
   ∃ out,
     embed_chunks env chunks s =
       (Done out, with_calls [EmbeddingsCreate (map text chunks)] s) ∧
     length out = length chunks ∧
     ∀ (k : nat) ec, out !! k = Some ec ->
       ∃ chunk embedding,
         chunks !! k = Some chunk ∧ data !! k = Some embedding ∧
         ec_text ec = text chunk ∧ ec_index ec = index chunk ∧
         ec_token_count ec = chunk_token_count chunk ∧
         ec_embedding ec = embedding) ∧
  ((length data < length chunks)%nat ->
   embed_chunks env chunks s =
     (Failed (IndexError "list index out of range"),
      with_calls [EmbeddingsCreate (map text chunks)] s)).
Proof.
  intros data. split.
  - intros Hlen. destruct (embed_chunks_enough chunks s Hlen) as [Hrun Hout].
    eexists. split; [exact Hrun|]. split; [exact Hout|].
    intros k ec Hec.
    apply lookup_zip_with_Some in Hec as (c & d & -> & Hc & Hd).
    by exists c, d.
  - apply embed_chunks_short.
Qed.

Lemma listed_iff (m : gmap string (list PointStruct)) name :
  name ∈ map fst (map_to_list m) <-> is_Some (m !! name).
Proof.
  rewrite list_elem_of_In, in_map_iff. split.
  - intros ([k pts] & <- & Hin). apply list_elem_of_In in Hin.
    apply elem_of_map_to_list in Hin. by eexists.
  - intros [pts Hpts]. exists (name, pts). split; [done|].
    apply list_elem_of_In. by apply elem_of_map_to_list.
Qed.

Lemma ensure_collection_existing tenant s :
  is_Some (collections s !! VectorStore._get_collection_name tenant) ->
  ensure_collection tenant s = (Done tt, with_calls [GetCollections] s).
Proof.
  intros Hin. unfold ensure_collection, get_collections, ibind, record. simpl.
  rewrite bool_decide_eq_false_2; [done|].
  intros Hn. apply Hn. by apply listed_iff.
Qed.

Lemma ensure_collection_missing tenant s :
  collections s !! VectorStore._get_collection_name tenant = None ->
  ensure_collection tenant s =
    (Done tt,
     {| collections := <[VectorStore._get_collection_name tenant := []]> (collections s);
        uuid_draws := uuid_draws s;
        calls := calls s ++
          [GetCollections;
           CreateCollection (VectorStore._get_collection_name tenant) 1536 "Cosine";
           CreatePayloadIndex (VectorStore._get_collection_name tenant)
             "tenant_id" "keyword"] |}).
Proof.
  intros Hout. unfold ensure_collection, get_collections, create_collection,
    create_payload_index, ibind, record. simpl.
  rewrite bool_decide_eq_true_2.
  - simpl. by rewrite <- !app_assoc.
  - intros Hin. apply listed_iff in Hin. rewrite Hout in Hin. by destruct Hin.
Qed.

(** [ensure_collection] creates the tenant's partition, empty and with its
    payload index on [tenant_id], exactly when it is not listed, and
    otherwise only lists the partitions; it never touches the points of an
    existing partition, and calling it again only lists the partitions. *)
Theorem ensure_collection_idempotent (tenant : string) (s : state) :
  let name := VectorStore._get_collection_name tenant in
  let s1 := snd (ensure_collection tenant s) in
  fst (ensure_collection tenant s) = Done tt ∧
  is_Some (collections s1 !! name) ∧
  (∀ c points, collections s !! c = Some points ->
               collections s1 !! c = Some points) ∧
  (collections s !! name = None -> collections s1 !! name = Some []) ∧
  ensure_collection tenant s1 = (Done tt, with_calls [GetCollections] s1) ∧
  (is_Some (collections s !! name) -> calls s1 = calls s ++ [GetCollections]) ∧
  (collections s !! name = None ->
   calls s1 =
     calls s ++
     [GetCollections;
      CreateCollection name 1536 "Cosine";
      CreatePayloadIndex name "tenant_id" "keyword"]).
Proof.
  intros name s1.
  assert (Hex : is_Some (collections s1 !! name) ∧ fst (ensure_collection tenant s) = Done tt ∧
                (∀ c points, collections s !! c = Some points ->
                             collections s1 !! c = Some points) ∧
                (collections s !! name = None -> collections s1 !! name = Some [])).
  { unfold s1. destruct (collections s !! name) as [pts|] eqn:Hname.
    - rewrite ensure_collection_existing by (by eexists). simpl.
      rewrite Hname. by repeat split.
    - rewrite ensure_collection_missing by done. simpl. fold name.
      rewrite lookup_insert_eq. repeat split; try done.
      intros c points Hc. rewrite lookup_insert_ne; [done|]. congruence. }
  destruct Hex as (H1 & H2 & H3 & H4).
  split; [done|]. split; [done|]. split; [done|]. split; [done|].
  split; [by apply ensure_collection_existing|]. split.
  - intros Hin. unfold s1. by rewrite ensure_collection_existing.
  - intros Hout. unfold s1. by rewrite ensure_collection_missing.
Qed.

Lemma build_points_run tenant document_id document_name total chunks : ∀ s,
  build_points env tenant document_id document_name total chunks s =
    (Done (imap (fun k chunk =>
                   point_of tenant document_id document_name total
                     (uuid4 env (uuid_draws s + k)) chunk) chunks),
     {| collections := collections s;
        uuid_draws := uuid_draws s + length chunks;
        calls := calls s |}).
Proof.
  induction chunks as [|c chunks IH]; intros s; simpl.
  - unfold iret. do 2 f_equal. destruct s. simpl. f_equal. lia.
  - unfold ibind, draw_uuid, iret. rewrite IH. simpl.
    rewrite Nat.add_0_r. do 2 f_equal.
    + f_equal. apply imap_ext. intros k x _. simpl. do 2 f_equal. lia.
    + f_equal. lia.
Qed.

Lemma put_point_elem p q stored :
  q ∈ put_point p stored -> q = p ∨ q ∈ stored.
Proof.
  induction stored as [|r stored IH]; simpl.
  - intros H. apply list_elem_of_singleton in H. by left.
  - destruct (String.eqb _ _).
    + intros H. apply elem_of_cons in H as [-> | H]; [by left|].
      right. by apply list_elem_of_further.
    + intros H. apply elem_of_cons in H as [-> | H].
      * right. apply list_elem_of_here.
      * destruct (IH H) as [-> | Hin]; [by left|].
        right. by apply list_elem_of_further.
Qed.

Lemma put_points_elem points : ∀ stored q,
  q ∈ fold_left (fun acc p => put_point p acc) points stored ->
  q ∈ points ∨ q ∈ stored.
Proof.
  induction points as [|p points IH]; intros stored q; simpl; [by right|].
  intros H. destruct (IH _ _ H) as [Hin | Hin].
  - left. by apply list_elem_of_further.
  - destruct (put_point_elem _ _ _ Hin) as [-> | Hs]; [|by right].
    left. apply list_elem_of_here.
Qed.

(** The run of [store_chunks]. *)
Lemma store_chunks_run tenant document_id document_name chunks s :
  let name := VectorStore._get_collection_name tenant in
  let points :=
    imap (fun k chunk =>
            point_of tenant document_id document_name (Z.of_nat (length chunks))
              (uuid4 env (uuid_draws s + k)) chunk) chunks in
  store_chunks env tenant document_id document_name chunks s =
    (Done tt,
     {| collections :=
          <[name := fold_left (fun acc p => put_point p acc) points
                      (default [] (collections s !! name))]> (collections s);
        uuid_draws := uuid_draws s + length chunks;
        calls := calls s ++
          GetCollections ::
          match collections s !! name with
          | Some _ => []
          | None => [CreateCollection name 1536 "Cosine";
                     CreatePayloadIndex name "tenant_id" "keyword"]
          end ++
          [Upsert name points] |}).
Proof.
  intros name points. unfold store_chunks. fold name. unfold ibind at 1.
  destruct (collections s !! name) as [pts|] eqn:Hname.
  - rewrite ensure_collection_existing by (by eexists).
    unfold ibind at 1. rewrite build_points_run. simpl. fold points.
    unfold upsert, ibind, record. simpl. rewrite Hname. simpl.
    by rewrite <- !app_assoc.
  - rewrite ensure_collection_missing by done. fold name.
    unfold ibind at 1. rewrite build_points_run. simpl. fold points.
    unfold upsert, ibind, record. simpl. rewrite lookup_insert_eq. simpl.
    by rewrite insert_insert_eq, <- !app_assoc.
Qed.


(** [store_chunks] lists the partitions, creates the tenant's partition
    (with its payload index) exactly when it does not exist yet, and then
    sends one upsert to it, with one point per chunk in the order of the
    chunks: each point carries the storing tenant, the document, the text,
    index and token count of its chunk, the number of chunks stored as
    [total_chunks], the chunk's embedding as vector and a freshly drawn
    identifier. No other partition is written. *)
Theorem store_chunks_points tenant document_id document_name chunks s :
  let name := VectorStore._get_collection_name tenant in
  let s' := snd (store_chunks env tenant document_id document_name chunks s) in
  ∃ points,
    fst (store_chunks env tenant document_id document_name chunks s) = Done tt ∧
    (is_Some (collections s !! name) ->
     calls s' = calls s ++ [GetCollections; Upsert name points]) ∧
    (collections s !! name = None ->
     calls s' =
       calls s ++
       [GetCollections;
        CreateCollection name 1536 "Cosine";
        CreatePayloadIndex name "tenant_id" "keyword";
        Upsert name points]) ∧
    length points = length chunks ∧
    (∀ (k : nat) p, points !! k = Some p ->
       ∃ chunk, chunks !! k = Some chunk ∧
         point_id p = uuid4 env (uuid_draws s + k) ∧
         point_vector p = ec_embedding chunk ∧
         point_payload p =
           {| tenant_id := Some tenant;
              document_id := document_id;
              document_name := document_name;
              chunk_text := ec_text chunk;
              chunk_index := ec_index chunk;
              total_chunks := Z.of_nat (length chunks);
              token_count := ec_token_count chunk |}) ∧
    is_Some (collections s' !! name) ∧
    (∀ c, c ≠ name -> collections s' !! c = collections s !! c).
Proof.
  intros name s'. unfold s'. rewrite store_chunks_run. fold name. simpl.
  exists (imap (fun k chunk =>
                  point_of tenant document_id document_name
                    (Z.of_nat (length chunks)) (uuid4 env (uuid_draws s + k)) chunk)
            chunks).
  split; [reflexivity|].
  split; [|split; [|split; [by rewrite length_imap|split; [|split]]]].
  - intros [pts Hpts]. by rewrite Hpts.
  - intros Hnone. by rewrite Hnone.
  - intros k p Hp. rewrite list_lookup_imap in Hp.
    apply fmap_Some in Hp as (chunk & Hchunk & ->). by exists chunk.
  - rewrite lookup_insert_eq. by eexists.
  - intros c Hc. by apply lookup_insert_ne.
Qed.

(** [store_chunks] keeps the index well partitioned: when every stored
    point lies in the partition named after the tenant of its payload, this
    still holds after the call. *)
Theorem store_chunks_well_partitioned tenant document_id document_name chunks s :
  well_partitioned (collections s) ->
  well_partitioned
    (collections (snd (store_chunks env tenant document_id document_name chunks s))).
Proof.
  intros Hwp. rewrite store_chunks_run. simpl.
  intros name points p Hname Hp.
  destruct (decide (name = VectorStore._get_collection_name tenant)) as [->|Hne].
  - rewrite lookup_insert_eq in Hname. injection Hname as <-.
    apply put_points_elem in Hp as [Hp | Hp].
    + apply list_elem_of_lookup in Hp as [k Hk]. rewrite list_lookup_imap in Hk.
      apply fmap_Some in Hk as (chunk & _ & ->). by exists tenant.
    + destruct (collections s !! VectorStore._get_collection_name tenant)
        as [pts|] eqn:Hpts; simpl in Hp.
      * by apply (Hwp _ _ _ Hpts).
      * by apply elem_of_nil in Hp.
  - rewrite lookup_insert_ne in Hname by done. by apply (Hwp _ _ _ Hname).
Qed.


(** An upload indexes every chunk of the document: when chunking succeeds and
    the embedding model answers with an embedding per chunk, the document row
    is created first, the chunk texts are embedded in one request, one point
    per chunk is upserted into the tenant's partition, the audit record is
    written last, and the response counts the chunks. The [k]-th point
    carries the tenant, the new document identifier, chunk index [k], the
    text and token count of the [k]-th chunk and the number of chunks. *)
Theorem upload_document_indexes_every_chunk tenant filename content_type content
    chunks s :
  LLMService.chunk_text settings encode decode content = Ok chunks ->
  (length chunks <= length (embeddings_create env (map text chunks)))%nat ->
  let name := VectorStore._get_collection_name tenant in
  let id := new_document_id env (calls s) in
  ∃ response s' points created,
    upload_document settings env encode decode tenant filename content_type
      content s = (Done response, s') ∧
    up_document_id response = id ∧
    chunks_count response = Z.of_nat (length chunks) ∧
    calls s' =
      calls s ++
      [DbCreateDocument tenant filename content
         (content_type_or_default content_type);
       EmbeddingsCreate (map text chunks);
       GetCollections] ++ created ++
      [Upsert name points;
       DbAuditLog tenant "document_upload" "document" id filename
         (Z.of_nat (length chunks))] ∧
    length points = length chunks ∧
    ∀ (k : nat) p, points !! k = Some p ->
      ∃ chunk, chunks !! k = Some chunk ∧
        tenant_id (point_payload p) = Some tenant ∧
        document_id (point_payload p) = id ∧
        document_name (point_payload p) = filename ∧
        chunk_index (point_payload p) = Z.of_nat k ∧
        chunk_text (point_payload p) = text chunk ∧
        token_count (point_payload p) = chunk_token_count chunk ∧
        total_chunks (point_payload p) = Z.of_nat (length chunks).
Proof.
  intros Hchunks Hdata name id.
  assert (Hindex : ∀ (k : nat) c, chunks !! k = Some c -> index c = Z.of_nat k).
  { destruct (decide (chunk_size settings - chunk_overlap settings = 0)) as [H0|H0].
    - unfold LLMService.chunk_text in Hchunks.
      by rewrite (proj2 (Z.eqb_eq _ _) H0) in Hchunks.
    - rewrite chunk_text_windows in Hchunks by done. injection Hchunks as <-.
      intros k c Hc. by apply chunk_text_lookup in Hc as ->. }
  unfold upload_document, ibind at 1, create_document.
  unfold ibind at 1. rewrite Hchunks. unfold iret at 1.
  unfold ibind at 1.
  destruct (embed_chunks_enough chunks
              (with_calls [DbCreateDocument tenant filename content
                 (content_type_or_default content_type)] s) Hdata) as [Hrun Hlen].
  unfold with_calls in Hrun at 1.
  rewrite Hrun. unfold ibind at 1. rewrite store_chunks_run.
  unfold ibind, record, iret. simpl. fold name id.
  rewrite <- !app_assoc. simpl. rewrite Hlen.
  match goal with |- context [Upsert name ?pts] => set (points := pts) end.
  match goal with |- context [?c ++ [Upsert name points]] =>
    set (created := c) end.
  eexists _, _, points, created. split; [reflexivity|]. split; [reflexivity|].
  split; [reflexivity|].
  split; [simpl; by rewrite <- (app_assoc created)|].
  split; [unfold points; by rewrite length_imap|].
  unfold points.
  intros k p Hp. rewrite list_lookup_imap in Hp.
  apply fmap_Some in Hp as (ec & Hec & ->).
  apply lookup_zip_with_Some in Hec as (c & d & -> & Hc & Hd).
  exists c. split; [done|]. simpl.
  repeat split; try done. by apply Hindex.
Qed.

(** An upload that fails keeps the document row: the row is created before
    the text is chunked, so when chunking raises, or the embedding answer is
    too short, the upload fails with nothing embedded into the index and no
    audit record, and the document stays in the database. *)
Theorem upload_document_failure_keeps_document tenant filename content_type
    content s :
  let row :=
    DbCreateDocument tenant filename content
      (content_type_or_default content_type) in
  (∀ e, LLMService.chunk_text settings encode decode content = Raise e ->
     upload_document settings env encode decode tenant filename content_type
       content s = (Failed (Core e), with_calls [row] s)) ∧
  (∀ chunks,
     LLMService.chunk_text settings encode decode content = Ok chunks ->
     (length (embeddings_create env (map text chunks)) < length chunks)%nat ->
     upload_document settings env encode decode tenant filename content_type
       content s =
       (Failed (IndexError "list index out of range"),
        with_calls [row; EmbeddingsCreate (map text chunks)] s)).
Proof.
  intros row. split.
  - intros e He. unfold upload_document, ibind at 1, create_document.
    unfold ibind at 1. rewrite He. reflexivity.
  - intros chunks Hchunks Hdata.
    unfold upload_document, ibind at 1, create_document.
    unfold ibind at 1. rewrite Hchunks. unfold iret at 1. unfold ibind at 1.
    rewrite embed_chunks_short by done. unfold with_calls. simpl.
    by rewrite <- !app_assoc.
Qed.

End Ingestion.

Lemma embed_chunks_attaches_witness :
  let chunks := [{| text := "One."; index := 0; chunk_token_count := 4 |};
                 {| text := "Two."; index := 1; chunk_token_count := 4 |}] in
  (length chunks <=
   length (Ingest.embeddings_create sample_oracles (map text chunks)))%nat ∧
  (length (Ingest.embeddings_create silent_oracles (map text chunks)) <
   length chunks)%nat ∧
  (∃ out, fst (Ingest.embed_chunks sample_oracles chunks empty_index) =
            Ingest.Done out ∧ length out = 2%nat) ∧
  fst (Ingest.embed_chunks silent_oracles chunks empty_index) =
    Ingest.Failed (Ingest.IndexError "list index out of range").
Proof.
  intros chunks.
  assert (H1 : (length chunks <=
                length (Ingest.embeddings_create sample_oracles (map text chunks)))%nat)
    by (simpl; lia).
  assert (H2 : (length (Ingest.embeddings_create silent_oracles (map text chunks)) <
                length chunks)%nat) by (simpl; lia).
  split; [exact H1|]. split; [exact H2|]. split.
  - destruct (embed_chunks_attaches sample_oracles chunks empty_index) as [Hok _].
    destruct (Hok H1) as (out & Hrun & Hlen & _).
    exists out. by rewrite Hrun.
  - destruct (embed_chunks_attaches silent_oracles chunks empty_index) as [_ Hshort].
    by rewrite (Hshort H2).
Defined.

Lemma ensure_collection_idempotent_witness :
  Ingest.collections empty_index !! VectorStore._get_collection_name "acme" = None ∧
  Ingest.collections (snd (Ingest.ensure_collection "acme" empty_index)) !!
    VectorStore._get_collection_name "acme" = Some [].
Proof.
  assert (H : Ingest.collections empty_index !!
                VectorStore._get_collection_name "acme" = None)
    by apply lookup_empty.
  split; [exact H|].
  destruct (ensure_collection_idempotent "acme" empty_index)
    as (_ & _ & _ & Hnew & _).
  exact (Hnew H).
Defined.

Lemma store_chunks_points_witness :
  let chunk := {| Ingest.ec_text := "One."; Ingest.ec_index := 0;
                  Ingest.ec_token_count := 4; Ingest.ec_embedding := [] |} in
  let name := VectorStore._get_collection_name "acme" in
  Ingest.collections empty_index !! name = None ∧
  ∃ p,
    Ingest.calls (snd (Ingest.store_chunks sample_oracles "acme" "doc-1" "a.md"
                         [chunk] empty_index)) =
      [Ingest.GetCollections;
       Ingest.CreateCollection name 1536 "Cosine";
       Ingest.CreatePayloadIndex name "tenant_id" "keyword";
       Ingest.Upsert name [p]] ∧
    tenant_id (Ingest.point_payload p) = Some "acme" ∧
    total_chunks (Ingest.point_payload p) = 1.
Proof.
  intros chunk name.
  assert (H : Ingest.collections empty_index !! name = None) by apply lookup_empty.
  split; [exact H|].
  destruct (store_chunks_points sample_oracles "acme" "doc-1" "a.md" [chunk]
              empty_index) as (points & _ & _ & Hcalls & Hlen & Hpts & _).
  destruct points as [|p [|q points]]; try discriminate Hlen.
  destruct (Hpts 0%nat p eq_refl) as (c & Hc & _ & _ & Hpay).
  exists p. split; [exact (Hcalls H)|]. by rewrite Hpay.
Defined.

Lemma store_chunks_well_partitioned_witness :
  well_partitioned (Ingest.collections empty_index) ∧
  well_partitioned
    (Ingest.collections
       (snd (Ingest.store_chunks sample_oracles "acme" "doc-1" "a.md"
               [{| Ingest.ec_text := "One."; Ingest.ec_index := 0;
                   Ingest.ec_token_count := 4; Ingest.ec_embedding := [] |}]
               empty_index))).
Proof.
  assert (H : well_partitioned (Ingest.collections empty_index)).
  { intros name points p Hname. simpl in Hname. by rewrite lookup_empty in Hname. }
  split; [exact H|].
  by apply (store_chunks_well_partitioned sample_oracles "acme" "doc-1" "a.md").
Defined.

Lemma upload_document_indexes_every_chunk_witness :
  ∃ chunks,
    LLMService.chunk_text default_settings CharTokenizer.encode CharTokenizer.decode
      "One. Two." = Ok chunks ∧
    (length chunks <=
     length (Ingest.embeddings_create sample_oracles (map text chunks)))%nat ∧
    ∃ response s',
      Ingest.upload_document default_settings sample_oracles CharTokenizer.encode
        CharTokenizer.decode "acme" "a.md" None "One. Two." empty_index =
        (Ingest.Done response, s') ∧
      Ingest.chunks_count response = Z.of_nat (length chunks).
Proof.
  destruct (LLMService.chunk_text default_settings CharTokenizer.encode
              CharTokenizer.decode "One. Two.") as [chunks|e] eqn:Hrun.
  - assert (Hlen : (length chunks <=
                    length (Ingest.embeddings_create sample_oracles
                              (map text chunks)))%nat).
    { simpl. by rewrite !length_map. }
    exists chunks. split; [reflexivity|]. split; [exact Hlen|].
    destruct (upload_document_indexes_every_chunk default_settings sample_oracles
                CharTokenizer.encode CharTokenizer.decode "acme" "a.md" None
                "One. Two." chunks empty_index Hrun Hlen)
      as (response & s' & points & created & Hup & _ & Hcount & _).
    exists response, s'. split; [exact Hup | exact Hcount].
  - exfalso. vm_compute in Hrun. discriminate Hrun.
Defined.

Lemma upload_document_failure_keeps_document_witness :
  let settings := {| chunk_size := 500; chunk_overlap := 500; top_k_chunks := 5;
                     similarity_threshold := Float.f0_7; queries_per_minute := 10;
                     queries_per_hour := 100; cache_ttl_seconds := 3600 |} in
  LLMService.chunk_text settings CharTokenizer.encode CharTokenizer.decode "One."
    = Raise (ValueError "range() arg 3 must not be zero") ∧
  Ingest.upload_document settings sample_oracles CharTokenizer.encode
    CharTokenizer.decode "acme" "a.md" None "One." empty_index =
    (Ingest.Failed (Ingest.Core (ValueError "range() arg 3 must not be zero")),
     with_calls [Ingest.DbCreateDocument "acme" "a.md" "One." "text/markdown"]
       empty_index).
Proof.
  intros settings.
  assert (H : LLMService.chunk_text settings CharTokenizer.encode
                CharTokenizer.decode "One."
              = Raise (ValueError "range() arg 3 must not be zero"))
    by (vm_compute; reflexivity).
  split; [exact H|].
  destruct (upload_document_failure_keeps_document settings sample_oracles
              CharTokenizer.encode CharTokenizer.decode "acme" "a.md" None "One."
              empty_index) as (Hfail & _).
  exact (Hfail _ H).
Defined.

(** ** The limiter at a window boundary *)

Lemma run_calls_app settings tenant operation times1 times2 w :
  run_calls settings tenant operation (times1 ++ times2) w =
  let '(rs1, w1) := run_calls settings tenant operation times1 w in
  let '(rs2, w2) := run_calls settings tenant operation times2 w1 in
  (rs1 ++ rs2, w2).
Proof.
  revert w. induction times1 as [|t times1 IH]; intros w; simpl.
  - by destruct (run_calls _ _ _ times2 w).
  - destruct (CacheService.check_rate_limit _ _ _ _) as [r w'].
    rewrite IH. destruct (run_calls _ _ _ times1 w') as [rs1 w1].
    by destruct (run_calls _ _ _ times2 w1).
Qed.

(** The calls of one window that starts without a counter. *)
Lemma run_calls_fresh_window settings tenant operation minute times w0 :
  Forall (fun t => 0 <= t ∧ Z.quot t 60 = minute) times ->
  redis w0 !! CacheService.rate_limit_key tenant operation minute = None ->
  ∃ w,
    run_calls settings tenant operation times w0 =
      (imap (fun i _ =>
               Ok (bool_decide (Z.of_nat i + 1 <= queries_per_minute settings)))
         times, w) ∧
    ∀ k, k ≠ CacheService.rate_limit_key tenant operation minute ->
         redis w !! k = redis w0 !! k.
Proof.
  intros Hall Hfresh. destruct times as [|t1 later]; simpl.
  - by exists w0.
  - apply Forall_cons in Hall as [[Ht1 Hmin1] Hall].
    rewrite (check_rate_limit_first settings tenant operation (set_clock t1 w0));
      simpl.
    2:{ rewrite Hmin1. unfold Redis.lookup. by rewrite Hfresh. }
    rewrite Hmin1.
    match goal with
    | |- context [run_calls _ _ _ later ?w1] =>
        destruct (run_calls_later settings tenant operation minute later w1 1
                    (t1 + 60)) as (w & Hrun & Hredis & _);
          [ | lia | simpl; apply lookup_insert_eq | rewrite Hrun]
    end.
    { eapply Forall_impl; [exact Hall|]. intros t [Ht Hmin]. split; [done|].
      apply same_window; [done..|]. by rewrite Hmin, Hmin1. }
    exists w. split.
    + rewrite negb_ltb_decide. do 2 f_equal. apply imap_ext. intros i x _. simpl.
      rewrite negb_ltb_decide. f_equal. apply bool_decide_ext. lia.
    + intros k Hk. rewrite Hredis. simpl. by rewrite !lookup_insert_ne.
Qed.

Lemma imap_replicate_allowed (limit : Z) (n : nat) (t : Z) :
  n = 0%nat ∨ Z.of_nat n <= limit ->
  imap (fun i (_ : Z) => Ok (bool_decide (Z.of_nat i + 1 <= limit))) (replicate n t) =
  replicate n (Ok true).
Proof.
  intros [-> | Hn]; [reflexivity|]. apply list_eq. intros i. rewrite list_lookup_imap.
  destruct (decide (i < n)%nat) as [Hi|Hi].
  - rewrite !lookup_replicate_2 by done. simpl.
    by rewrite bool_decide_eq_true_2 by lia.
  - rewrite (proj1 (lookup_replicate_None n t i)) by lia. simpl.
    symmetry. apply lookup_replicate_None. lia.
Qed.

(** The window is fixed, not sliding: with fresh counters, a tenant may make
    as many calls as the limit allows in the last second of one window and as
    many again in the first second of the next, and all of them are allowed -
    twice the per-minute limit within two seconds. *)
Theorem rate_limit_boundary_burst settings tenant operation (minute : Z) w0 :
  let limit := Z.to_nat (queries_per_minute settings) in
  0 <= minute ->
  redis w0 !! CacheService.rate_limit_key tenant operation minute = None ->
  redis w0 !! CacheService.rate_limit_key tenant operation (minute + 1) = None ->
  ∃ w,
    run_calls settings tenant operation
      (replicate limit (60 * minute + 59) ++ replicate limit (60 * minute + 60)) w0 =
      (replicate (limit + limit) (Ok true), w).
Proof.
  intros limit Hmin Hfresh Hfresh'.
  rewrite run_calls_app.
  destruct (run_calls_fresh_window settings tenant operation minute
              (replicate limit (60 * minute + 59)) w0) as (w1 & Hrun1 & Hredis1);
    [ | done | ].
  { apply Forall_replicate. split; [lia|].
    rewrite Z.quot_div_nonneg by lia.
    symmetry. apply (Z.div_unique _ _ _ 59); lia. }
  rewrite Hrun1.
  destruct (run_calls_fresh_window settings tenant operation (minute + 1)
              (replicate limit (60 * minute + 60)) w1) as (w2 & Hrun2 & _).
  { apply Forall_replicate. split; [lia|].
    rewrite Z.quot_div_nonneg by lia.
    symmetry. apply (Z.div_unique _ _ _ 0); lia. }
  { rewrite Hredis1; [done|]. intros H.
    apply rate_limit_key_inj in H. lia. }
  rewrite Hrun2. exists w2.
  rewrite !imap_replicate_allowed by (unfold limit; lia).
  by rewrite replicate_add.
Qed.

Lemma rate_limit_boundary_burst_witness :
  0 <= 16 ∧
  redis (empty_world 0) !! CacheService.rate_limit_key "acme" "query" 16 = None ∧
  redis (empty_world 0) !! CacheService.rate_limit_key "acme" "query" (16 + 1) = None ∧
  ∃ w,
    run_calls default_settings "acme" "query"
      (replicate 10 1019 ++ replicate 10 1020) (empty_world 0) =
      (replicate 20 (Ok true), w).
Proof.
  split; [lia|]. split; [apply lookup_empty|]. split; [apply lookup_empty|].
  apply (rate_limit_boundary_burst default_settings "acme" "query" 16
           (empty_world 0)); [lia | apply lookup_empty | apply lookup_empty].
Defined.

(** ** The shape of keys and partition names *)

Lemma chars_append s1 s2 : chars (s1 +:+ s2) = chars s1 ++ chars s2.
Proof.
  unfold chars. induction s1 as [|a s1 IH]; [done|].
  rewrite append_cons. simpl. by rewrite IH.
Qed.

Lemma chars_length s : length (chars s) = String.length s.
Proof. unfold chars. induction s as [|a s IH]; simpl; [done | by rewrite IH]. Qed.

Lemma chars_of_list l : chars (String.string_of_list_ascii l) = l.
Proof. apply String.list_ascii_of_string_of_list_ascii. Qed.

Lemma be_bytes_length n x : length (SHA256.be_bytes n x) = n.
Proof.
  revert x. induction n as [|n IH]; intros x; simpl; [done|].
  rewrite length_app, IH. simpl. lia.
Qed.

Lemma be_bytes_range n x : Forall (fun b => 0 <= b < 256) (SHA256.be_bytes n x).
Proof.
  revert x. induction n as [|n IH]; intros x; simpl; [done|].
  apply Forall_app. split; [apply IH|].
  constructor; [|done]. apply Z.mod_pos_bound. lia.
Qed.

Lemma digest_shape msg :
  length (SHA256.digest msg) = 32%nat ∧
  Forall (fun b => 0 <= b < 256) (SHA256.digest msg).
Proof.
  unfold SHA256.digest.
  destruct (fold_left _ _ _) as [[[[[[[a b] c] d] e] f] g] h].
  set (ws := [a; b; c; d; e; f; g; h]).
  change 32%nat with (4 * length ws)%nat. clearbody ws.
  induction ws as [|x ws [IH1 IH2]]; [done|].
  cbn [flat_map]. split.
  - rewrite length_app, be_bytes_length, IH1. simpl. lia.
  - apply Forall_app. split; [apply be_bytes_range | done].
Qed.

Lemma hex_digit_is_hex n : 0 <= n < 16 -> is_hex_digit (SHA256.hex_digit n).
Proof.
  intros Hn. unfold is_hex_digit.
  assert (Hcases : n = 0 ∨ n = 1 ∨ n = 2 ∨ n = 3 ∨ n = 4 ∨ n = 5 ∨ n = 6 ∨ n = 7 ∨
                   n = 8 ∨ n = 9 ∨ n = 10 ∨ n = 11 ∨ n = 12 ∨ n = 13 ∨ n = 14 ∨
                   n = 15) by lia.
  repeat (destruct Hcases as [-> | Hcases];
          [vm_compute; repeat (first [apply list_elem_of_here | apply list_elem_of_further])|]).
  subst. vm_compute. repeat (first [apply list_elem_of_here | apply list_elem_of_further]).
Qed.

Lemma hex_of_bytes_shape bs :
  Forall (fun b => 0 <= b < 256) bs ->
  length (chars (SHA256.hex_of_bytes bs)) = (2 * length bs)%nat ∧
  Forall is_hex_digit (chars (SHA256.hex_of_bytes bs)).
Proof.
  unfold SHA256.hex_of_bytes. rewrite chars_of_list.
  induction 1 as [|b bs Hb _ [IH1 IH2]]; simpl; [done|].
  split; [rewrite IH1; lia|].
  constructor; [|constructor; [|done]]; apply hex_digit_is_hex.
  - split; [apply Z.div_pos; lia | apply Z.div_lt_upper_bound; lia].
  - apply Z.mod_pos_bound. lia.
Qed.

(** Every cache key is the prefix "cache:llm:" followed by 64 lowercase
    hexadecimal digits: its length is 74 whatever the tenant, the length of
    the question and the number of fragments, and no character of the
    question reaches the key. *)
Theorem cache_key_shape (tenant question : string) (ids : list string) :
  ∃ h,
    CacheService._generate_cache_key tenant question ids = "cache:llm:" +:+ h ∧
    String.length h = 64%nat ∧
    Forall is_hex_digit (chars h) ∧
    String.length (CacheService._generate_cache_key tenant question ids) = 74%nat.
Proof.
  unfold CacheService._generate_cache_key.
  set (content := CacheService.cache_key_content tenant question ids).
  destruct (digest_shape (SHA256.bytes_of_string content)) as [Hlen Hrange].
  destruct (hex_of_bytes_shape _ Hrange) as [Hhex1 Hhex2].
  exists (SHA256.hexdigest content). split; [done|].
  assert (H64 : String.length (SHA256.hexdigest content) = 64%nat).
  { rewrite <- chars_length. unfold SHA256.hexdigest. rewrite Hhex1, Hlen. done. }
  split; [done|]. split; [done|].
  rewrite length_append, H64. reflexivity.
Qed.

Lemma chars_remove_char c s : c ∉ chars (Py.remove_char c s).
Proof.
  induction s as [|a s IH]; simpl; [apply not_elem_of_nil|].
  destruct (Ascii.eqb a c) eqn:Hac; [done|].
  apply Ascii.eqb_neq in Hac. change (c ∉ a :: chars (Py.remove_char c s)).
  apply not_elem_of_cons. split; [congruence | done].
Qed.

Lemma chars_take n s a : a ∈ chars (Py.take n s) -> a ∈ chars s.
Proof.
  revert s. induction n as [|n IH]; intros [|b s]; simpl; try done.
  - intros H. by apply elem_of_nil in H.
  - change (a ∈ b :: chars (Py.take n s) -> a ∈ b :: chars s).
    rewrite !elem_of_cons. intros [-> | H]; [by left | right; by apply IH].
Qed.

Lemma take_length_le n s : (String.length (Py.take n s) <= n)%nat.
Proof.
  revert s. induction n as [|n IH]; intros [|b s]; simpl; try lia.
  specialize (IH s). lia.
Qed.

(** A partition name never contains a hyphen, whatever the tenant
    identifier, and has between 17 and 33 characters: "tenant_", at most 16
    characters of the identifier, "_documents". *)
Theorem collection_name_shape (tenant : string) :
  ("-"%char ∉ chars (VectorStore._get_collection_name tenant)) ∧
  (17 <= String.length (VectorStore._get_collection_name tenant) <= 33)%nat.
Proof.
  unfold VectorStore._get_collection_name. split.
  - rewrite !chars_append. rewrite !not_elem_of_app. split; [|split].
    + vm_compute. intros H.
      repeat (apply elem_of_cons in H as [H | H]; [discriminate H|]).
      by apply elem_of_nil in H.
    + intros H. apply chars_take in H. by apply chars_remove_char in H.
    + vm_compute. intros H.
      repeat (apply elem_of_cons in H as [H | H]; [discriminate H|]).
      by apply elem_of_nil in H.
  - rewrite !length_append.
    pose proof (take_length_le 16 (Py.remove_char "-" tenant)) as Hle.
    change (String.length "tenant_") with 7%nat.
    change (String.length "_documents") with 10%nat.
    split; [lia|]. revert Hle.
    generalize (String.length (Py.take 16 (Py.remove_char "-" tenant))).
    intros n Hn. lia.
Qed.

(** ** Cached answers over time *)

(** The last answer offered wins: when a second admitted answer is offered
    for the same tenant, question and fragments, a lookup returns the second
    answer, and the TTL runs from the second offer - the expiry of the first
    no longer matters. *)
Theorem cache_response_overwrites settings tenant question ids r1 r2 ttl w
    (t2 now : Z) :
  ¬ not_admitted question r1 ->
  ¬ not_admitted question r2 ->
  0 < CacheService.ttl_or_default settings ttl ->
  let w1 := snd (CacheService.cache_response settings tenant question ids r1 ttl w) in
  let w2 := snd (CacheService.cache_response settings tenant question ids r2 ttl
                   (set_clock t2 w1)) in
  fst (CacheService.get_cached_response tenant question ids (set_clock now w2)) =
    Ok (if now <? t2 + CacheService.ttl_or_default settings ttl
        then Some (RDoc r2) else None).
Proof.
  intros H1 H2 Httl w1 w2. unfold w2, w1.
  rewrite !cache_response_stored by done.
  rewrite get_cached_response_run. simpl.
  rewrite lookup_stored. by destruct (now <? _).
Qed.

Lemma cache_response_overwrites_witness :
  let r1 := {| answer := Some "Fifteen days."; sources := [];
               confidence := Value f0_9; insufficient_context := Some false |} in
  ¬ not_admitted "How many vacation days are granted?" r1 ∧
  ¬ not_admitted "How many vacation days are granted?" sample_answer ∧
  0 < CacheService.ttl_or_default default_settings None ∧
  fst (CacheService.get_cached_response "acme"
         "How many vacation days are granted?" ["d1"]
         (set_clock 4000
            (snd (CacheService.cache_response default_settings "acme"
                    "How many vacation days are granted?" ["d1"] sample_answer None
                    (set_clock 500
                       (snd (CacheService.cache_response default_settings "acme"
                               "How many vacation days are granted?" ["d1"] r1 None
                               (empty_world 100)))))))) =
    Ok (Some (RDoc sample_answer)).
Proof.
  intros r1.
  assert (Hadm : ∀ r, confidence r = Value f0_9 ∨ confidence r = Value f0_95 ->
                      insufficient_context r = Some false ->
                      ¬ not_admitted "How many vacation days are granted?" r).
  { intros r Hc Hi [H | [H | H]].
    - unfold CacheService.get_confidence in H.
      destruct Hc as [Hc | Hc]; rewrite Hc in H; vm_compute in H; discriminate.
    - unfold CacheService.get_insufficient_context in H. rewrite Hi in H.
      discriminate.
    - apply any_in_true in H. vm_compute in H. discriminate. }
  assert (H1 : ¬ not_admitted "How many vacation days are granted?" r1)
    by (apply Hadm; [by left | done]).
  assert (H2 : ¬ not_admitted "How many vacation days are granted?" sample_answer)
    by (apply Hadm; [by right | done]).
  assert (H3 : 0 < CacheService.ttl_or_default default_settings None)
    by (simpl; lia).
  split; [exact H1|]. split; [exact H2|]. split; [exact H3|].
  by rewrite (cache_response_overwrites default_settings "acme"
                "How many vacation days are granted?" ["d1"] r1 sample_answer None
                (empty_world 100) 500 4000 H1 H2 H3).
Defined.

(** Nothing is invalidated: [invalidate_document_cache] changes neither the
    store nor the trace, so an answer cached from a document is still served
    after the invalidation of that document was requested, until its TTL
    elapses. *)
Theorem cache_survives_invalidation settings tenant question ids response ttl
    document w (now : Z) :
  ¬ not_admitted question response ->
  0 < CacheService.ttl_or_default settings ttl ->
  now < clock w + CacheService.ttl_or_default settings ttl ->
  let w1 := snd (CacheService.cache_response settings tenant question ids
                   response ttl w) in
  let w2 := snd (CacheService.invalidate_document_cache tenant document w1) in
  CacheService.invalidate_document_cache tenant document w1 = (Ok tt, w1) ∧
  fst (CacheService.get_cached_response tenant question ids (set_clock now w2)) =
    Ok (Some (RDoc response)).
Proof.
  intros Hadm Httl Hnow w1 w2. split; [reflexivity|].
  unfold w2, w1. simpl.
  rewrite cache_response_stored by done.
  rewrite get_cached_response_run. simpl.
  rewrite lookup_stored. by rewrite (proj2 (Z.ltb_lt _ _) Hnow).
Qed.

Lemma cache_survives_invalidation_witness :
  ¬ not_admitted "How many vacation days are granted?" sample_answer ∧
  0 < CacheService.ttl_or_default default_settings None ∧
  2000 < clock (empty_world 100) + CacheService.ttl_or_default default_settings None ∧
  fst (CacheService.get_cached_response "acme"
         "How many vacation days are granted?" ["d1"]
         (set_clock 2000
            (snd (CacheService.invalidate_document_cache "acme" "d1"
                    (snd (CacheService.cache_response default_settings "acme"
                            "How many vacation days are granted?" ["d1"]
                            sample_answer None (empty_world 100))))))) =
    Ok (Some (RDoc sample_answer)).
Proof.
  assert (H1 : ¬ not_admitted "How many vacation days are granted?" sample_answer).
  { intros [H | [H | H]].
    - vm_compute in H. discriminate.
    - vm_compute in H. discriminate.
    - apply any_in_true in H. vm_compute in H. discriminate. }
  assert (H2 : 0 < CacheService.ttl_or_default default_settings None)
    by (simpl; lia).
  assert (H3 : 2000 < clock (empty_world 100) +
                      CacheService.ttl_or_default default_settings None)
    by (simpl; lia).
  split; [exact H1|]. split; [exact H2|]. split; [exact H3|].
  apply (cache_survives_invalidation default_settings "acme"
           "How many vacation days are granted?" ["d1"] sample_answer None "d1"
           (empty_world 100) 2000 H1 H2 H3).
Defined.
